(** * GerbX: Gerber interpreter, clearance and mirror transform

    A shallow embedding of the geometry core of GerbX:
    - [GerberToPath] (vectorUtils.ts): [convert], [getBounds],
      [calculatePathBounds];
    - [VectorProcessor] (vectorProcessor.ts): [invert], [mirror];
    - [renderGerberWithCustomParser] (the command-list renderer).

    Conventions of the embedding.
    - A JavaScript string is a [string] of ASCII code units (the Gerber
      input grammar and the SVG path grammar are ASCII).
    - A JavaScript number is a [number]: the IEEE special values [NaN],
      [Infinity], [NegInfinity] are kept as the code tests for them, and a
      finite value is an exact rational [Fin q] (binary rounding and the
      sign of zero are idealised away).  A numeral of the input beyond the
      range of the host's numbers reads as an infinity, as on the host;
      statements about arbitrary text bound the numerals they read.
    - [undefined]/[null] results are [option]s; exceptions are a sum type.
    - Host built-ins the code calls (trim, parseFloat, toFixed, the regular
      expressions, ...) are written out as functions in module [JS]. *)

From Stdlib Require Import ZArith QArith Qround Qabs Qminmax Qpower.
From Stdlib Require Import Lia Lqa Bool List.
From stdpp Require Import gmap strings.
From Stdlib Require Import String Ascii.
Import ListNotations.

Local Open Scope string_scope.

(* ================================================================== *)
(** * Host language: strings                                           *)
(* ================================================================== *)

Module JS.

Definition code (c : ascii) : N := N_of_ascii c.

Definition isDigit (c : ascii) : bool :=
  ((48 <=? code c) && (code c <=? 57))%N.

(** White space as removed by [trim] and matched by [\s] (ASCII part). *)
Definition isWhiteSpace (c : ascii) : bool :=
  match code c with
  | 9%N | 10%N | 11%N | 12%N | 13%N | 32%N => true
  | _ => false
  end.

(** The regular expression dot excludes line terminators. *)
Definition isLineTerminator (c : ascii) : bool :=
  match code c with
  | 10%N | 13%N => true
  | _ => false
  end.

Definition isLower (c : ascii) : bool :=
  ((97 <=? code c) && (code c <=? 122))%N.

Definition isUpper (c : ascii) : bool :=
  ((65 <=? code c) && (code c <=? 90))%N.

Definition toUpperChar (c : ascii) : ascii :=
  if isLower c then ascii_of_N (code c - 32) else c.

Fixpoint toUpperCase (s : string) : string :=
  match s with
  | EmptyString => EmptyString
  | String c r => String (toUpperChar c) (toUpperCase r)
  end.

Definition isEmpty (s : string) : bool :=
  match s with EmptyString => true | _ => false end.

Fixpoint trimStart (s : string) : string :=
  match s with
  | EmptyString => EmptyString
  | String c r => if isWhiteSpace c then trimStart r else s
  end.

Fixpoint trimEnd (s : string) : string :=
  match s with
  | EmptyString => EmptyString
  | String c r =>
      let r' := trimEnd r in
      if isWhiteSpace c && isEmpty r' then EmptyString else String c r'
  end.

Definition trim (s : string) : string := trimEnd (trimStart s).

(** [s.startsWith(p)] *)
Fixpoint startsWith (p s : string) : bool :=
  match p, s with
  | EmptyString, _ => true
  | String a p', String b s' => Ascii.eqb a b && startsWith p' s'
  | String _ _, EmptyString => false
  end.

(** [s.includes(p)] *)
Fixpoint includes (p s : string) : bool :=
  startsWith p s ||
  match s with
  | EmptyString => false
  | String _ r => includes p r
  end.

(** [s.indexOf(c)] for a one-character needle, as the suffix after the
    first occurrence: the code only ever uses [s.substring(i + 1)]. *)
Fixpoint afterFirst (c : ascii) (s : string) : option string :=
  match s with
  | EmptyString => None
  | String a r => if Ascii.eqb a c then Some r else afterFirst c r
  end.

Fixpoint drop (n : nat) (s : string) : string :=
  match n, s with
  | O, _ => s
  | S n', String _ r => drop n' r
  | S _, EmptyString => EmptyString
  end.

(** [s.split(c)] for a one-character separator. *)
Fixpoint split (c : ascii) (s : string) : list string :=
  match s with
  | EmptyString => [EmptyString]
  | String a r =>
      if Ascii.eqb a c then EmptyString :: split c r
      else match split c r with
           | x :: xs => String a x :: xs
           | [] => [String a EmptyString]
           end
  end.

(** [a.join(sep)] *)
Fixpoint join (sep : string) (l : list string) : string :=
  match l with
  | [] => EmptyString
  | [x] => x
  | x :: xs => x ++ sep ++ join sep xs
  end.

(** Longest prefix of characters satisfying [p], and the rest. *)
Fixpoint span (p : ascii -> bool) (s : string) : string * string :=
  match s with
  | EmptyString => (EmptyString, EmptyString)
  | String c r =>
      if p c then let '(a, b) := span p r in (String c a, b)
      else (EmptyString, s)
  end.

(** [s.replace(/p/g, r)] for a literal, non-empty pattern [p]. *)
Fixpoint replaceAll_aux (p r : string) (skip : nat) (s : string) : string :=
  match s with
  | EmptyString => EmptyString
  | String c t =>
      match skip with
      | S k => replaceAll_aux p r k t
      | O =>
          if startsWith p s
          then r ++ replaceAll_aux p r (String.length p - 1) t
          else String c (replaceAll_aux p r O t)
      end
  end.

Definition replaceAll (p r s : string) : string := replaceAll_aux p r O s.

(* ================================================================== *)
(** * Host language: numbers                                           *)
(* ================================================================== *)

Inductive number : Type :=
  | NaN
  | NegInfinity
  | Fin (q : Q)
  | Infinity.

Definition Qltb (a b : Q) : bool := negb (Qle_bool b a).

Definition zero : number := Fin 0.

Definition neg (a : number) : number :=
  match a with
  | NaN => NaN
  | NegInfinity => Infinity
  | Fin q => Fin (- q)
  | Infinity => NegInfinity
  end.

Definition add (a b : number) : number :=
  match a, b with
  | NaN, _ | _, NaN => NaN
  | Fin p, Fin q => Fin (p + q)
  | Infinity, NegInfinity | NegInfinity, Infinity => NaN
  | Infinity, _ | _, Infinity => Infinity
  | NegInfinity, _ | _, NegInfinity => NegInfinity
  end.

Definition sub (a b : number) : number := add a (neg b).

(** Sign of a number as an infinity, [NaN] for zero: the product of an
    infinity with it. *)
Definition signedInfinity (positive : bool) (q : Q) : number :=
  if Qeq_bool q 0 then NaN
  else if Bool.eqb positive (Qltb 0 q) then Infinity else NegInfinity.

Definition mul (a b : number) : number :=
  match a, b with
  | NaN, _ | _, NaN => NaN
  | Fin p, Fin q => Fin (p * q)
  | Infinity, Infinity | NegInfinity, NegInfinity => Infinity
  | Infinity, NegInfinity | NegInfinity, Infinity => NegInfinity
  | Infinity, Fin q | Fin q, Infinity => signedInfinity true q
  | NegInfinity, Fin q | Fin q, NegInfinity => signedInfinity false q
  end.

Definition div (a b : number) : number :=
  match a, b with
  | NaN, _ | _, NaN => NaN
  | Fin p, Fin q =>
      if Qeq_bool q 0 then signedInfinity true p else Fin (p / q)
  | Fin _, (Infinity | NegInfinity) => Fin 0
  | (Infinity | NegInfinity), (Infinity | NegInfinity) => NaN
  | Infinity, Fin q => if Qltb q 0 then NegInfinity else Infinity
  | NegInfinity, Fin q => if Qltb q 0 then Infinity else NegInfinity
  end.

(** [a < b]; every comparison with [NaN] is false. *)
Definition lessThan (a b : number) : bool :=
  match a, b with
  | NaN, _ | _, NaN => false
  | Fin p, Fin q => Qltb p q
  | NegInfinity, NegInfinity => false
  | NegInfinity, _ => true
  | _, NegInfinity => false
  | Infinity, _ => false
  | Fin _, Infinity => true
  end.

Definition greaterThan (a b : number) : bool := lessThan b a.

(** [a === b] *)
Definition strictEq (a b : number) : bool :=
  match a, b with
  | Fin p, Fin q => Qeq_bool p q
  | Infinity, Infinity | NegInfinity, NegInfinity => true
  | _, _ => false
  end.

(** [a <= b] *)
Definition lessEq (a b : number) : bool :=
  match a, b with
  | NaN, _ | _, NaN => false
  | _, _ => lessThan a b || strictEq a b
  end.

Definition greaterEq (a b : number) : bool := lessEq b a.

Definition isNaN (a : number) : bool :=
  match a with NaN => true | _ => false end.

(** ToBoolean: [NaN] and zero are falsy. *)
Definition truthy (a : number) : bool :=
  match a with
  | NaN => false
  | Fin q => negb (Qeq_bool q 0)
  | _ => true
  end.

(** [o || d] where [o] is a number or [undefined]. *)
Definition orDefault (o : option number) (d : number) : number :=
  match o with
  | Some a => if truthy a then a else d
  | None => d
  end.

Definition Math_min (a b : number) : number :=
  match a, b with
  | NaN, _ | _, NaN => NaN
  | _, _ => if lessThan b a then b else a
  end.

Definition Math_max (a b : number) : number :=
  match a, b with
  | NaN, _ | _, NaN => NaN
  | _, _ => if lessThan a b then b else a
  end.

Definition Math_abs (a : number) : number :=
  match a with
  | NaN => NaN
  | Fin q => Fin (Qabs q)
  | _ => Infinity
  end.

(** [Math.pow(b, k)] for an integer exponent [k]. *)
Definition Math_pow (b : Q) (k : Z) : number := Fin (b ^ k).

(** [Math.sqrt]: exact on squares of rationals, truncated to 64 binary
    fractional digits of the denominator otherwise. *)
Definition Qsqrt (q : Q) : Q :=
  let n := Qnum q in
  let d := Zpos (Qden q) in
  Qred (Qmake (Z.sqrt (n * d * 4 ^ 64)) (Z.to_pos (d * 2 ^ 64))).

Definition Math_sqrt (a : number) : number :=
  match a with
  | NaN | NegInfinity => NaN
  | Infinity => Infinity
  | Fin q => if Qltb q 0 then NaN else Fin (Qsqrt q)
  end.

(** ** Decimal digits *)

Definition digitVal (c : ascii) : N := (code c - 48)%N.
Definition digitChar (d : N) : ascii := ascii_of_N (48 + d).

(** Value of a digit string read after the accumulator [acc]. *)
Fixpoint digitsVal (acc : N) (s : string) : N :=
  match s with
  | EmptyString => acc
  | String c r => digitsVal (acc * 10 + digitVal c) r
  end.

(** Decimal digits of [n], most significant first, in front of [acc]. *)
Fixpoint digitsOf_aux (fuel : nat) (n : N) (acc : string) : string :=
  match fuel with
  | O => String (digitChar (n mod 10)) acc
  | S fuel' =>
      if (n <? 10)%N then String (digitChar n) acc
      else digitsOf_aux fuel' (n / 10) (String (digitChar (n mod 10)) acc)
  end.

Definition digitsOf (n : N) : string :=
  digitsOf_aux (N.to_nat (N.size n)) n EmptyString.

(** Exactly [f] digits of [m], zero padded: the fraction of [toFixed]. *)
Fixpoint fracDigits (f : nat) (m : N) : string :=
  match f with
  | O => EmptyString
  | S f' =>
      String (digitChar (m / 10 ^ N.of_nat f'))
             (fracDigits f' (m mod 10 ^ N.of_nat f'))
  end.

(** [x.toFixed(f)]: the integer [n] nearest to [|x| * 10^f], the larger
    one on a tie, printed with [f] decimals and the sign of [x].  All
    digits are printed at every magnitude; the host turns to exponent
    notation from 10^21 on, so the function stands for the host's below
    that magnitude, and statements about the digits printed for
    arbitrary input bound the numbers. *)
Definition roundHalfUp (a : Q) : N := Z.to_N (Qfloor (a + (1 # 2))%Q).

Definition toFixed (f : nat) (x : number) : string :=
  match x with
  | NaN => "NaN"
  | Infinity => "Infinity"
  | NegInfinity => "-Infinity"
  | Fin q =>
      let n := roundHalfUp (Qabs q * inject_Z (10 ^ Z.of_nat f)) in
      let p := (10 ^ N.of_nat f)%N in
      (if Qltb q 0 then "-" else "") ++
      digitsOf (n / p) ++
      match f with
      | O => ""
      | _ => "." ++ fracDigits f (n mod p)
      end
  end.

(** ** parseFloat and parseInt *)

(** A leading sign, as text, and the rest. *)
Definition splitSign (s : string) : string * string :=
  match s with
  | String c r =>
      if Ascii.eqb c "-" || Ascii.eqb c "+"
      then (String c EmptyString, r) else (EmptyString, s)
  | EmptyString => (EmptyString, s)
  end.

Definition takeSign (s : string) : bool * string :=
  let '(sg, r) := splitSign s in (String.eqb sg "-", r).

(** The digits after a point at the head of [s], and what follows. *)
Definition fractionDigits (s : string) : string * string :=
  match s with
  | String c r => if Ascii.eqb c "." then span isDigit r else (EmptyString, s)
  | EmptyString => (EmptyString, s)
  end.

(** The exponent part [e[+-]digits] when present, as a power of ten. *)
Definition exponentPart (s : string) : Z :=
  match s with
  | String c r =>
      if Ascii.eqb c "e" || Ascii.eqb c "E" then
        let '(sg, r1) := takeSign r in
        let '(ds, _) := span isDigit r1 in
        if isEmpty ds then 0%Z
        else if sg then (- Z.of_N (digitsVal 0 ds))%Z
             else Z.of_N (digitsVal 0 ds)
      else 0%Z
  | EmptyString => 0%Z
  end.

(** The host's numbers are binary64.  A decimal literal is read as the
    nearest one, and as an infinity from [2^1024 - 2^970] on: half a step
    past the largest finite number. *)
Definition overflowLimit : Q := Eval vm_compute in
  inject_Z (2 ^ 1024 - 2 ^ 970).

Definition ofLiteral (v : Q) : number :=
  if Qle_bool overflowLimit (Qabs v)
  then (if Qltb v 0 then NegInfinity else Infinity)
  else Fin v.

(** [parseFloat(s)]: the longest prefix of the trimmed string that is a
    decimal literal, [NaN] when there is none, an infinity when the
    literal is out of range. *)
Definition parseFloat (s : string) : number :=
  let '(sg, s1) := takeSign (trimStart s) in
  if startsWith "Infinity" s1 then (if sg then NegInfinity else Infinity)
  else
    let '(ip, r1) := span isDigit s1 in
    let '(fp, r2) := fractionDigits r1 in
    if isEmpty ip && isEmpty fp then NaN
    else
      let m := inject_Z (Z.of_N (digitsVal 0 (ip ++ fp))) in
      let v := (m / inject_Z (10 ^ Z.of_nat (String.length fp))
                * (10 # 1) ^ exponentPart r2)%Q in
      ofLiteral (if sg then - v else v).

Definition isHexDigit (c : ascii) : bool :=
  isDigit c
  || ((97 <=? code c) && (code c <=? 102))%N
  || ((65 <=? code c) && (code c <=? 70))%N.

Definition hexVal (c : ascii) : N :=
  if isDigit c then digitVal c
  else if isLower c then (code c - 87)%N
  else (code c - 55)%N.

Fixpoint hexDigitsVal (acc : N) (s : string) : N :=
  match s with
  | EmptyString => acc
  | String c r => hexDigitsVal (acc * 16 + hexVal c) r
  end.

(** [parseInt(s)] without a radix: decimal, or hexadecimal after a
    [0x]/[0X] prefix; [None] stands for [NaN]. *)
Definition parseInt (s : string) : option Z :=
  let '(sg, s1) := takeSign (trimStart s) in
  let signed (n : N) : Z := if sg then (- Z.of_N n)%Z else Z.of_N n in
  if startsWith "0x" s1 || startsWith "0X" s1 then
    let '(ds, _) := span isHexDigit (drop 2 s1) in
    if isEmpty ds then None else Some (signed (hexDigitsVal 0 ds))
  else
    let '(ds, _) := span isDigit s1 in
    if isEmpty ds then None else Some (signed (digitsVal 0 ds)).

(** ** Regular expressions of the code, written out *)

(** [/^([-+]?\d*\.?\d+)/]: with backtracking, an optional sign, then
    either digits, a dot and digits, or (when no digit follows the dot)
    a non-empty run of digits. Returns the matched text. *)
Definition matchNumber (s : string) : option string :=
  let '(sg, s1) := splitSign s in
  let '(ip, r1) := span isDigit s1 in
  let '(fp, _) := fractionDigits r1 in
  if negb (isEmpty fp) then Some (sg ++ ip ++ "." ++ fp)
  else if negb (isEmpty ip) then Some (sg ++ ip)
  else None.

(** [s.match(/[-+]?\d*\.?\d+/g)]: all matches, left to right, without
    overlap ([skip] characters of the last match are still to pass). *)
Fixpoint matchAllNumbers_aux (skip : nat) (s : string) : list string :=
  match s with
  | EmptyString => []
  | String _ r =>
      match skip with
      | S k => matchAllNumbers_aux k r
      | O =>
          match matchNumber s with
          | Some m => m :: matchAllNumbers_aux (String.length m - 1) r
          | None => matchAllNumbers_aux O r
          end
      end
  end.

Definition matchAllNumbers (s : string) : list string :=
  matchAllNumbers_aux O s.

End JS.

Import JS.

(** Bounding boxes, [{x, y, width, height}]. *)
Record Bounds : Type := mkBounds {
  x : number;
  y : number;
  width : number;
  height : number
}.

Definition zeroBounds : Bounds := mkBounds (Fin 0) (Fin 0) (Fin 0) (Fin 0).

(** [a.push(x)] and [a.push(x1, ..., xn)] *)
Definition push {A : Type} (a : list A) (x : A) : list A := (a ++ [x])%list.
Definition pushAll {A : Type} (a xs : list A) : list A := (a ++ xs)%list.

(** First position of [s] at which [f] matches. *)
Fixpoint findFirst {A : Type} (f : string -> option A) (s : string)
  : option A :=
  match f s with
  | Some a => Some a
  | None =>
      match s with
      | EmptyString => None
      | String _ r => findFirst f r
      end
  end.

(** Last position of [s] at which [f] matches. *)
Fixpoint findLast {A : Type} (f : string -> option A) (s : string)
  : option A :=
  match s with
  | EmptyString => f s
  | String _ r =>
      match findLast f r with
      | Some a => Some a
      | None => f s
      end
  end.

(* ================================================================== *)
(** * GerberToPath (vectorUtils.ts)                                    *)
(* ================================================================== *)

Module GerberToPath.

(** ** Header scans *)

(** One match of [/%ADD(\d+)C,([\d.]+)\*%/] at the head of [s]: the two
    groups and the length of the match. *)
Definition matchADD (s : string) : option (string * string * nat) :=
  if startsWith "%ADD" s then
    let '(code, r1) := span isDigit (drop 4 s) in
    if isEmpty code then None
    else if startsWith "C," r1 then
      let '(val, r2) :=
        span (fun c => isDigit c || Ascii.eqb c ".") (drop 2 r1) in
      if isEmpty val then None
      else if startsWith "*%" r2
           then Some (code, val, 4 + String.length code + 2
                                 + String.length val + 2)%nat
           else None
    else None
  else None.

(** [gerberText.match(/%ADD(\d+)C,([\d.]+)\*%/g)], each match with its
    groups, left to right and without overlap. *)
Fixpoint addMatches_aux (skip : nat) (s : string) : list (string * string) :=
  match s with
  | EmptyString => []
  | String _ r =>
      match skip with
      | S k => addMatches_aux k r
      | O =>
          match matchADD s with
          | Some (code, val, len) => (code, val) :: addMatches_aux (len - 1) r
          | None => addMatches_aux O r
          end
      end
  end.

Definition addMatches (gerberText : string) : list (string * string) :=
  addMatches_aux O gerberText.

(** The tool dictionary: [apertures[parts[1]] = parseFloat(parts[2])] for
    every match in order, a later definition replacing an earlier one. *)
Definition parseApertures (gerberText : string) : gmap string number :=
  fold_left (fun m p => <[fst p := parseFloat (snd p)]> m)
            (addMatches gerberText) ∅.

Definition isOneOf (a b c : ascii) : bool := Ascii.eqb c a || Ascii.eqb c b.

(** The groups of a format specification the code reads. *)
Record FormatSpec : Type := mkFormatSpec {
  fsZeroSuppression : ascii;
  fsCoordinateMode : ascii;
  fsDecimalDigit : ascii
}.

(** [/%FS([LT])([AI])X(\d)(\d)Y(\d)(\d)\*%/] at the head of [s]. *)
Definition matchFS (s : string) : option FormatSpec :=
  if startsWith "%FS" s then
    match drop 3 s with
    | String z (String m (String cx (String d3 (String d4 (String cy
        (String d5 (String d6 (String star (String pct _))))))))) =>
        if isOneOf "L" "T" z && isOneOf "A" "I" m
           && Ascii.eqb cx "X" && isDigit d3 && isDigit d4
           && Ascii.eqb cy "Y" && isDigit d5 && isDigit d6
           && Ascii.eqb star "*" && Ascii.eqb pct "%"
        then Some (mkFormatSpec z m d4)
        else None
    | _ => None
    end
  else None.

(** [X(\d)(\d)] at the head of [s]: the second digit. *)
Definition matchXdd (s : string) : option ascii :=
  match s with
  | String cx (String d3 (String d4 _)) =>
      if Ascii.eqb cx "X" && isDigit d3 && isDigit d4 then Some d4 else None
  | _ => None
  end.

(** [/%FS([LT])([AI]).*X(\d)(\d)/] at the head of [s]: the greedy [.*]
    stays on the line and leaves the last [X] with two digits. *)
Definition matchSimpleFS (s : string) : option FormatSpec :=
  if startsWith "%FS" s then
    match drop 3 s with
    | String z (String m r) =>
        if isOneOf "L" "T" z && isOneOf "A" "I" m then
          match findLast matchXdd
                  (fst (span (fun c => negb (isLineTerminator c)) r)) with
          | Some d4 => Some (mkFormatSpec z m d4)
          | None => None
          end
        else None
    | _ => None
    end
  else None.

(** [/X(\d)(\d)Y(\d)(\d)/] at the head of [s]: the second digit. *)
Definition matchXddYdd (s : string) : option ascii :=
  match s with
  | String cx (String d1 (String d2 (String cy (String d3 (String d4 _))))) =>
      if Ascii.eqb cx "X" && isDigit d1 && isDigit d2
         && Ascii.eqb cy "Y" && isDigit d3 && isDigit d4
      then Some d2 else None
  | _ => None
  end.

(** [/D(\d+)/] at the head of [s]: the digits. *)
Definition matchTool (s : string) : option string :=
  match s with
  | String c r =>
      if Ascii.eqb c "D" then
        let '(ds, _) := span isDigit r in
        if isEmpty ds then None else Some ds
      else None
  | EmptyString => None
  end.

Definition digitString (d : ascii) : string := String d EmptyString.

(** [Math.pow(10, parseInt(d))] *)
Definition powerOfTen (d : string) : number :=
  match parseInt d with
  | Some k => Math_pow 10 k
  | None => NaN
  end.

(** ** Interpreter state: the mutable locals of [convert] *)

Record State : Type := mkState {
  currentX : number;
  currentY : number;
  lastX : number;
  lastY : number;
  hasLastPoint : bool;
  isFirstMove : bool;
  currentTool : string;
  lastDCode : Z;
  isRegionMode : bool;
  divisor : number;
  pathDataArray : list string;
  minX : number;
  minY : number;
  maxX : number;
  maxY : number;
  hasAnyPoint : bool
}.

Definition initialState (divisor0 : number) : State :=
  {| currentX := Fin 0; currentY := Fin 0;
     lastX := Fin 0; lastY := Fin 0;
     hasLastPoint := false;
     isFirstMove := true;
     currentTool := "10";
     lastDCode := 2;
     isRegionMode := false;
     divisor := divisor0;
     pathDataArray := [];
     minX := Infinity; minY := Infinity;
     maxX := NegInfinity; maxY := NegInfinity;
     hasAnyPoint := false |}.

(** The field after [letter], decoded: the integer token over the divisor
    unless the token has a literal point; a delta in incremental mode once
    the first move is past. Returns the new value and [xMatchFound]. *)
Definition readCoordinate (letter : ascii) (block : string)
    (divisor : number) (isIncremental isFirstMove : bool) (current : number)
  : number * bool :=
  match afterFirst letter block with
  | Some rest =>
      match matchNumber rest with
      | Some m =>
          let val := parseFloat m in
          let finalVal := if includes "." m then val else div val divisor in
          (if isIncremental && negb isFirstMove
           then add current finalVal else finalVal, true)
      | None => (current, false)
      end
  | None => (current, false)
  end.

(** The thick track of a draw: the four corners, or a plain line. *)
Definition drawTrack (apertures : gmap string number) (tool : string)
    (lastX lastY currentX currentY : number) : list string :=
  let xF := toFixed 3 currentX in
  let yF := toFixed 3 currentY in
  let w := orDefault (apertures !! tool) (Fin (2 # 10)) in
  let dx := sub currentX lastX in
  let dy := sub currentY lastY in
  let len := Math_sqrt (add (mul dx dx) (mul dy dy)) in
  if greaterThan len (Fin (1 # 1000)) then
    let nx := mul (div (neg dy) len) (div w (Fin 2)) in
    let ny := mul (div dx len) (div w (Fin 2)) in
    let p1x := toFixed 3 (add lastX nx) in
    let p1y := toFixed 3 (add lastY ny) in
    let p2x := toFixed 3 (add currentX nx) in
    let p2y := toFixed 3 (add currentY ny) in
    let p3x := toFixed 3 (sub currentX nx) in
    let p3y := toFixed 3 (sub currentY ny) in
    let p4x := toFixed 3 (sub lastX nx) in
    let p4y := toFixed 3 (sub lastY ny) in
    if greaterThan (orDefault (apertures !! tool) (Fin 0)) (Fin 0) then
      [ "M" ++ p1x ++ " " ++ p1y ++ " L" ++ p2x ++ " " ++ p2y
        ++ " L" ++ p3x ++ " " ++ p3y ++ " L" ++ p4x ++ " " ++ p4y ++ " Z ";
        "M" ++ xF ++ " " ++ yF ++ " " ]
    else [ "L" ++ xF ++ " " ++ yF ++ " " ]
  else [ "L" ++ xF ++ " " ++ yF ++ " " ].

(** The pad of a flash: two half circles. *)
Definition flashPad (apertures : gmap string number) (tool : string)
    (currentX currentY : number) : string :=
  let yF := toFixed 3 currentY in
  let r := div (orDefault (apertures !! tool) (Fin (4 # 10))) (Fin 2) in
  let rF := toFixed 3 r in
  let xL := toFixed 3 (sub currentX r) in
  let xR := toFixed 3 (add currentX r) in
  "M" ++ xL ++ " " ++ yF ++ " A" ++ rF ++ " " ++ rF ++ " 0 1 0 " ++ xR
  ++ " " ++ yF ++ " A" ++ rF ++ " " ++ rF ++ " 0 1 0 " ++ xL ++ " " ++ yF
  ++ " Z ".

Definition isDrawCode (d : Z) : bool :=
  (d =? 1)%Z || (d =? 2)%Z || (d =? 3)%Z.

(** The branch on [effectiveOp] that emits path data: what a move (2),
    a draw (1) or a flash (3) at [(cX, cY)] pushes on [pathDataArray],
    and the values it leaves in [isFirstMove], [lastX], [lastY] and
    [hasLastPoint]. *)
Definition emitPath (apertures : gmap string number) (tool : string)
    (isFirstMove isRegionMode hasLastPoint : bool) (lastX lastY : number)
    (effectiveOp : Z) (cX cY : number)
  : list string * bool * number * number * bool :=
  let xF := toFixed 3 cX in
  let yF := toFixed 3 cY in
  if (effectiveOp =? 2)%Z then
    (["M" ++ xF ++ " " ++ yF ++ " "], false, cX, cY, true)
  else if (effectiveOp =? 1)%Z then
    if isFirstMove || isRegionMode || negb hasLastPoint then
      ([(if isFirstMove || negb hasLastPoint then "M" else "L")
        ++ xF ++ " " ++ yF ++ " "],
       false, cX, cY, true)
    else
      (drawTrack apertures tool lastX lastY cX cY,
       isFirstMove, cX, cY, true)
  else if (effectiveOp =? 3)%Z then
    ([flashPad apertures tool cX cY], true, lastX, lastY, hasLastPoint)
  else ([], isFirstMove, lastX, lastY, hasLastPoint).

(** [toolMatch && parseInt(toolMatch[1]) >= 10]: the tool a block
    selects, if any. *)
Definition selectedTool (upperBlock : string) : option string :=
  match findFirst matchTool upperBlock with
  | Some ds =>
      match parseInt ds with
      | Some n => if (10 <=? n)%Z then Some ds else None
      | None => None
      end
  | None => None
  end.

(** ** One iteration of the block loop *)

Definition processBlock (apertures : gmap string number)
    (isIncremental : bool) (st : State) (rawBlock : string) : State :=
  let block := trim rawBlock in
  if isEmpty block then st
  else
    let upperBlock := toUpperCase block in
    if startsWith "%" upperBlock then
      match findFirst matchXddYdd upperBlock with
      | Some d2 =>
          {| currentX := currentX st; currentY := currentY st;
             lastX := lastX st; lastY := lastY st;
             hasLastPoint := hasLastPoint st;
             isFirstMove := isFirstMove st;
             currentTool := currentTool st;
             lastDCode := lastDCode st;
             isRegionMode := isRegionMode st;
             divisor := powerOfTen (digitString d2);
             pathDataArray := pathDataArray st;
             minX := minX st; minY := minY st;
             maxX := maxX st; maxY := maxY st;
             hasAnyPoint := hasAnyPoint st |}
      | None => st
      end
    else
      if selectedTool upperBlock is Some tool then
        {| currentX := currentX st; currentY := currentY st;
           lastX := lastX st; lastY := lastY st;
           hasLastPoint := hasLastPoint st;
           isFirstMove := isFirstMove st;
           currentTool := tool;
           lastDCode := lastDCode st;
           isRegionMode := isRegionMode st;
           divisor := divisor st;
           pathDataArray := pathDataArray st;
           minX := minX st; minY := minY st;
           maxX := maxX st; maxY := maxY st;
           hasAnyPoint := hasAnyPoint st |}
      else
        (* G-codes affecting state *)
        let '(lastDCode1, dCode1) :=
          if includes "G00" block then (2%Z, Some 2%Z)
          else if includes "G01" block then (1%Z, None)
          else (lastDCode st, None) in
        let isRegionMode1 :=
          if includes "G36" block then true else isRegionMode st in
        let '(isRegionMode2, path2) :=
          if includes "G37" block
          then (false, push (pathDataArray st) "Z ")
          else (isRegionMode1, pathDataArray st) in
        (* coordinates *)
        let '(newX, xMatchFound) :=
          readCoordinate "X" block (divisor st) isIncremental
                         (isFirstMove st) (currentX st) in
        let '(newY, yMatchFound) :=
          readCoordinate "Y" block (divisor st) isIncremental
                         (isFirstMove st) (currentY st) in
        let found := xMatchFound || yMatchFound in
        let cX := if found then newX else currentX st in
        let cY := if found then newY else currentY st in
        let minX1 := if found then Math_min (minX st) cX else minX st in
        let minY1 := if found then Math_min (minY st) cY else minY st in
        let maxX1 := if found then Math_max (maxX st) cX else maxX st in
        let maxY1 := if found then Math_max (maxY st) cY else maxY st in
        let hasAnyPoint1 := if found then true else hasAnyPoint st in
        (* D-code at end *)
        let '(dCode2, lastDCode2) :=
          match afterFirst "D" block with
          | Some rest =>
              match parseInt rest with
              | Some dVal =>
                  if isDrawCode dVal then (Some dVal, dVal)
                  else (dCode1, lastDCode1)
              | None => (dCode1, lastDCode1)
              end
          | None => (dCode1, lastDCode1)
          end in
        let effectiveOp := default lastDCode2 dCode2 in
        (* emit path data *)
        let emits := found || (if dCode2 is Some _ then true else false) in
        let '(pushed, isFirstMove3, lastX3, lastY3, hasLastPoint3) :=
          if emits then
            emitPath apertures (currentTool st) (isFirstMove st)
                     isRegionMode2 (hasLastPoint st) (lastX st) (lastY st)
                     effectiveOp cX cY
          else ([], isFirstMove st, lastX st, lastY st, hasLastPoint st) in
        let path3 := pushAll path2 pushed in
        {| currentX := cX; currentY := cY;
           lastX := lastX3; lastY := lastY3;
           hasLastPoint := hasLastPoint3;
           isFirstMove := isFirstMove3;
           currentTool := currentTool st;
           lastDCode := lastDCode2;
           isRegionMode := isRegionMode2;
           divisor := divisor st;
           pathDataArray := path3;
           minX := minX1; minY := minY1;
           maxX := maxX1; maxY := maxY1;
           hasAnyPoint := hasAnyPoint1 |}.

(** ** [convert] *)

(** The format specification found in the text, [None] when neither
    pattern matches. *)
Definition findFormatSpec (gerberText : string) : option FormatSpec :=
  match findFirst matchFS gerberText with
  | Some fs => Some fs
  | None => findFirst matchSimpleFS gerberText
  end.

(** [decimalPlaces]: the declared digit, 6 by default. *)
Definition decimalPlaces (gerberText : string) : option Z :=
  match findFormatSpec gerberText with
  | Some fs => parseInt (digitString (fsDecimalDigit fs))
  | None => Some 6%Z
  end.

Definition coordinateMode (gerberText : string) : ascii :=
  match findFormatSpec gerberText with
  | Some fs => fsCoordinateMode fs
  | None => "A"%char
  end.

Definition isIncrementalText (gerberText : string) : bool :=
  Ascii.eqb (coordinateMode gerberText) "I" || includes "G91" gerberText.

Definition initialDivisor (gerberText : string) : number :=
  match decimalPlaces gerberText with
  | Some k => Math_pow 10 k
  | None => NaN
  end.

(** The block loop over the text split at the terminator [*].  The source
    first rewrites every [*] to a two-character marker outside ASCII and
    splits at the marker; on ASCII text that is the split at [*].  The
    values [maxAperture], [zeroSuppression] and the integer digit of the
    format are computed by the source and never read: they are left out. *)
Definition runBlocks (gerberText : string) : State :=
  fold_left (processBlock (parseApertures gerberText)
                          (isIncrementalText gerberText))
            (split "*" gerberText)
            (initialState (initialDivisor gerberText)).

Definition boundsOf (st : State) : Bounds :=
  if hasAnyPoint st then
    {| x := minX st; y := minY st;
       width := sub (maxX st) (minX st);
       height := sub (maxY st) (minY st) |}
  else zeroBounds.

Definition convert (gerberText : string) : string * Bounds :=
  if isEmpty gerberText then (EmptyString, zeroBounds)
  else
    let st := runBlocks gerberText in
    (trim (join "" (pathDataArray st)), boundsOf st).

(** ** [calculatePathBounds] and [getBounds] *)

Record Extent : Type := mkExtent {
  eMinX : number; eMinY : number; eMaxX : number; eMaxY : number;
  eHasAny : bool
}.

Definition emptyExtent : Extent :=
  mkExtent Infinity Infinity NegInfinity NegInfinity false.

(** The loop of [calculatePathBounds] over the matches, two at a time;
    a last unpaired match is left out. *)
Fixpoint pairLoop (matches : list string) (e : Extent) : Extent :=
  match matches with
  | mx :: my :: rest =>
      let px := parseFloat mx in
      let py := parseFloat my in
      pairLoop rest
        (if negb (isNaN px) && negb (isNaN py) then
           mkExtent (Math_min (eMinX e) px) (Math_min (eMinY e) py)
                    (Math_max (eMaxX e) px) (Math_max (eMaxY e) py) true
         else e)
  | _ => e
  end.

Definition calculatePathBounds (content : string) : Bounds :=
  let e := pairLoop (matchAllNumbers content) emptyExtent in
  if negb (eHasAny e) then zeroBounds
  else {| x := eMinX e; y := eMinY e;
          width := sub (eMaxX e) (eMinX e);
          height := sub (eMaxY e) (eMinY e) |}.

Record Layer : Type := mkLayer {
  content : string;
  bounds : option Bounds
}.

Definition extend (e : Extent) (b : Bounds) : Extent :=
  mkExtent (Math_min (eMinX e) (x b)) (Math_min (eMinY e) (y b))
           (Math_max (eMaxX e) (add (x b) (width b)))
           (Math_max (eMaxY e) (add (y b) (height b)))
           true.

(** The body of [layers.forEach] in [getBounds]. *)
Definition addLayer (e : Extent) (layer : Layer) : Extent :=
  let usable :=
    match bounds layer with
    | Some b => greaterThan (width b) (Fin 0)
    | None => false
    end in
  if usable then extend e (default zeroBounds (bounds layer))
  else if isEmpty (content layer) then e
  else
    let b := calculatePathBounds (content layer) in
    if greaterThan (width b) (Fin 0) || greaterThan (height b) (Fin 0) then extend e b
    else e.

Definition defaultBounds : Bounds :=
  mkBounds (Fin 0) (Fin 0) (Fin 100) (Fin 100).

Definition getBounds (layers : list Layer) : Bounds :=
  let e := fold_left addLayer layers emptyExtent in
  if negb (eHasAny e) || strictEq (eMinX e) Infinity then defaultBounds
  else {| x := eMinX e; y := eMinY e;
          width := Math_max (Fin (1 # 10)) (sub (eMaxX e) (eMinX e));
          height := Math_max (Fin (1 # 10)) (sub (eMaxY e) (eMinY e)) |}.

End GerberToPath.

(* ================================================================== *)
(** * VectorProcessor (vectorProcessor.ts)                             *)
(* ================================================================== *)

(** A computation that may throw. *)
Inductive result (A : Type) : Type :=
  | Ok (a : A)
  | Throw.
Arguments Ok {A} a.
Arguments Throw {A}.

Definition bind {A B : Type} (r : result A) (k : A -> result B) : result B :=
  match r with
  | Ok a => k a
  | Throw => Throw
  end.

Notation "'let*' x ':=' r 'in' k" := (bind r (fun x => k))
  (at level 10, x name, r at level 100, k at level 200).

(** [try { body } catch { handler }] *)
Definition tryCatch {A : Type} (body : result A) (handler : A) : A :=
  match body with
  | Ok a => a
  | Throw => handler
  end.

(** The double quote character. *)
Definition quote : string := String "034"%char EmptyString.

Module VectorProcessor.

(** ** The geometry kernel (paper.js), as the calls [invert] makes

    Each call inside the [try] block either returns or throws.  The
    set-up of the scope, which [invert] does before the [try] block, is
    taken to return. *)

Section Invert.

Variable Item : Type.
Variable PathItem : Type.

(** [scope.project.importSVG(svg)]: an item, [null], or an exception. *)
Variable importSVG : string -> result (option Item).

(** [imported.getItems({match})]: the paths, compound paths and shapes
    below the imported item. *)
Variable getItems : Item -> result (list Item).

(** The item itself when it is a [PathItem], else [item.toPath()] when
    the item has that method, else [null]; with [traces.addChild] of the
    result, which sits in the same [try] block. *)
Variable toPathItem : Item -> result (option PathItem).

(** [new Path.Rectangle(point, size).subtract(traces)] for the rectangle
    with corner [(x, y)] and size [(width, height)]. *)
Variable subtract : Bounds -> list PathItem -> result PathItem.

(** [clearance.simplify(tolerance)] *)
Variable simplify : number -> PathItem -> result PathItem.

(** [clearance.exportSVG({asString: true})] *)
Variable exportSVG : PathItem -> result string.

(** The pattern of [svg.match] at the head of [s]: the letter d, an
    equals sign, a quote, a non-empty run without quotes (the group) and
    a closing quote. *)
Definition matchD (s : string) : option string :=
  if startsWith ("d=" ++ quote) s then
    let '(g, r) := span (fun c => negb (Ascii.eqb c "034")) (drop 3 s) in
    if isEmpty g then None
    else if startsWith quote r then Some g else None
  else None.

Definition svgOpen : string :=
  "<svg xmlns=" ++ quote ++ "http://www.w3.org/2000/svg" ++ quote ++ ">".

(** The SVG document handed to the kernel. *)
Definition svgContentOf (tracePathData : string) : string :=
  if startsWith "<" (trim tracePathData) then
    let sanitized :=
      replaceAll ("stroke=" ++ quote ++ "currentColor" ++ quote)
                 ("stroke=" ++ quote ++ "#000000" ++ quote)
        (replaceAll ("fill=" ++ quote ++ "currentColor" ++ quote)
                    ("fill=" ++ quote ++ "#000000" ++ quote)
                    tracePathData) in
    svgOpen ++ sanitized ++ "</svg>"
  else
    svgOpen ++ "<path d=" ++ quote ++ tracePathData ++ quote
    ++ " stroke=" ++ quote ++ "black" ++ quote
    ++ " stroke-width=" ++ quote ++ "0.1" ++ quote
    ++ " fill=" ++ quote ++ "black" ++ quote ++ "/></svg>".

(** The loop collecting the children of [traces]. *)
Fixpoint collectTraces (items : list Item) (traces : list PathItem)
    (hasAnyContent : bool) : result (list PathItem * bool) :=
  match items with
  | [] => Ok (traces, hasAnyContent)
  | item :: rest =>
      let* pathItem := toPathItem item in
      match pathItem with
      | Some p => collectTraces rest (push traces p) true
      | None => collectTraces rest traces hasAnyContent
      end
  end.

Definition boardRectangle (bounds : Bounds) (padding : number) : Bounds :=
  {| x := sub (x bounds) padding;
     y := sub (y bounds) padding;
     width := add (width bounds) (mul padding (Fin 2));
     height := add (height bounds) (mul padding (Fin 2)) |}.

(** The body of the [try] block. *)
Definition invertBody (tracePathData : string) (bounds : Bounds)
    (padding : number) : result string :=
  let* imported := importSVG (svgContentOf tracePathData) in
  match imported with
  | None => Throw
  | Some item =>
      let* allGeometricItems := getItems item in
      let* collected := collectTraces allGeometricItems [] false in
      let '(traces, hasAnyContent) := collected in
      if negb hasAnyContent then Ok tracePathData
      else
        let* clearance := subtract (boardRectangle bounds padding) traces in
        let* simplified := simplify (Fin (1 # 1000)) clearance in
        let* svg := exportSVG simplified in
        Ok (default EmptyString (findFirst matchD svg))
  end.

Definition invert (tracePathData : string) (bounds : Bounds)
    (padding : number) : string :=
  if isEmpty (trim tracePathData) then EmptyString
  else tryCatch (invertBody tracePathData bounds padding) tracePathData.

(** The ways the kernel can fail on an input, call by call: the import
    throws or returns [null] (unparsable input), a later call throws, or
    the import holds no geometry. *)
Inductive KernelFailure (tracePathData : string) (bounds : Bounds)
    (padding : number) : Prop :=
  | ImportThrows :
      importSVG (svgContentOf tracePathData) = Throw ->
      KernelFailure tracePathData bounds padding
  | ImportNull :
      importSVG (svgContentOf tracePathData) = Ok None ->
      KernelFailure tracePathData bounds padding
  | GetItemsThrows (item : Item) :
      importSVG (svgContentOf tracePathData) = Ok (Some item) ->
      getItems item = Throw ->
      KernelFailure tracePathData bounds padding
  | ToPathThrows (item : Item) (items : list Item) :
      importSVG (svgContentOf tracePathData) = Ok (Some item) ->
      getItems item = Ok items ->
      collectTraces items [] false = Throw ->
      KernelFailure tracePathData bounds padding
  | NoGeometry (item : Item) (items : list Item) (traces : list PathItem) :
      importSVG (svgContentOf tracePathData) = Ok (Some item) ->
      getItems item = Ok items ->
      collectTraces items [] false = Ok (traces, false) ->
      KernelFailure tracePathData bounds padding
  | SubtractThrows (item : Item) (items : list Item)
      (traces : list PathItem) :
      importSVG (svgContentOf tracePathData) = Ok (Some item) ->
      getItems item = Ok items ->
      collectTraces items [] false = Ok (traces, true) ->
      subtract (boardRectangle bounds padding) traces = Throw ->
      KernelFailure tracePathData bounds padding
  | SimplifyThrows (item : Item) (items : list Item)
      (traces : list PathItem) (clearance : PathItem) :
      importSVG (svgContentOf tracePathData) = Ok (Some item) ->
      getItems item = Ok items ->
      collectTraces items [] false = Ok (traces, true) ->
      subtract (boardRectangle bounds padding) traces = Ok clearance ->
      simplify (Fin (1 # 1000)) clearance = Throw ->
      KernelFailure tracePathData bounds padding
  | ExportThrows (item : Item) (items : list Item)
      (traces : list PathItem) (clearance simplified : PathItem) :
      importSVG (svgContentOf tracePathData) = Ok (Some item) ->
      getItems item = Ok items ->
      collectTraces items [] false = Ok (traces, true) ->
      subtract (boardRectangle bounds padding) traces = Ok clearance ->
      simplify (Fin (1 # 1000)) clearance = Ok simplified ->
      exportSVG simplified = Throw ->
      KernelFailure tracePathData bounds padding.

End Invert.

(** A kernel that imports nothing: every import returns [null]. *)
Definition nullImport : string -> result (option unit) := fun _ => Ok None.
Definition noItems : unit -> result (list unit) := fun _ => Ok [].
Definition noPath : unit -> result (option unit) := fun _ => Ok None.
Definition noSubtract : Bounds -> list unit -> result unit := fun _ _ => Throw.
Definition noSimplify : number -> unit -> result unit := fun _ _ => Throw.
Definition noExport : unit -> result string := fun _ => Throw.

Definition invertWithNullKernel : string -> Bounds -> number -> string :=
  invert unit unit nullImport noItems noPath noSubtract noSimplify noExport.

(** ** [mirror] *)

(** [/[a-df-z]/i]: a letter other than [e], which is left to exponents. *)
Definition isCommandLetter (c : ascii) : bool :=
  (isLower c || isUpper c)
  && negb (Ascii.eqb c "e") && negb (Ascii.eqb c "E").

(** The successive matches of the tokenizer of [mirror], a command
    letter followed by the longest run without one: each command letter
    with the text up to the next one. *)
Fixpoint segments (s : string) : list (ascii * string) :=
  match s with
  | EmptyString => []
  | String c r =>
      if isCommandLetter c
      then (c, fst (span (fun a => negb (isCommandLetter a)) r)) :: segments r
      else segments r
  end.

Definition isSeparator (c : ascii) : bool :=
  isWhiteSpace c || Ascii.eqb c ",".

(** [s.split(/[\s,]+/)] *)
Fixpoint splitSeparators_aux (inSeparator : bool) (s : string) : list string :=
  match s with
  | EmptyString => [EmptyString]
  | String c r =>
      if isSeparator c then
        if inSeparator then splitSeparators_aux true r
        else EmptyString :: splitSeparators_aux true r
      else
        match splitSeparators_aux false r with
        | w :: ws => String c w :: ws
        | [] => [String c EmptyString]
        end
  end.

Definition splitSeparators (s : string) : list string :=
  splitSeparators_aux false s.

Definition mirrorX (centerX num : number) : string :=
  toFixed 3 (add centerX (sub centerX num)).

(** The callback of [nums.map]. *)
Definition mirrorOperand (isArc : bool) (centerX : number)
    (idx : nat) (val : string) : string :=
  let num := parseFloat val in
  if isNaN num then val
  else if isArc then
    if (idx =? 4)%nat then (if strictEq num (Fin 0) then "1" else "0")
    else if (idx =? 5)%nat then mirrorX centerX num
    else val
  else
    if Nat.even idx then mirrorX centerX num else val.

(** What one match of the loop appends to [result]. *)
Definition mirrorSegment (centerX : number) (seg : ascii * string) : string :=
  let '(command, coordsStr) := seg in
  if isEmpty (trim coordsStr) then String command EmptyString
  else
    let nums := splitSeparators (trim coordsStr) in
    let isArc := Ascii.eqb (toUpperChar command) "A" in
    String command (join " " (imap (mirrorOperand isArc centerX) nums)).

Definition mirror (dPath : string) (bounds : option Bounds) : string :=
  if isEmpty dPath then EmptyString
  else
    match bounds with
    | None => dPath
    | Some b =>
        if lessEq (width b) (Fin 0) then dPath
        else
          let centerX := add (x b) (div (width b) (Fin 2)) in
          join "" (map (mirrorSegment centerX) (segments dPath))
    end.

End VectorProcessor.

(* ================================================================== *)
(** * renderGerberWithCustomParser                                     *)
(* ================================================================== *)

Module CustomParser.

(** ** The command list of the external parser, as the renderer reads it *)

Inductive Mode : Type := ModeI | ModeCW | ModeCCW.

Record Tool : Type := mkTool {
  shape : string;
  params : list number
}.

(** A field of a macro block: a number or a function of the modifiers
    that may throw. *)
Inductive MacroValue : Type :=
  | MConst (n : number)
  | MFun (f : gmap string number -> result number).

(** A macro block is a loosely typed record: every field but [type] may
    be absent. *)
Record MacroBlock : Type := mkMacroBlock {
  btype : string;
  dia : option MacroValue;
  diameter : option MacroValue;
  bx : option MacroValue;
  cx : option MacroValue;
  by_ : option MacroValue;
  cy : option MacroValue;
  bwidth : option MacroValue;
  bheight : option MacroValue;
  x1 : option MacroValue;
  y1 : option MacroValue;
  x2 : option MacroValue;
  y2 : option MacroValue;
  points : option (list MacroValue)
}.

Record Coord : Type := mkCoord {
  coordX : option number;
  coordY : option number;
  coordI : option number;
  coordJ : option number
}.

Inductive Op : Type := OpMove | OpInt | OpFlash | OpOther.

Inductive Command : Type :=
  | ToolCmd (code : string) (tool : Tool)
  | MacroCmd (name : string) (blocks : list MacroBlock)
  | SetUnits (value : string)
  | SetRegion (value : bool)
  | SetTool (value : string)
  | SetMode (value : Mode)
  | SetOther
  | OpCmd (op : Op) (coord : Coord)
  | OtherCmd.

(** ** Renderer state: the mutable locals of the function *)

Record State : Type := mkState {
  svgContent : string;
  currentX : number;
  currentY : number;
  currentTool : option string;
  tools : gmap string Tool;
  macros : gmap string (list MacroBlock);
  isRegion : bool;
  regionPath : list string;
  interpolationMode : Mode;
  unitScale : number;
  minX : number;
  minY : number;
  maxX : number;
  maxY : number
}.

Definition initialState : State :=
  {| svgContent := ""; currentX := Fin 0; currentY := Fin 0;
     currentTool := None; tools := ∅; macros := ∅;
     isRegion := false; regionPath := [];
     interpolationMode := ModeI; unitScale := Fin 1;
     minX := Infinity; minY := Infinity;
     maxX := NegInfinity; maxY := NegInfinity |}.

Definition updateBounds (px py : number) (st : State) : State :=
  {| svgContent := svgContent st;
     currentX := currentX st; currentY := currentY st;
     currentTool := currentTool st; tools := tools st; macros := macros st;
     isRegion := isRegion st; regionPath := regionPath st;
     interpolationMode := interpolationMode st; unitScale := unitScale st;
     minX := if lessThan px (minX st) then px else minX st;
     minY := if lessThan py (minY st) then py else minY st;
     maxX := if greaterThan px (maxX st) then px else maxX st;
     maxY := if greaterThan py (maxY st) then py else maxY st |}.

(** [svgContent += s] *)
Definition emit (s : string) (st : State) : State :=
  {| svgContent := svgContent st ++ s;
     currentX := currentX st; currentY := currentY st;
     currentTool := currentTool st; tools := tools st; macros := macros st;
     isRegion := isRegion st; regionPath := regionPath st;
     interpolationMode := interpolationMode st; unitScale := unitScale st;
     minX := minX st; minY := minY st; maxX := maxX st; maxY := maxY st |}.

Definition moveTo (px py : number) (st : State) : State :=
  {| svgContent := svgContent st;
     currentX := px; currentY := py;
     currentTool := currentTool st; tools := tools st; macros := macros st;
     isRegion := isRegion st; regionPath := regionPath st;
     interpolationMode := interpolationMode st; unitScale := unitScale st;
     minX := minX st; minY := minY st; maxX := maxX st; maxY := maxY st |}.

Definition setRegionPath (p : list string) (st : State) : State :=
  {| svgContent := svgContent st;
     currentX := currentX st; currentY := currentY st;
     currentTool := currentTool st; tools := tools st; macros := macros st;
     isRegion := isRegion st; regionPath := p;
     interpolationMode := interpolationMode st; unitScale := unitScale st;
     minX := minX st; minY := minY st; maxX := maxX st; maxY := maxY st |}.

Definition toMM (st : State) (n : number) : number := mul n (unitScale st).
Definition fmt (st : State) (n : number) : string := toFixed 4 (toMM st n).

(** [name="value"] *)
Definition attr (name value : string) : string :=
  name ++ "=" ++ quote ++ value ++ quote.

Section Render.

(** [Math.atan2] and [Math.PI] of the host. *)
Variable Math_atan2 : number -> number -> number.
Variable Math_PI : number.

Definition getArcPath (st : State) (startX startY endX endY i j : number)
    (mode : Mode) : string :=
  let cx := add startX i in
  let cy := add startY j in
  let r := Math_sqrt (add (mul i i) (mul j j)) in
  let startAngle := Math_atan2 (sub startY cy) (sub startX cx) in
  let endAngle := Math_atan2 (sub endY cy) (sub endX cx) in
  let diff0 := sub endAngle startAngle in
  let diff :=
    match mode with
    | ModeCW =>
        if greaterThan diff0 (Fin 0) then sub diff0 (mul (Fin 2) Math_PI) else diff0
    | _ =>
        if lessThan diff0 (Fin 0) then add diff0 (mul (Fin 2) Math_PI) else diff0
    end in
  let largeArc := if greaterThan (Math_abs diff) Math_PI then "1" else "0" in
  let sweepFlag := match mode with ModeCW => "0" | _ => "1" end in
  "A " ++ fmt st r ++ " " ++ fmt st r ++ " 0 " ++ largeArc ++ " "
  ++ sweepFlag ++ " " ++ fmt st endX ++ " " ++ fmt st endY.

(** ** Macro rendering *)

(** [a || b] on two optional fields. *)
Definition orField (a b : option MacroValue) : option MacroValue :=
  match a with
  | Some (MFun _) => a
  | Some (MConst n) => if truthy n then a else b
  | None => b
  end.

(** [evaluate(val, mods)]; an absent field stays [undefined], which is
    [NaN] in every numeric use the renderer makes of it. *)
Definition evaluate (val : option MacroValue) (mods : gmap string number)
  : number :=
  match val with
  | Some (MFun f) => tryCatch (f mods) (Fin 0)
  | Some (MConst n) => n
  | None => NaN
  end.

(** [mods[`$${i + 1}`] = p] for every parameter. *)
Definition buildMods (params : list number) : gmap string number :=
  fold_left (fun m ip => <["$" ++ digitsOf (N.of_nat (S (fst ip))) := snd ip]> m)
            (imap (fun i p => (i, p)) params) ∅.

(** The loop over the points of an outline, two at a time. *)
Fixpoint outlinePoints (mods : gmap string number) (startX startY : number)
    (pts : list MacroValue) (acc : list string) (st : State)
  : list string * State :=
  match pts with
  | [] => (acc, st)
  | vx :: rest =>
      let px := evaluate (Some vx) mods in
      let py := evaluate (head rest) mods in
      let '(acc', st') :=
        if negb (isNaN px) && negb (isNaN py) then
          let absX := add startX px in
          let absY := add startY py in
          (push acc (fmt st absX ++ "," ++ fmt st absY),
           updateBounds (toMM st absX) (toMM st absY) st)
        else (acc, st) in
      match rest with
      | [] => (acc', st')
      | _ :: rest' => outlinePoints mods startX startY rest' acc' st'
      end
  end.

Definition renderBlock (mods : gmap string number) (startX startY : number)
    (block : MacroBlock) (st : State) : State :=
  if String.eqb (btype block) "circle" then
    let d := evaluate (orField (dia block) (diameter block)) mods in
    let px := evaluate (orField (bx block) (cx block)) mods in
    let py := evaluate (orField (by_ block) (cy block)) mods in
    if negb (isNaN d) then
      let r := div d (Fin 2) in
      let cx := add startX px in
      let cy := add startY py in
      let st1 :=
        emit ("<circle " ++ attr "cx" (fmt st cx) ++ " "
              ++ attr "cy" (fmt st cy) ++ " " ++ attr "r" (fmt st r) ++ " "
              ++ attr "fill" "currentColor" ++ " />") st in
      let r_mm := toMM st r in
      let cx_mm := toMM st cx in
      let cy_mm := toMM st cy in
      updateBounds (add cx_mm r_mm) (add cy_mm r_mm)
        (updateBounds (sub cx_mm r_mm) (sub cy_mm r_mm) st1)
    else st
  else if String.eqb (btype block) "vect" then
    let w := evaluate (bwidth block) mods in
    let absX1 := add startX (evaluate (x1 block) mods) in
    let absY1 := add startY (evaluate (y1 block) mods) in
    let absX2 := add startX (evaluate (x2 block) mods) in
    let absY2 := add startY (evaluate (y2 block) mods) in
    let st1 :=
      emit ("<line " ++ attr "x1" (fmt st absX1) ++ " "
            ++ attr "y1" (fmt st absY1) ++ " " ++ attr "x2" (fmt st absX2)
            ++ " " ++ attr "y2" (fmt st absY2) ++ " "
            ++ attr "stroke" "currentColor" ++ " "
            ++ attr "stroke-width" (fmt st w) ++ " "
            ++ attr "stroke-linecap" "round" ++ " />") st in
    updateBounds (toMM st absX2) (toMM st absY2)
      (updateBounds (toMM st absX1) (toMM st absY1) st1)
  else if String.eqb (btype block) "outline" then
    match points block with
    | Some ps =>
        let '(pts, st1) := outlinePoints mods startX startY ps [] st in
        match pts with
        | [] => st1
        | _ => emit ("<polygon " ++ attr "points" (join " " pts) ++ " "
                     ++ attr "fill" "currentColor" ++ " />") st1
        end
    | None => st
    end
  else if String.eqb (btype block) "center-line"
          || String.eqb (btype block) "rect" then
    let w := evaluate (bwidth block) mods in
    let h := evaluate (bheight block) mods in
    let px := evaluate (orField (bx block) (cx block)) mods in
    let py := evaluate (orField (by_ block) (cy block)) mods in
    let absX := add startX px in
    let absY := add startY py in
    let st1 :=
      emit ("<rect " ++ attr "x" (fmt st (sub absX (div w (Fin 2)))) ++ " "
            ++ attr "y" (fmt st (sub absY (div h (Fin 2)))) ++ " "
            ++ attr "width" (fmt st w) ++ " " ++ attr "height" (fmt st h)
            ++ " " ++ attr "fill" "currentColor" ++ " />") st in
    let w_mm := toMM st w in
    let h_mm := toMM st h in
    let cx_mm := toMM st absX in
    let cy_mm := toMM st absY in
    updateBounds (add cx_mm (div w_mm (Fin 2))) (add cy_mm (div h_mm (Fin 2)))
      (updateBounds (sub cx_mm (div w_mm (Fin 2)))
                    (sub cy_mm (div h_mm (Fin 2))) st1)
  else st.

Definition renderMacro (macroName : string) (params : list number)
    (startX startY : number) (st : State) : State :=
  match macros st !! macroName with
  | None => st
  | Some blocks =>
      fold_left (fun s b => renderBlock (buildMods params) startX startY b s)
                blocks st
  end.

(** ** The command loop *)

(** [currentTool ? tools[currentTool] : null] *)
Definition toolObjOf (st : State) : option Tool :=
  match currentTool st with
  | Some t => if isEmpty t then None else tools st !! t
  | None => None
  end.

(** [params[k]], [undefined] (here [NaN]) past the end. *)
Definition param (t : Tool) (k : nat) : number := nth k (params t) NaN.

(** The stroke width of an interpolation outside a region. *)
Definition strokeWidth (st : State) : number :=
  match toolObjOf st with
  | Some t =>
      if String.eqb (shape t) "circle" then param t 0
      else if String.eqb (shape t) "rect" then param t 0
      else Fin (1 # 10)
  | None => Fin (1 # 10)
  end.

Definition interpolate (px py i j : number) (st : State) : State :=
  if isRegion st then
    match interpolationMode st with
    | ModeI =>
        setRegionPath
          (push (regionPath st) ("L " ++ fmt st px ++ " " ++ fmt st py)) st
    | mode =>
        setRegionPath
          (push (regionPath st)
                (getArcPath st (currentX st) (currentY st) px py i j mode)) st
    end
  else
    let w := strokeWidth st in
    match interpolationMode st with
    | ModeI =>
        emit ("<line " ++ attr "x1" (fmt st (currentX st)) ++ " "
              ++ attr "y1" (fmt st (currentY st)) ++ " "
              ++ attr "x2" (fmt st px) ++ " " ++ attr "y2" (fmt st py) ++ " "
              ++ attr "stroke" "currentColor" ++ " "
              ++ attr "stroke-width" (fmt st w) ++ " "
              ++ attr "stroke-linecap" "round" ++ " />") st
    | mode =>
        emit ("<path "
              ++ attr "d" ("M " ++ fmt st (currentX st) ++ " "
                           ++ fmt st (currentY st) ++ " "
                           ++ getArcPath st (currentX st) (currentY st)
                                         px py i j mode)
              ++ " " ++ attr "stroke" "currentColor" ++ " "
              ++ attr "stroke-width" (fmt st w) ++ " "
              ++ attr "fill" "none" ++ " "
              ++ attr "stroke-linecap" "round" ++ " />") st
    end.

(** A flash; [None] is the [continue] of an unknown tool. *)
Definition flash (px py : number) (st : State) : option State :=
  match toolObjOf st with
  | None => None
  | Some toolObj =>
      Some
        (if macros st !! shape toolObj is Some _ then
           renderMacro (shape toolObj) (params toolObj) px py st
         else if String.eqb (shape toolObj) "circle" then
           let r := div (param toolObj 0) (Fin 2) in
           let st1 :=
             emit ("<circle " ++ attr "cx" (fmt st px) ++ " "
                   ++ attr "cy" (fmt st py) ++ " " ++ attr "r" (fmt st r)
                   ++ " " ++ attr "fill" "currentColor" ++ " />") st in
           let x_mm := toMM st px in
           let y_mm := toMM st py in
           let r_mm := toMM st r in
           updateBounds (add x_mm r_mm) (add y_mm r_mm)
             (updateBounds (sub x_mm r_mm) (sub y_mm r_mm) st1)
         else if String.eqb (shape toolObj) "rect" then
           let w := param toolObj 0 in
           let h := param toolObj 1 in
           let st1 :=
             emit ("<rect " ++ attr "x" (fmt st (sub px (div w (Fin 2))))
                   ++ " " ++ attr "y" (fmt st (sub py (div h (Fin 2))))
                   ++ " " ++ attr "width" (fmt st w) ++ " "
                   ++ attr "height" (fmt st h) ++ " "
                   ++ attr "fill" "currentColor" ++ " />") st in
           let x_mm := toMM st px in
           let y_mm := toMM st py in
           let w_mm := toMM st w in
           let h_mm := toMM st h in
           updateBounds (add x_mm (div w_mm (Fin 2)))
                        (add y_mm (div h_mm (Fin 2)))
             (updateBounds (sub x_mm (div w_mm (Fin 2)))
                           (sub y_mm (div h_mm (Fin 2))) st1)
         else if String.eqb (shape toolObj) "obround" then
           let w := param toolObj 0 in
           let h := param toolObj 1 in
           emit ("<rect " ++ attr "x" (fmt st (sub px (div w (Fin 2))))
                 ++ " " ++ attr "y" (fmt st (sub py (div h (Fin 2))))
                 ++ " " ++ attr "width" (fmt st w) ++ " "
                 ++ attr "height" (fmt st h) ++ " "
                 ++ attr "rx" (fmt st (div (Math_min w h) (Fin 2))) ++ " "
                 ++ attr "fill" "currentColor" ++ " />") st
         else st)
  end.

Definition step (st : State) (cmd : Command) : State :=
  match cmd with
  | ToolCmd code tool =>
      {| svgContent := svgContent st;
         currentX := currentX st; currentY := currentY st;
         currentTool := currentTool st;
         tools := <[code := tool]> (tools st); macros := macros st;
         isRegion := isRegion st; regionPath := regionPath st;
         interpolationMode := interpolationMode st;
         unitScale := unitScale st;
         minX := minX st; minY := minY st; maxX := maxX st; maxY := maxY st |}
  | MacroCmd name blocks =>
      {| svgContent := svgContent st;
         currentX := currentX st; currentY := currentY st;
         currentTool := currentTool st;
         tools := tools st; macros := <[name := blocks]> (macros st);
         isRegion := isRegion st; regionPath := regionPath st;
         interpolationMode := interpolationMode st;
         unitScale := unitScale st;
         minX := minX st; minY := minY st; maxX := maxX st; maxY := maxY st |}
  | SetUnits value =>
      {| svgContent := svgContent st;
         currentX := currentX st; currentY := currentY st;
         currentTool := currentTool st;
         tools := tools st; macros := macros st;
         isRegion := isRegion st; regionPath := regionPath st;
         interpolationMode := interpolationMode st;
         unitScale := if String.eqb value "in" then Fin (254 # 10) else Fin 1;
         minX := minX st; minY := minY st; maxX := maxX st; maxY := maxY st |}
  | SetRegion value =>
      let st1 :=
        if value then
          setRegionPath
            ["M " ++ fmt st (currentX st) ++ " " ++ fmt st (currentY st)] st
        else
          setRegionPath []
            (match regionPath st with
             | [] => st
             | _ =>
                 emit ("<path "
                       ++ attr "d" (join " " (push (regionPath st) "Z"))
                       ++ " " ++ attr "fill" "currentColor" ++ " "
                       ++ attr "stroke" "none" ++ " "
                       ++ attr "fill-rule" "evenodd" ++ " />") st
             end) in
      {| svgContent := svgContent st1;
         currentX := currentX st1; currentY := currentY st1;
         currentTool := currentTool st1;
         tools := tools st1; macros := macros st1;
         isRegion := value; regionPath := regionPath st1;
         interpolationMode := interpolationMode st1;
         unitScale := unitScale st1;
         minX := minX st1; minY := minY st1;
         maxX := maxX st1; maxY := maxY st1 |}
  | SetTool value =>
      {| svgContent := svgContent st;
         currentX := currentX st; currentY := currentY st;
         currentTool := Some value;
         tools := tools st; macros := macros st;
         isRegion := isRegion st; regionPath := regionPath st;
         interpolationMode := interpolationMode st;
         unitScale := unitScale st;
         minX := minX st; minY := minY st; maxX := maxX st; maxY := maxY st |}
  | SetMode value =>
      {| svgContent := svgContent st;
         currentX := currentX st; currentY := currentY st;
         currentTool := currentTool st;
         tools := tools st; macros := macros st;
         isRegion := isRegion st; regionPath := regionPath st;
         interpolationMode := value;
         unitScale := unitScale st;
         minX := minX st; minY := minY st; maxX := maxX st; maxY := maxY st |}
  | SetOther => st
  | OpCmd op coord =>
      let px := default (currentX st) (coordX coord) in
      let py := default (currentY st) (coordY coord) in
      let st1 := updateBounds (toMM st px) (toMM st py) st in
      match op with
      | OpMove =>
          moveTo px py
            (if isRegion st1
             then setRegionPath
                    (push (regionPath st1)
                          ("M " ++ fmt st1 px ++ " " ++ fmt st1 py)) st1
             else st1)
      | OpInt =>
          let i := orDefault (coordI coord) (Fin 0) in
          let j := orDefault (coordJ coord) (Fin 0) in
          moveTo px py (interpolate px py i j st1)
      | OpFlash =>
          match flash px py st1 with
          | Some st2 => moveTo px py st2
          | None => st1
          end
      | OpOther => st1
      end
  | OtherCmd => st
  end.

Definition finalBounds (st : State) : Bounds :=
  if strictEq (minX st) Infinity then zeroBounds
  else {| x := minX st; y := minY st;
          width := sub (maxX st) (minX st);
          height := sub (maxY st) (minY st) |}.

(** The renderer on the command list the external parser returned. *)
Definition renderGerberWithCustomParser (commands : list Command)
  : string * Bounds :=
  let st := fold_left step commands initialState in
  ("<g>" ++ svgContent st ++ "</g>", finalBounds st).

End Render.

End CustomParser.

(* ================================================================== *)
(** * The application around the converters                            *)
(* ================================================================== *)

(** ** More of the host's string functions *)

Definition toLowerChar (c : ascii) : ascii :=
  if isUpper c then ascii_of_N (code c + 32) else c.

(** [s.toLowerCase()], on ASCII text. *)
Fixpoint toLowerCase (s : string) : string :=
  match s with
  | EmptyString => EmptyString
  | String c r => String (toLowerChar c) (toLowerCase r)
  end.

(** [s.endsWith(p)] *)
Fixpoint endsWith (p s : string) : bool :=
  String.eqb p s ||
  match s with
  | EmptyString => false
  | String _ r => endsWith p r
  end.

(** ** Layers (types/pcb.ts) *)

Module PCB.

Inductive Side : Type := Front | Back | Internal | Board.

Definition sideEq (a b : Side) : bool :=
  match a, b with
  | Front, Front | Back, Back | Internal, Internal | Board, Board => true
  | _, _ => false
  end.

Inductive SourceFormat : Type := FormatGerber | FormatSvg.

Record PCBLayer : Type := mkPCBLayer {
  id : string;
  name : string;
  type : string;
  side : Side;
  content : string;
  visible : bool;
  color : string;
  mirrored : bool;
  inverted : bool;
  speed : number;
  power : number;
  frequency : number;
  sourceFormat : option SourceFormat;
  bounds : option Bounds;
  invertPadding : number;
  outline : option string;
  simplifiedContent : option string
}.

(** A layer as [GerberToPath.getBounds] reads it. *)
Definition toLayer (l : PCBLayer) : GerberToPath.Layer :=
  GerberToPath.mkLayer (content l) (bounds l).

End PCB.

(** ** useProcessor.ts: [processLayers] *)

Module Processor.
Import PCB.

Section Kernel.

Variable Item : Type.
Variable PathItem : Type.
Variable importSVG : string -> result (option Item).
Variable getItems : Item -> result (list Item).
Variable toPathItem : Item -> result (option PathItem).
Variable subtract : Bounds -> list PathItem -> result PathItem.
Variable simplify : number -> PathItem -> result PathItem.
Variable exportSVG : PathItem -> result string.

(** [layer.simplifiedContent || layer.content] *)
Definition inputContent (layer : PCBLayer) : string :=
  match simplifiedContent layer with
  | Some s => if isEmpty s then content layer else s
  | None => content layer
  end.

(** The callback of [layers.map]. *)
Definition processLayer (boardBounds : Bounds) (layer : PCBLayer)
  : PCBLayer :=
  if inverted layer then
    let content' :=
      VectorProcessor.invert Item PathItem importSVG getItems toPathItem
        subtract simplify exportSVG
        (inputContent layer) boardBounds
        (orDefault (Some (invertPadding layer)) (Fin 2)) in
    {| id := id layer; name := name layer; type := type layer;
       side := side layer; content := content';
       visible := visible layer; color := color layer;
       mirrored := mirrored layer; inverted := false;
       speed := speed layer; power := power layer;
       frequency := frequency layer;
       sourceFormat := sourceFormat layer;
       bounds := Some (GerberToPath.calculatePathBounds content');
       invertPadding := invertPadding layer; outline := outline layer;
       simplifiedContent := simplifiedContent layer |}
  else
    {| id := id layer; name := name layer; type := type layer;
       side := side layer; content := content layer;
       visible := visible layer; color := color layer;
       mirrored := mirrored layer; inverted := inverted layer;
       speed := speed layer; power := power layer;
       frequency := frequency layer;
       sourceFormat := sourceFormat layer;
       bounds := bounds layer;
       invertPadding := invertPadding layer; outline := outline layer;
       simplifiedContent := simplifiedContent layer |}.

(** [processLayers(layers, bounds)] as the new value of the state
    [processedLayers]: an empty list of layers returns before the state
    is set.  [invert] catches what the kernel throws, so the [catch] of
    [processLayers] is not entered. *)
Definition processLayers (layers : list PCBLayer) (boardBounds : Bounds)
    (processedLayers : list PCBLayer) : list PCBLayer :=
  match layers with
  | [] => processedLayers
  | _ => map (processLayer boardBounds) layers
  end.

End Kernel.

End Processor.

(** ** App.tsx: the board bounds, the layer order and the presets *)

Module App.
Import PCB.

(** The board layer with usable bounds: the first layer on the board
    side, when it has bounds of positive width. *)
Definition boardOutline (layers : list PCBLayer) : option Bounds :=
  match List.find (fun l => sideEq (side l) Board) layers with
  | Some boardLayer =>
      match bounds boardLayer with
      | Some b => if greaterThan (width b) (Fin 0) then Some b else None
      | None => None
      end
  | None => None
  end.

Definition isCopper (l : PCBLayer) : bool :=
  includes "cu" (toLowerCase (type l))
  || includes "copper" (toLowerCase (type l)).

(** The body of [copperLayers.forEach]. *)
Definition addCopper (e : GerberToPath.Extent) (l : PCBLayer)
  : GerberToPath.Extent :=
  match bounds l with
  | Some b =>
      if greaterThan (width b) (Fin 0) then
        GerberToPath.mkExtent
          (Math_min (GerberToPath.eMinX e) (x b))
          (Math_min (GerberToPath.eMinY e) (y b))
          (Math_max (GerberToPath.eMaxX e) (add (x b) (width b)))
          (Math_max (GerberToPath.eMaxY e) (add (y b) (height b)))
          true
      else e
  | None => e
  end.

(** The union of the copper layers, when one of them has usable
    bounds. *)
Definition copperUnion (layers : list PCBLayer) : option Bounds :=
  let copperLayers := List.filter isCopper layers in
  match copperLayers with
  | [] => None
  | _ =>
      let e := fold_left addCopper copperLayers GerberToPath.emptyExtent in
      if GerberToPath.eHasAny e then
        Some {| x := GerberToPath.eMinX e; y := GerberToPath.eMinY e;
                width := sub (GerberToPath.eMaxX e) (GerberToPath.eMinX e);
                height := sub (GerberToPath.eMaxY e) (GerberToPath.eMinY e) |}
      else None
  end.

(** [boardBounds] *)
Definition boardBounds (layers : list PCBLayer) : Bounds :=
  match boardOutline layers with
  | Some b => b
  | None =>
      match copperUnion layers with
      | Some b => b
      | None => GerberToPath.getBounds (map toLayer layers)
      end
  end.

(** [priority] of [handleFileAccepted]. *)
Definition priority (type : string) : Z :=
  let t := toLowerCase type in
  if includes "cu" t then 1
  else if includes "mask" t then 2
  else if includes "silk" t then 3
  else 4.

(** [Array.prototype.sort] with a comparator: the sort is stable, so with
    a comparator that is the difference of a key its result is the one of
    any stable sort by the key; here by insertion from the right, an
    element going before the elements of the same key that followed
    it. *)
Fixpoint insertBy {A : Type} (key : A -> Z) (a : A) (l : list A) : list A :=
  match l with
  | [] => [a]
  | b :: r => if (key a <=? key b)%Z then a :: l else b :: insertBy key a r
  end.

Fixpoint sortBy {A : Type} (key : A -> Z) (l : list A) : list A :=
  match l with
  | [] => []
  | a :: r => insertBy key a (sortBy key r)
  end.

(** The order in which [handleFileAccepted] leaves the layers. *)
Definition sortLayers (layers : list PCBLayer) : list PCBLayer :=
  sortBy (fun l => priority (type l)) layers.

End App.

(* ================================================================== *)
(** * XCSGenerator (xcsGenerator.ts)                                   *)
(* ================================================================== *)

Module XCSGenerator.

Record XCSLayer : Type := mkXCSLayer {
  name : string;
  paths : list string;
  visible : bool;
  color : string;
  speed : option number;
  power : option number;
  frequency : option number;
  lpi : option number;
  passes : option number
}.

(** ** [calculateBoundsAndTighten] *)

Definition isLetter (c : ascii) : bool := isLower c || isUpper c.

(** [/[a-z]/i.test(token)] *)
Fixpoint hasLetter (s : string) : bool :=
  match s with
  | EmptyString => false
  | String c r => isLetter c || hasLetter r
  end.

(** The matches of the tokenizer, left to right and without overlap: at
    each position the longest run of letters other than [e], else a
    numeral ([skip] characters of the last match are still to pass). *)
Fixpoint tokens_aux (skip : nat) (s : string) : list string :=
  match s with
  | EmptyString => []
  | String _ r =>
      match skip with
      | S k => tokens_aux k r
      | O =>
          let run := fst (span VectorProcessor.isCommandLetter s) in
          if negb (isEmpty run) then
            run :: tokens_aux (String.length run - 1) r
          else
            match matchNumber s with
            | Some m => m :: tokens_aux (String.length m - 1) r
            | None => tokens_aux O r
            end
      end
  end.

Definition tokens (dPath : string) : list string := tokens_aux O dPath.

(** The locals of the first loop. *)
Record Range : Type := mkRange {
  minX : number; minY : number; maxX : number; maxY : number;
  isX : bool
}.

Definition emptyRange : Range :=
  mkRange Infinity Infinity NegInfinity NegInfinity true.

(** The body of the first loop: the numbers are taken as X and Y in
    turn, whatever the commands between them. *)
Definition measure (st : Range) (token : string) : Range :=
  if hasLetter token then st
  else
    let val := parseFloat token in
    if isNaN val then st
    else if isX st then
      mkRange (Math_min (minX st) val) (minY st)
              (Math_max (maxX st) val) (maxY st) false
    else
      mkRange (minX st) (Math_min (minY st) val)
              (maxX st) (Math_max (maxY st) val) true.

(** The locals of the second loop. *)
Record Shift : Type := mkShift {
  shiftedPath : string;
  shiftIsX : bool;
  lastWasCommand : bool
}.

(** The body of the second loop. *)
Definition shiftToken (originX originY : number) (st : Shift)
    (token : string) : Shift :=
  if hasLetter token then
    mkShift (shiftedPath st
             ++ (if isEmpty (shiftedPath st) then "" else " ") ++ token)
            (shiftIsX st) true
  else
    let val := parseFloat token in
    if isNaN val then st
    else
      let shifted := if shiftIsX st then sub val originX
                     else sub val originY in
      mkShift (shiftedPath st
               ++ (if lastWasCommand st then "" else " ")
               ++ toFixed 3 shifted)
              (negb (shiftIsX st)) false.

Record Tightened : Type := mkTightened {
  dPath : string;
  bounds : option Bounds
}.

(** A path without a match ([tokens] is [null]) is returned like one
    without a number. *)
Definition calculateBoundsAndTighten (path : string) : Tightened :=
  let ts := tokens path in
  let r := fold_left measure ts emptyRange in
  if strictEq (minX r) Infinity then mkTightened path None
  else
    let s := fold_left (shiftToken (minX r) (minY r)) ts
                       (mkShift "" true false) in
    mkTightened (trim (shiftedPath s))
                (Some {| x := minX r; y := minY r;
                         width := sub (maxX r) (minX r);
                         height := sub (maxY r) (minY r) |}).

(** ** [createPathDisplay] *)

Record Display : Type := mkDisplay {
  displayId : string;
  displayName : string;
  displayType : string;
  displayX : number;
  displayY : number;
  displayWidth : number;
  displayHeight : number;
  zOrder : nat;
  layerColor : string;
  displayVisible : bool;
  isFill : bool;
  fillColor : string;
  displayPath : string
}.

(** The integer [colorInt] that the source parses from the colour is
    never read; it is left out. *)
Definition createPathDisplay (id : string) (index : nat) (name : string)
    (path : string) (color : string) : option Display :=
  let tightened := calculateBoundsAndTighten path in
  match bounds tightened with
  | None => None
  | Some b =>
      Some (mkDisplay id name "PATH" (x b) (y b) (width b) (height b)
                      (S index) color true true color (dPath tightened))
  end.

(** ** [generate]: the loop over the layers, and [generateLayerData] *)

Record Settings : Type := mkSettings {
  settingSpeed : number;
  settingPower : number;
  settingRepeat : number;
  settingFrequency : number;
  settingLpi : number
}.

(** [displays], [displaySettingsMap] and the number of identifiers drawn
    so far. *)
Record Collected : Type := mkCollected {
  drawn : nat;
  displays : list Display;
  displaySettingsMap : gmap string Settings
}.

Section Identifiers.

(** [generateUUID()]: the identifier of the k-th call. *)
Variable generateUUID : nat -> string.

(** The callback of [layers.forEach] in [generate]. *)
Definition addDisplay (st : Collected) (entry : nat * XCSLayer)
  : Collected :=
  let '(index, layer) := entry in
  if negb (visible layer)
     || match paths layer with [] => true | _ => false end then st
  else
    let combinedPath := join " " (paths layer) in
    if isEmpty combinedPath then st
    else
      let id := generateUUID (drawn st) in
      match createPathDisplay id index (name layer) combinedPath
                              (color layer) with
      | Some display =>
          mkCollected (S (drawn st)) (push (displays st) display)
            (<[id := mkSettings (orDefault (speed layer) (Fin 100))
                                (orDefault (power layer) (Fin 10))
                                (orDefault (passes layer) (Fin 1))
                                (orDefault (frequency layer) (Fin 60))
                                (orDefault (lpi layer) (Fin 300))]>
               (displaySettingsMap st))
      | None => mkCollected (S (drawn st)) (displays st)
                            (displaySettingsMap st)
      end.

(** The loop; the first identifier went to the canvas.  What [generate]
    builds around its result (the device data, the time stamp and the
    serialization) is left out. *)
Definition collectDisplays (layers : list XCSLayer) : Collected :=
  fold_left addDisplay (imap (fun i l => (i, l)) layers)
            (mkCollected 1 [] ∅).

End Identifiers.

Record LayerDatum : Type := mkLayerDatum {
  datumName : string;
  order : nat;
  datumVisible : bool
}.

(** [generateLayerData]: an object keyed by colour (for colours other
    than the reserved property names of the host's objects). *)
Definition generateLayerData (layers : list XCSLayer)
  : gmap string LayerDatum :=
  fold_left (fun data entry =>
               <[color (snd entry)
                 := mkLayerDatum (name (snd entry)) (S (fst entry)) true]>
                 data)
            (imap (fun i l => (i, l)) layers) ∅.

End XCSGenerator.

(* ================================================================== *)
(** * The parsers of uploads (gerberParser.ts, ipcParser.ts)           *)
(* ================================================================== *)

Module GerberZip.
Import PCB.

(** [LAYER_HEURISTICS], in the order of its keys. *)
Definition LAYER_HEURISTICS : list (string * (string * Side)) :=
  [ ("f_cu", ("F.Cu", Front)); ("gtl", ("F.Cu", Front));
    ("top.gbr", ("F.Cu", Front));
    ("b_cu", ("B.Cu", Back)); ("gbl", ("B.Cu", Back));
    ("bot.gbr", ("B.Cu", Back));
    ("f_mask", ("F.Mask", Front)); ("gts", ("F.Mask", Front));
    ("b_mask", ("B.Mask", Back)); ("gbs", ("B.Mask", Back));
    ("f_silk", ("F.SilkS", Front)); ("gto", ("F.SilkS", Front));
    ("b_silk", ("B.SilkS", Back)); ("gbo", ("B.SilkS", Back));
    ("edge_cuts", ("Edge.Cuts", Board)); ("gko", ("Edge.Cuts", Board));
    ("gm1", ("Edge.Cuts", Board)) ].

(** The extensions of the file filter, but for [gm] with a digit. *)
Definition extensions : list string :=
  ["gbr"; "gtl"; "gbl"; "gts"; "gbs"; "gto"; "gbo"; "gko"; "drl"; "xln";
   "svg"].

Definition digitStrings : list string :=
  ["0"; "1"; "2"; "3"; "4"; "5"; "6"; "7"; "8"; "9"].

(** The filter on the names of the archive: the name ends, whatever the
    case, with a point and one of the extensions. *)
Definition acceptsFile (filename : string) : bool :=
  let lower := toLowerCase filename in
  existsb (fun e => endsWith ("." ++ e) lower) extensions
  || existsb (fun d => endsWith (".gm" ++ d) lower) digitStrings.

(** The loop over the heuristics: the first pattern that the lower-cased
    name holds. *)
Fixpoint detectIn (table : list (string * (string * Side)))
    (lowerName : string) : string * Side :=
  match table with
  | [] => ("Unknown", Internal)
  | (pattern, info) :: rest =>
      if includes pattern lowerName then info else detectIn rest lowerName
  end.

Definition detect (filename : string) : string * Side :=
  detectIn LAYER_HEURISTICS (toLowerCase filename).

Definition getDefaultColor (type : string) : string :=
  if includes "Cu" type then "#b87333"
  else if includes "Silk" type then "#ffffff"
  else if includes "Mask" type then "#006400"
  else "#cccccc".

(** The layer of a file, from what the converters made of its text. *)
Definition makeLayer (layerId filename path : string)
    (sourceFormat : SourceFormat) (layerBounds : option Bounds)
    (outline : string) (simplifiedContent : option string) : PCBLayer :=
  let detection := detect filename in
  {| id := layerId; name := filename; type := fst detection;
     side := snd detection; content := path;
     visible := negb (sideEq (snd detection) Internal);
     color := getDefaultColor (fst detection);
     mirrored := sideEq (snd detection) Back;
     inverted := false;
     speed := Fin 100; power := Fin 20; frequency := Fin 40;
     sourceFormat := Some sourceFormat; bounds := layerBounds;
     invertPadding := Fin 2; outline := Some outline;
     simplifiedContent := simplifiedContent |}.

End GerberZip.

Module IPC.
Import PCB.

Definition detectTypeFromName (name : string) : string :=
  if includes "Cu" name then "Copper"
  else if includes "Silk" name then "Silkscreen"
  else if includes "Mask" name then "Solder Mask"
  else "Other".

Definition detectSideFromName (name : string) : Side :=
  let lower := toLowerCase name in
  if startsWith "f." lower || includes "top" lower then Front
  else if startsWith "b." lower || includes "bottom" lower then Back
  else if includes "edge" lower || includes "cut" lower
          || includes "gm" lower then Board
  else Internal.

(** The layer of one [LayerRef] element with the given name. *)
Definition ipcLayer (layerId layerName : string) : PCBLayer :=
  {| id := layerId; name := layerName;
     type := detectTypeFromName layerName;
     side := detectSideFromName layerName;
     content := ""; visible := true; color := "#00ff00";
     mirrored := false; inverted := includes "Cu" layerName;
     speed := Fin 100; power := Fin 20; frequency := Fin 40;
     sourceFormat := None; bounds := None;
     invertPadding := Fin 2; outline := None;
     simplifiedContent := None |}.

(** The loop of [parseIPC2581] over the [name] attributes of the
    [LayerRef] elements: an element without a name, or with an empty one,
    is passed over.  The identifier of the k-th layer made is
    [randomUUID k]. *)
Fixpoint ipcLayers (randomUUID : nat -> string) (made : nat)
    (names : list (option string)) : list PCBLayer :=
  match names with
  | [] => []
  | None :: rest => ipcLayers randomUUID made rest
  | Some layerName :: rest =>
      if isEmpty layerName then ipcLayers randomUUID made rest
      else ipcLayer (randomUUID made) layerName
           :: ipcLayers randomUUID (S made) rest
  end.

End IPC.

(* ================================================================== *)
(** * PCBPreview.tsx: what is shown, the view box and the zoom         *)
(* ================================================================== *)

Module Preview.
Import PCB.

Inductive ViewMode : Type := ViewFront | ViewBack | ViewXray.

(** [visibleLayers] *)
Definition shown (viewMode : ViewMode) (layer : PCBLayer) : bool :=
  if negb (visible layer) then false
  else if sideEq (side layer) Board then true
  else
    match viewMode with
    | ViewFront => sideEq (side layer) Front
    | ViewBack => sideEq (side layer) Back
    | ViewXray => true
    end.

Definition visibleLayers (layers : list PCBLayer) (viewMode : ViewMode)
  : list PCBLayer :=
  List.filter (shown viewMode) layers.

(** The box of a visible layer: its bounds, else the bounds of its
    content when it has some. *)
Definition layerBox (layer : PCBLayer) : option Bounds :=
  match bounds layer with
  | Some b => Some b
  | None =>
      if isEmpty (content layer) then None
      else Some (GerberToPath.getBounds
                   [GerberToPath.mkLayer (content layer) None])
  end.

(** The body of [layers.forEach] in [bounds]. *)
Definition addBox (e : GerberToPath.Extent) (layer : PCBLayer)
  : GerberToPath.Extent :=
  if negb (visible layer) then e
  else
    match layerBox layer with
    | Some b =>
        GerberToPath.mkExtent
          (Math_min (GerberToPath.eMinX e) (x b))
          (Math_min (GerberToPath.eMinY e) (y b))
          (Math_max (GerberToPath.eMaxX e) (add (x b) (width b)))
          (Math_max (GerberToPath.eMaxY e) (add (y b) (height b)))
          true
    | None => e
    end.

(** [bounds] *)
Definition previewBounds (layers : list PCBLayer) : Bounds :=
  let e := fold_left addBox layers GerberToPath.emptyExtent in
  if negb (GerberToPath.eHasAny e) then
    mkBounds (Fin 0) (Fin 0) (Fin 100) (Fin 100)
  else {| x := GerberToPath.eMinX e; y := GerberToPath.eMinY e;
          width := sub (GerberToPath.eMaxX e) (GerberToPath.eMinX e);
          height := sub (GerberToPath.eMaxY e) (GerberToPath.eMinY e) |}.

(** [Math.max(bounds.width, bounds.height) * 0.1 || 10] *)
Definition padding (b : Bounds) : number :=
  orDefault (Some (mul (Math_max (width b) (height b)) (Fin (1 # 10))))
            (Fin 10).

(** [baseViewBox], as a box. *)
Definition baseViewBox (layers : list PCBLayer) : Bounds :=
  let b := previewBounds layers in
  let p := padding b in
  {| x := sub (x b) p; y := sub (y b) p;
     width := add (width b) (mul p (Fin 2));
     height := add (height b) (mul p (Fin 2)) |}.

(** The zoom after a wheel event with the given [deltaY]. *)
Definition wheelZoom (prev deltaY : number) : number :=
  let delta := if greaterThan deltaY (Fin 0) then Fin (9 # 10)
               else Fin (11 # 10) in
  Math_min (Math_max (mul prev delta) (Fin (1 # 2))) (Fin 20).

End Preview.

(* ================================================================== *)
(** * Specification vocabulary                                         *)
(* ================================================================== *)

(** Numbers are compared by value: two finite numbers are the same when
    their rationals are equal. *)
Definition numEq (a b : number) : Prop :=
  match a, b with
  | NaN, NaN | Infinity, Infinity | NegInfinity, NegInfinity => True
  | Fin p, Fin q => (p == q)%Q
  | _, _ => False
  end.

Definition boundsEq (a b : Bounds) : Prop :=
  numEq (x a) (x b) /\ numEq (y a) (y b)
  /\ numEq (width a) (width b) /\ numEq (height a) (height b).

Definition finite (a : number) : Prop :=
  match a with Fin _ => True | _ => False end.

(** The safe range of coordinates: magnitudes up to [10^9] (in
    millimetres, a thousand kilometres).  There the host's numbers
    resolve a millionth, sums and differences of a few of them, their
    halves and their products by the constants of the program stay far
    below the overflow limit, and far below [10^21], where the host's
    [toFixed] turns to exponent notation. *)
Definition safeLimit : Q := Eval vm_compute in inject_Z (10 ^ 9).

Definition safe (a : number) : bool :=
  match a with
  | Fin q => Qle_bool (Qabs q) safeLimit
  | _ => false
  end.

Definition safeBounds (b : Bounds) : bool :=
  safe (x b) && safe (y b) && safe (width b) && safe (height b).

(** Every numeral of a text, as the number pattern of
    [calculatePathBounds] finds them, is in the safe range. *)
Definition safeNumerals (s : string) : bool :=
  forallb (fun m => safe (parseFloat m)) (matchAllNumbers s).

Definition finiteBounds (b : Bounds) : Prop :=
  finite (x b) /\ finite (y b) /\ finite (width b) /\ finite (height b).

(** Every numeral of a text reads as a finite number. *)
Definition finiteNumerals (s : string) : Prop :=
  Forall (fun m => finite (parseFloat m)) (matchAllNumbers s).

Definition finiteLayer (l : GerberToPath.Layer) : Prop :=
  match GerberToPath.bounds l with
  | Some b => finiteBounds b
  | None => True
  end
  /\ finiteNumerals (GerberToPath.content l).

(** The bounds a layer carries and the numerals of its content are in
    the safe range. *)
Definition safeLayer (l : GerberToPath.Layer) : bool :=
  match GerberToPath.bounds l with
  | Some b => safeBounds b
  | None => true
  end
  && safeNumerals (GerberToPath.content l).

(** The character [c], [n] times: long numerals. *)
Fixpoint repeated (c : ascii) (n : nat) : string :=
  match n with
  | O => EmptyString
  | S n' => String c (repeated c n')
  end.

(** A path of two points whose X numeral has 310 digits, beyond the
    range of the host's numbers. *)
Definition overflowingPath : string :=
  "M-" ++ repeated "9" 310 ++ " 0 L-" ++ repeated "9" 310 ++ " 5".

(** A layer contributes to [getBounds] through bounds of positive width
    or through content with an extent that is not a single point. *)
Definition contributes (l : GerberToPath.Layer) : bool :=
  match GerberToPath.bounds l with
  | Some b => greaterThan (width b) (Fin 0)
  | None => false
  end
  || (negb (isEmpty (GerberToPath.content l))
      && (greaterThan (width (GerberToPath.calculatePathBounds (GerberToPath.content l))) (Fin 0)
          || greaterThan (height (GerberToPath.calculatePathBounds (GerberToPath.content l))) (Fin 0))).

(** Every character of [s] satisfies [p]; some character does. *)
Fixpoint all (p : ascii -> bool) (s : string) : bool :=
  match s with
  | EmptyString => true
  | String c r => p c && all p r
  end.

Fixpoint any (p : ascii -> bool) (s : string) : bool :=
  match s with
  | EmptyString => false
  | String c r => p c || any p r
  end.

(** [s] does not start with a character satisfying [p]. *)
Definition headNot (p : ascii -> bool) (s : string) : bool :=
  match s with
  | EmptyString => true
  | String c _ => negb (p c)
  end.

(** A decimal numeral: an optional sign, integer digits and, after a
    point, fraction digits; at least one digit in all. *)
Definition isSign (sg : string) : bool :=
  String.eqb sg "" || String.eqb sg "-" || String.eqb sg "+".

Definition numeralText (sg ip fp : string) : string :=
  sg ++ ip ++ (if isEmpty fp then "" else "." ++ fp).

Definition numeralValue (sg ip fp : string) : Q :=
  let v := (inject_Z (Z.of_N (digitsVal 0 (ip ++ fp)))
            / inject_Z (10 ^ Z.of_nat (String.length fp)))%Q in
  if String.eqb sg "-" then (- v)%Q else v.

Definition wellFormedNumeral (sg ip fp : string) : bool :=
  isSign sg && all isDigit ip && all isDigit fp
  && negb (isEmpty ip && isEmpty fp).

(** The text [rest] after a numeral cannot extend the match of the
    number pattern: no digit follows and, after an integer, no point
    followed by a digit. *)
Definition endsNumeral (fp rest : string) : bool :=
  headNot isDigit rest
  && (negb (isEmpty fp) || isEmpty (fst (fractionDigits rest))).

(** The characters of numerals: digits, the point and the signs. *)
Definition isNumeralChar (c : ascii) : bool :=
  isDigit c || Ascii.eqb c "." || Ascii.eqb c "-" || Ascii.eqb c "+".

(** An extent is either the untouched sentinel or four finite numbers. *)
Definition goodExtent (e : GerberToPath.Extent) : Prop :=
  if GerberToPath.eHasAny e then
    finite (GerberToPath.eMinX e) /\ finite (GerberToPath.eMinY e)
    /\ finite (GerberToPath.eMaxX e) /\ finite (GerberToPath.eMaxY e)
  else e = GerberToPath.emptyExtent.

(** Path commands as [convert] prints them, with three decimals. *)
Definition moveCommand (px py : Q) : string :=
  "M" ++ toFixed 3 (Fin px) ++ " " ++ toFixed 3 (Fin py) ++ " ".

Definition lineCommand (px py : Q) : string :=
  "L" ++ toFixed 3 (Fin px) ++ " " ++ toFixed 3 (Fin py) ++ " ".

(** The closed polygon through four corners. *)
Definition closedPolygon (x1 y1 x2 y2 x3 y3 x4 y4 : Q) : string :=
  "M" ++ toFixed 3 (Fin x1) ++ " " ++ toFixed 3 (Fin y1)
  ++ " L" ++ toFixed 3 (Fin x2) ++ " " ++ toFixed 3 (Fin y2)
  ++ " L" ++ toFixed 3 (Fin x3) ++ " " ++ toFixed 3 (Fin y3)
  ++ " L" ++ toFixed 3 (Fin x4) ++ " " ++ toFixed 3 (Fin y4) ++ " Z ".

(** The pad of a flash: two half circles of radius [r] about [(px, py)]. *)
Definition circlePad (px py r : Q) : string :=
  "M" ++ toFixed 3 (Fin (px - r)) ++ " " ++ toFixed 3 (Fin py)
  ++ " A" ++ toFixed 3 (Fin r) ++ " " ++ toFixed 3 (Fin r) ++ " 0 1 0 "
  ++ toFixed 3 (Fin (px + r)) ++ " " ++ toFixed 3 (Fin py)
  ++ " A" ++ toFixed 3 (Fin r) ++ " " ++ toFixed 3 (Fin r) ++ " 0 1 0 "
  ++ toFixed 3 (Fin (px - r)) ++ " " ++ toFixed 3 (Fin py) ++ " Z ".

(** Sample inputs. *)
Definition strokeSample : string :=
  "%FSLAX24Y24*%G01*%ADD10C,1.0*%G01*X0Y0D02*X100000Y0D01*".

Definition flashSample : string :=
  "%FSLAX24Y24*%G01*%ADD10C,1.0*%G01*X30000Y40000D03*".

Definition incrementalSample : string :=
  "%FSLIX24Y24*%G01*X10000Y0D02*X10000Y0D03*X10000Y0D03*".

Definition degenerateSample : string :=
  "%FSLAX24Y24*%G01*%ADD10C,1.0*%G01*X10000Y10000D02*X10000Y10000D01*".

(** A step-and-repeat block (10 by 12 copies) between two moves to the
    same token, and the same text without it. *)
Definition stepRepeatSample : string :=
  "%FSLAX24Y24*%G01*X10000Y20000D02*%SRX10Y12I5J5*%G01*X10000Y20000D02*".

Definition plainRepeatSample : string :=
  "%FSLAX24Y24*%G01*X10000Y20000D02*G01*X10000Y20000D02*".

Definition unregisteredSample : string :=
  "%FSLAX24Y24*%G01*D11*X10000Y10000D02*X30000Y10000D01*X30000Y20000D03*".

(** The line element of the command-list renderer. *)
Definition lineElement (st : CustomParser.State) (ax ay bx by_ w : number)
  : string :=
  "<line " ++ CustomParser.attr "x1" (CustomParser.fmt st ax) ++ " "
  ++ CustomParser.attr "y1" (CustomParser.fmt st ay) ++ " "
  ++ CustomParser.attr "x2" (CustomParser.fmt st bx) ++ " "
  ++ CustomParser.attr "y2" (CustomParser.fmt st by_) ++ " "
  ++ CustomParser.attr "stroke" "currentColor" ++ " "
  ++ CustomParser.attr "stroke-width" (CustomParser.fmt st w) ++ " "
  ++ CustomParser.attr "stroke-linecap" "round" ++ " />".

(** Stand-ins for the trigonometric built-ins where no arc is drawn. *)
Definition noAtan2 (a b : number) : number := NaN.
Definition noPI : number := NaN.

(** The renderer after the selection of a tool that was never defined. *)
Definition unknownToolState : CustomParser.State :=
  CustomParser.step noAtan2 noPI CustomParser.initialState
                    (CustomParser.SetTool "11").

Definition circleTool (d : Q) : CustomParser.Tool :=
  CustomParser.mkTool "circle" [Fin d].

Definition coordXY (px py : Q) : CustomParser.Coord :=
  CustomParser.mkCoord (Some (Fin px)) (Some (Fin py)) None None.

(** A block that the loop of [convert] treats as an operation: not
    blank, not a parameter block and not a tool selection. *)
Definition operationBlock (rawBlock : string) : bool :=
  let block := trim rawBlock in
  negb (isEmpty block)
  && negb (startsWith "%" (toUpperCase block))
  && match GerberToPath.selectedTool (toUpperCase block) with
     | Some _ => false
     | None => true
     end.

(** A decimal-digit count: 0 to 9. *)
Definition digitCount (k : Z) : Prop := (0 <= k <= 9)%Z.

(** ** The path grammar as [mirror] reads it *)

(** The operands of a segment: the split of the trimmed text. *)
Definition operandsOf (coordsStr : string) : list string :=
  if isEmpty (trim coordsStr) then []
  else VectorProcessor.splitSeparators (trim coordsStr).

(** A path as its commands, each with its operand tokens. *)
Definition parsePath (dPath : string) : list (ascii * list string) :=
  map (fun seg => (fst seg, operandsOf (snd seg)))
      (VectorProcessor.segments dPath).

(** A command letter followed by its operands, a space apart. *)
Definition renderSegment (seg : ascii * list string) : string :=
  String (fst seg) (join " " (snd seg)).

Definition renderPath (p : list (ascii * list string)) : string :=
  join "" (map renderSegment p).

Definition isArcCommand (c : ascii) : bool := Ascii.eqb (toUpperChar c) "A".

(** An operand that is a decimal numeral from its first to its last
    character. *)
Definition isNumeral (t : string) : bool :=
  match matchNumber t with
  | Some m => String.eqb m t
  | None => false
  end.

(** A sweep flag is the number zero or one. *)
Definition isFlag (t : string) : bool :=
  strictEq (parseFloat t) (Fin 0) || strictEq (parseFloat t) (Fin 1).

(** The operands of a segment are numerals, and the fifth operand of an
    arc is a flag. *)
Definition wellFormedSegment (seg : ascii * list string) : bool :=
  forallb isNumeral (snd seg)
  && (negb (isArcCommand (fst seg))
      || match nth_error (snd seg) 4 with
         | Some t => isFlag t
         | None => true
         end).

Definition wellFormedPath (dPath : string) : bool :=
  forallb wellFormedSegment (parsePath dPath).

(** Every operand of the path reads as a number of the safe range. *)
Definition safeSegment (seg : ascii * list string) : bool :=
  forallb (fun t => safe (parseFloat t)) (snd seg).

Definition safePath (dPath : string) : bool :=
  forallb safeSegment (parsePath dPath).

(** An operand that is a numeral and reads as a number of magnitude at
    most [B]. *)
Definition sized (B : Q) (t : string) : Prop :=
  isNumeral t = true
  /\ exists q, parseFloat t = Fin q /\ (Qabs q <= B)%Q.

Definition sizedSegment (B : Q) (seg : ascii * list string) : Prop :=
  VectorProcessor.isCommandLetter (fst seg) = true
  /\ Forall (sized B) (snd seg).

(** The operand at index [idx] stands at a place that [mirror] reflects:
    every other operand from the first, the sixth operand of an arc.  In
    an absolute command with coordinate pairs and in a single arc these
    are the X coordinates. *)
Definition isXOperand (isArc : bool) (idx : nat) : bool :=
  if isArc then (idx =? 5)%nat else Nat.even idx.

(** An operand after the double mirror against the original: both are
    numbers; an operand at a reflected place is within two roundings to
    three decimals (0.0005 each), any other operand has the same
    value. *)
Definition operandRestored (isArc : bool) (idx : nat) (t t' : string) : Prop :=
  exists q q',
    parseFloat t = Fin q /\ parseFloat t' = Fin q'
    /\ if isXOperand isArc idx then (Qabs (q' - q) <= 1 # 1000)%Q
       else (q' == q)%Q.

Fixpoint operandsRestored (isArc : bool) (idx : nat) (ops ops' : list string)
  : Prop :=
  match ops, ops' with
  | [], [] => True
  | t :: ts, t' :: ts' =>
      operandRestored isArc idx t t' /\ operandsRestored isArc (S idx) ts ts'
  | _, _ => False
  end.

Definition segmentRestored (seg seg' : ascii * list string) : Prop :=
  fst seg = fst seg'
  /\ operandsRestored (isArcCommand (fst seg)) 0 (snd seg) (snd seg').

(** A token of numeral characters only, and not empty. *)
Definition cleanToken (t : string) : bool :=
  negb (isEmpty t) && all isNumeralChar t.

Definition cleanSegment (seg : ascii * list string) : bool :=
  VectorProcessor.isCommandLetter (fst seg) && forallb cleanToken (snd seg).

(** The map of [mirror] on a tokenized segment. *)
Definition mirrorOperands (centerX : number) (seg : ascii * list string)
  : ascii * list string :=
  (fst seg,
   imap (VectorProcessor.mirrorOperand (isArcCommand (fst seg)) centerX)
        (snd seg)).

Definition mirrorSample : string :=
  "M0.000 0.500 L10.000 0.500 A0.2 0.2 0 1 0 3.2 2 Z ".

Definition sampleBounds : Bounds := mkBounds (Fin 0) (Fin 0) (Fin 2) (Fin 2).

(** The digit string [ds] prints the natural number [n]. *)
Definition prints (ds : string) (n : N) : Prop :=
  all isDigit ds = true /\ isEmpty ds = false
  /\ forall a, (digitsVal a ds
                = a * 10 ^ N.of_nat (String.length ds) + n)%N.

(** ** Vocabulary for boxes and points *)

(** The coordinate pairs of a list of numerals, read two at a time as
    [calculatePathBounds] does; a last unpaired numeral is left out. *)
Fixpoint coordinatePairs (ms : list string) : list (number * number) :=
  match ms with
  | mx :: my :: rest => (parseFloat mx, parseFloat my) :: coordinatePairs rest
  | _ => []
  end.

(** The point [p] lies in the box [b], borders included. *)
Definition inside (b : Bounds) (p : number * number) : Prop :=
  lessEq (x b) (fst p) = true
  /\ lessEq (fst p) (add (x b) (width b)) = true
  /\ lessEq (y b) (snd p) = true
  /\ lessEq (snd p) (add (y b) (height b)) = true.

(** The point [p] lies between the accumulators of an extent. *)
Definition within (e : GerberToPath.Extent) (p : number * number) : Prop :=
  lessEq (GerberToPath.eMinX e) (fst p) = true
  /\ lessEq (fst p) (GerberToPath.eMaxX e) = true
  /\ lessEq (GerberToPath.eMinY e) (snd p) = true
  /\ lessEq (snd p) (GerberToPath.eMaxY e) = true.

(** An extent that has seen points is a pair of finite intervals. *)
Definition ordered (e : GerberToPath.Extent) : Prop :=
  if GerberToPath.eHasAny e then
    exists mx my Mx My : Q,
      e = GerberToPath.mkExtent (Fin mx) (Fin my) (Fin Mx) (Fin My) true
      /\ (mx <= Mx)%Q /\ (my <= My)%Q
  else e = GerberToPath.emptyExtent.

(** Points are pairs of finite numbers. *)
Definition finitePoint (p : number * number) : Prop :=
  finite (fst p) /\ finite (snd p).

(** ** Vocabulary for the block loop of [convert] *)

(** The invariant of the block loop: the divisor is a power of ten, the
    position is finite, and once a coordinate was read the accumulators
    are finite and hold the position between them. *)
Definition tracked (st : GerberToPath.State) : Prop :=
  (exists k, digitCount k /\ GerberToPath.divisor st = Math_pow 10 k)
  /\ exists cx cy : Q,
       GerberToPath.currentX st = Fin cx /\ GerberToPath.currentY st = Fin cy
       /\ if GerberToPath.hasAnyPoint st then
            exists mx my Mx My : Q,
              GerberToPath.minX st = Fin mx /\ GerberToPath.minY st = Fin my
              /\ GerberToPath.maxX st = Fin Mx /\ GerberToPath.maxY st = Fin My
              /\ (mx <= cx <= Mx)%Q /\ (my <= cy <= My)%Q
          else
            GerberToPath.minX st = Infinity /\ GerberToPath.minY st = Infinity
            /\ GerberToPath.maxX st = NegInfinity
            /\ GerberToPath.maxY st = NegInfinity.

(** The token that [convert] reads after [letter] in a block, when there
    is one, reads as a number of the safe range. *)
Definition safeField (letter : ascii) (block : string) : bool :=
  match afterFirst letter block with
  | Some rest =>
      match matchNumber rest with
      | Some m => safe (parseFloat m)
      | None => true
      end
  | None => true
  end.

(** Every coordinate token that [convert] reads in the text is in the
    safe range. *)
Definition safeCoordinates (gerberText : string) : bool :=
  forallb (fun b => safeField "X" (trim b) && safeField "Y" (trim b))
          (split "*" gerberText).

(** The part of the state that only operation blocks may change. *)
Definition plotted (st : GerberToPath.State)
  : list string * (number * number) * (number * number * number * number)
    * bool :=
  (GerberToPath.pathDataArray st,
   (GerberToPath.currentX st, GerberToPath.currentY st),
   (GerberToPath.minX st, GerberToPath.minY st,
    GerberToPath.maxX st, GerberToPath.maxY st),
   GerberToPath.hasAnyPoint st).

(** ** Vocabulary for the command-list renderer *)

(** The four accumulators of the bounding box. *)
Definition box (st : CustomParser.State)
  : number * number * number * number :=
  (CustomParser.minX st, CustomParser.minY st,
   CustomParser.maxX st, CustomParser.maxY st).

(** No accumulator is [NaN]. *)
Definition soundBox (b : number * number * number * number) : Prop :=
  let '(mx, my, Mx, My) := b in
  isNaN mx = false /\ isNaN my = false
  /\ isNaN Mx = false /\ isNaN My = false.

(** The box [b'] holds the box [b]: the lower accumulators did not rise
    and the upper ones did not fall. *)
Definition holds (b' b : number * number * number * number) : Prop :=
  let '(mx, my, Mx, My) := b in
  let '(mx', my', Mx', My') := b' in
  lessEq mx' mx = true /\ lessEq my' my = true
  /\ lessEq Mx Mx' = true /\ lessEq My My' = true.

(** The box of [st'] is sound and holds the box of [st] whenever the
    latter is sound. *)
Definition grows (st st' : CustomParser.State) : Prop :=
  soundBox (box st) -> soundBox (box st') /\ holds (box st') (box st).

(** [updateBounds] on the accumulators alone. *)
Definition stretch (px py : number) (b : number * number * number * number)
  : number * number * number * number :=
  let '(mx, my, Mx, My) := b in
  (if lessThan px mx then px else mx, if lessThan py my then py else my,
   if greaterThan px Mx then px else Mx, if greaterThan py My then py else My).

(** A macro primitive that [renderBlock] leaves out: one of a kind it does
    not know, a circle whose diameter does not evaluate to a number, an
    outline without a point list. *)
Definition dropped (mods : gmap string number)
    (b : CustomParser.MacroBlock) : bool :=
  if String.eqb (CustomParser.btype b) "circle" then
    isNaN (CustomParser.evaluate
             (CustomParser.orField (CustomParser.dia b)
                                   (CustomParser.diameter b)) mods)
  else if String.eqb (CustomParser.btype b) "vect" then false
  else if String.eqb (CustomParser.btype b) "outline" then
    match CustomParser.points b with Some _ => false | None => true end
  else if String.eqb (CustomParser.btype b) "center-line"
          || String.eqb (CustomParser.btype b) "rect" then false
  else true.

(** An operation at a point given by both coordinates. *)
Definition coordOf (p : number * number) : CustomParser.Coord :=
  CustomParser.mkCoord (Some (fst p)) (Some (snd p)) None None.

(** The element that closes a region contour. *)
Definition regionElement (d : list string) : string :=
  "<path " ++ CustomParser.attr "d" (join " " d) ++ " "
  ++ CustomParser.attr "fill" "currentColor" ++ " "
  ++ CustomParser.attr "stroke" "none" ++ " "
  ++ CustomParser.attr "fill-rule" "evenodd" ++ " />".

(** The contour of a region that starts at the current point of [st] and
    runs through [pts] in a straight line each. *)
Definition contour (st : CustomParser.State) (pts : list (number * number))
  : list string :=
  ("M " ++ CustomParser.fmt st (CustomParser.currentX st) ++ " "
   ++ CustomParser.fmt st (CustomParser.currentY st))
  :: map (fun p => "L " ++ CustomParser.fmt st (fst p) ++ " "
                   ++ CustomParser.fmt st (snd p)) pts.

(** A macro with a circle, a primitive of an unknown kind and a vector
    line, and the renderer after its definition. *)
Definition sampleMacroBlocks : list CustomParser.MacroBlock :=
  [ CustomParser.mkMacroBlock "circle" (Some (CustomParser.MConst (Fin 1)))
      None (Some (CustomParser.MConst (Fin 1))) None
      (Some (CustomParser.MConst (Fin 1))) None None None None None None
      None None;
    CustomParser.mkMacroBlock "moire" None None None None None None None
      None None None None None None;
    CustomParser.mkMacroBlock "circle" None None None None None None None
      None None None None None None ].

Definition sampleMacroState : CustomParser.State :=
  CustomParser.step noAtan2 noPI CustomParser.initialState
                    (CustomParser.MacroCmd "PAD" sampleMacroBlocks).

(** ** Vocabulary for one mirror *)




(** A command in absolute coordinates whose operands are coordinate
    pairs (M, L, C, S, Q, T), a single arc (A with at most seven
    operands), or a closing command without operands. *)
Definition absoluteSegment (seg : ascii * list string) : bool :=
  let c := fst seg in
  Ascii.eqb c "M" || Ascii.eqb c "L" || Ascii.eqb c "C"
  || Ascii.eqb c "S" || Ascii.eqb c "Q" || Ascii.eqb c "T"
  || (Ascii.eqb c "A" && (List.length (snd seg) <=? 7)%nat)
  || (Ascii.eqb (toUpperChar c) "Z" && (List.length (snd seg) =? 0)%nat).

Definition absolutePath (dPath : string) : bool :=
  forallb absoluteSegment (parsePath dPath).




(** A path with a vertical line: its operand is a Y coordinate. *)
Definition verticalSample : string := "M1 2 V6".

(** ** Vocabulary for a successful inversion *)

(** The attribute [d] of a path element. *)
Definition dAttribute (d : string) : string := "d=" ++ quote ++ d ++ quote.

Definition isQuote (c : ascii) : bool := Ascii.eqb c "034".

(** A kernel whose calls all succeed: one geometric item is found and the
    export is the given text. *)
Definition okImport : string -> result (option unit) := fun _ => Ok (Some tt).
Definition oneItem : unit -> result (list unit) := fun _ => Ok [tt].
Definition asPath : unit -> result (option unit) := fun _ => Ok (Some tt).
Definition okSubtract : Bounds -> list unit -> result unit :=
  fun _ _ => Ok tt.
Definition okSimplify : number -> unit -> result unit := fun _ p => Ok p.
Definition exportOf (svg : string) : unit -> result string := fun _ => Ok svg.

Definition invertWithExport (svg : string)
  : string -> Bounds -> number -> string :=
  VectorProcessor.invert unit unit okImport oneItem asPath okSubtract
                         okSimplify (exportOf svg).

(** ** Vocabulary for the application *)

(** The bounds a layer carries, if any, are finite numbers, and so are
    the numerals of its content. *)
Definition finitePCBLayer (l : PCB.PCBLayer) : Prop :=
  finiteLayer (PCB.toLayer l).

(** The bounds a layer carries and the numerals of its content are in
    the safe range. *)
Definition safePCBLayer (l : PCB.PCBLayer) : bool :=
  safeLayer (PCB.toLayer l).

(** An extent that has seen boxes is finite and wider than a point. *)
Definition wide (e : GerberToPath.Extent) : Prop :=
  if GerberToPath.eHasAny e then
    exists mx my Mx My : Q,
      e = GerberToPath.mkExtent (Fin mx) (Fin my) (Fin Mx) (Fin My) true
      /\ (mx < Mx)%Q
  else e = GerberToPath.emptyExtent.

(** A layer of the given type and side with the given bounds. *)
Definition layerOf (type : string) (side : PCB.Side) (inverted : bool)
    (content : string) (bounds : option Bounds) : PCB.PCBLayer :=
  PCB.mkPCBLayer "id" "name" type side content true "#b87333" false
                 inverted (Fin 100) (Fin 20) (Fin 40) None bounds (Fin 2)
                 None None.

(** ** Vocabulary for the XCS generator *)

(** A token of the tokenizer is a word of command letters or a number. *)
Definition wordToken (t : string) : Prop :=
  XCSGenerator.hasLetter t = true
  /\ all VectorProcessor.isCommandLetter t = true.

Definition numberToken (t : string) : Prop :=
  XCSGenerator.hasLetter t = false /\ exists q : Q, parseFloat t = Fin q.

Definition plainToken (t : string) : Prop := wordToken t \/ numberToken t.

(** Every number of the path, as the tokenizer finds them, is in the
    safe range. *)
Definition safeTokens (path : string) : bool :=
  forallb (fun t => XCSGenerator.hasLetter t || safe (parseFloat t))
          (XCSGenerator.tokens path).

(** A path with two numbers, the first beyond the range of the host's
    numbers. *)
Definition overflowingX : string := "M" ++ repeated "9" 310 ++ " 5".

(** The first loop has seen a number: the X range is a finite interval;
    the Y range is one too, or still the sentinel. *)
Definition started (r : XCSGenerator.Range) : Prop :=
  (exists m M : Q,
     XCSGenerator.minX r = Fin m /\ XCSGenerator.maxX r = Fin M
     /\ (m <= M)%Q)
  /\ ((XCSGenerator.minY r = Infinity /\ XCSGenerator.maxY r = NegInfinity)
      \/ exists m M : Q,
           XCSGenerator.minY r = Fin m /\ XCSGenerator.maxY r = Fin M
           /\ (m <= M)%Q).

(** Every number of [ts], taken as X and Y in turn from [isX] on, is at
    least its origin. *)
Fixpoint notBelow (originX originY : number) (isX : bool)
    (ts : list string) : Prop :=
  match ts with
  | [] => True
  | t :: rest =>
      if XCSGenerator.hasLetter t then notBelow originX originY isX rest
      else
        lessEq (if isX then originX else originY) (parseFloat t) = true
        /\ notBelow originX originY (negb isX) rest
  end.

Definition isMinus (c : ascii) : bool := Ascii.eqb c "-".

(** A layer that [generate] turns into a display: visible, with a path
    that is not empty and holds a number. *)
Definition exportable (l : XCSGenerator.XCSLayer) : bool :=
  XCSGenerator.visible l
  && negb (isEmpty (join " " (XCSGenerator.paths l)))
  && negb (forallb XCSGenerator.hasLetter
                   (XCSGenerator.tokens (join " " (XCSGenerator.paths l)))).

(** An identifier supply for examples. *)
Definition countingUUID (k : nat) : string := "id-" ++ digitsOf (N.of_nat k).

(** What the displays of the layers from [index] on should be: name,
    Z order and tightened path of every exportable layer, in order. *)
Fixpoint expectedDisplays (index : nat) (layers : list XCSGenerator.XCSLayer)
  : list (string * nat * string) :=
  match layers with
  | [] => []
  | l :: rest =>
      let here :=
        if exportable l then
          [(XCSGenerator.name l, S index,
            XCSGenerator.dPath
              (XCSGenerator.calculateBoundsAndTighten
                 (join " " (XCSGenerator.paths l))))]
        else [] in
      (here ++ expectedDisplays (S index) rest)%list
  end.

Definition displaySummary (d : XCSGenerator.Display)
  : string * nat * string :=
  (XCSGenerator.displayName d, XCSGenerator.zOrder d,
   XCSGenerator.displayPath d).

(** Every display has its settings. *)
Definition settled (st : XCSGenerator.Collected) : Prop :=
  Forall (fun d => is_Some (XCSGenerator.displaySettingsMap st
                              !! XCSGenerator.displayId d))
         (XCSGenerator.displays st).

(** Two layers of one colour, the first hidden, and a layer without a
    number. *)
Definition sampleXCSLayers : list XCSGenerator.XCSLayer :=
  [ XCSGenerator.mkXCSLayer "F.Cu" ["M1 1 L2 2"] false "#b87333"
      None None None None None;
    XCSGenerator.mkXCSLayer "Empty" ["M Z"] true "#ffffff"
      None None None None None;
    XCSGenerator.mkXCSLayer "B.Cu" ["M1 1"; "L3 2"] true "#b87333"
      (Some (Fin 0)) None None None None ].

(** ** Vocabulary for the parsers of uploads *)

(** The lower-cased file name holds a pattern of the heuristics. *)
Definition knownName (filename : string) : bool :=
  existsb (fun e => includes (fst e) (toLowerCase filename))
          GerberZip.LAYER_HEURISTICS.

(** The extensions of the file filter that are patterns of the
    heuristics too. *)
Definition layerExtensions : list string :=
  ["gtl"; "gbl"; "gts"; "gbs"; "gto"; "gbo"; "gko"; "gm1"].

(** ** Vocabulary for orders *)

(** The keys of the list do not fall from one element to a later one. *)
Fixpoint ascending {A : Type} (key : A -> Z) (l : list A) : Prop :=
  match l with
  | [] => True
  | a :: r => Forall (fun b => (key a <= key b)%Z) r /\ ascending key r
  end.

(** The elements of key [k], in their order. *)
Definition ofKey {A : Type} (key : A -> Z) (k : Z) (l : list A) : list A :=
  List.filter (fun a => (key a =? k)%Z) l.

(** ** Vocabulary for the preview *)

(** The bounds a layer carries, if any, are finite and of a width and a
    height that are not negative; the numerals of the content of a layer
    without bounds read as finite numbers. *)
Definition properLayer (l : PCB.PCBLayer) : Prop :=
  match PCB.bounds l with
  | Some b =>
      exists bx by_ w h : Q,
        b = mkBounds (Fin bx) (Fin by_) (Fin w) (Fin h)
        /\ (0 <= w)%Q /\ (0 <= h)%Q
  | None => finiteNumerals (PCB.content l)
  end.

(** The bounds a layer carries are in the safe range, with a width and a
    height that are not negative; the numerals of the content of a layer
    without bounds are in the safe range. *)
Definition regularLayer (l : PCB.PCBLayer) : bool :=
  match PCB.bounds l with
  | Some b =>
      safeBounds b && lessEq (Fin 0) (width b) && lessEq (Fin 0) (height b)
  | None => safeNumerals (PCB.content l)
  end.

(** ** Vocabulary for the union of layer boxes *)

(** The extent holds the box [b]. *)
Definition covers (e : GerberToPath.Extent) (b : Bounds) : Prop :=
  lessEq (GerberToPath.eMinX e) (x b) = true
  /\ lessEq (add (x b) (width b)) (GerberToPath.eMaxX e) = true
  /\ lessEq (GerberToPath.eMinY e) (y b) = true
  /\ lessEq (add (y b) (height b)) (GerberToPath.eMaxY e) = true.

(** The box [r] holds the box [b]. *)
Definition encloses (r b : Bounds) : Prop :=
  lessEq (x r) (x b) = true
  /\ lessEq (add (x b) (width b)) (add (x r) (width r)) = true
  /\ lessEq (y r) (y b) = true
  /\ lessEq (add (y b) (height b)) (add (y r) (height r)) = true.

(** The box with which a layer enters [getBounds], if it does. *)
Definition contribution (l : GerberToPath.Layer) : option Bounds :=
  match GerberToPath.bounds l with
  | Some b =>
      if greaterThan (width b) (Fin 0) then Some b
      else if isEmpty (GerberToPath.content l) then None
      else
        let c := GerberToPath.calculatePathBounds (GerberToPath.content l) in
        if greaterThan (width c) (Fin 0) || greaterThan (height c) (Fin 0)
        then Some c else None
  | None =>
      if isEmpty (GerberToPath.content l) then None
      else
        let c := GerberToPath.calculatePathBounds (GerberToPath.content l) in
        if greaterThan (width c) (Fin 0) || greaterThan (height c) (Fin 0)
        then Some c else None
  end.

(* ================================================================== *)
(** * Verification                                                     *)
(* ================================================================== *)

#[local] Arguments String.append !_ _ / : simpl nomatch.

(** Linear arithmetic over the rationals, halves written as products. *)
Ltac qlra :=
  repeat match goal with
    | |- context [(?a / 2)%Q] =>
        change (a / 2)%Q with (a * (1 # 2))%Q in *
    | H : context [(?a / 2)%Q] |- _ =>
        change (a / 2)%Q with (a * (1 # 2))%Q in *
    end;
  lra.

(** ** Numbers *)

Section NumberFacts.

Local Open Scope Q_scope.

Lemma Qltb_lt (a b : Q) : Qltb a b = true <-> a < b.
Proof.
  unfold Qltb. rewrite negb_true_iff.
  split; intro H.
  - apply Qnot_le_lt. intro Hle. apply Qle_bool_iff in Hle. congruence.
  - destruct (Qle_bool b a) eqn:E; [|reflexivity].
    apply Qle_bool_iff in E. exfalso. apply (Qlt_not_le _ _ H E).
Qed.

Lemma Qltb_ge (a b : Q) : Qltb a b = false <-> b <= a.
Proof.
  unfold Qltb. rewrite negb_false_iff. apply Qle_bool_iff.
Qed.

Lemma Qltb_reflect (a b : Q) : reflect (a < b) (Qltb a b).
Proof.
  destruct (Qltb a b) eqn:E; constructor.
  - apply Qltb_lt, E.
  - intros H. apply Qltb_lt in H. congruence.
Qed.

Lemma numEq_refl (a : number) : numEq a a.
Proof. destruct a; simpl; auto. reflexivity. Qed.

Lemma numEq_sym (a b : number) : numEq a b -> numEq b a.
Proof. destruct a, b; simpl; auto. intros H; symmetry; exact H. Qed.

Lemma numEq_trans (a b c : number) : numEq a b -> numEq b c -> numEq a c.
Proof.
  destruct a, b, c; simpl; auto; try contradiction.
  intros H1 H2. rewrite H1. exact H2.
Qed.

Lemma le_refl_fin (q : Q) : lessEq (Fin q) (Fin q) = true.
Proof.
  simpl. apply orb_true_iff. right. apply Qeq_bool_iff. reflexivity.
Qed.

Lemma le_Math_max_l (a : Q) (b : number) :
  b <> NaN -> lessEq (Fin a) (Math_max (Fin a) b) = true.
Proof.
  intros Hb. destruct b as [| |q|]; try congruence; simpl.
  - apply le_refl_fin.
  - destruct (Qltb a q) eqn:E; simpl.
    + rewrite E. reflexivity.
    + apply orb_true_iff. right. apply Qeq_bool_iff. reflexivity.
  - reflexivity.
Qed.

Lemma Math_min_fin (a : number) (q : Q) :
  a = Infinity \/ finite a -> finite (Math_min a (Fin q)).
Proof.
  intros [->|H]; simpl; [exact I|].
  destruct a; simpl in *; try contradiction.
  destruct (Qltb q q0); exact I.
Qed.

Lemma Math_max_fin (a : number) (q : Q) :
  a = NegInfinity \/ finite a -> finite (Math_max a (Fin q)).
Proof.
  intros [->|H]; simpl; [exact I|].
  destruct a; simpl in *; try contradiction.
  destruct (Qltb q0 q); exact I.
Qed.

End NumberFacts.

(** ** Strings *)

Lemma isEmpty_true (s : string) : isEmpty s = true <-> s = EmptyString.
Proof. destruct s; simpl; split; congruence. Qed.

Lemma isEmpty_false (s : string) : isEmpty s = false <-> s <> EmptyString.
Proof. destruct s; simpl; split; congruence. Qed.

Lemma forallb_Forall {A : Type} (p : A -> bool) (l : list A) :
  forallb p l = true -> Forall (fun a => p a = true) l.
Proof.
  induction l as [|a l IH]; cbn [forallb]; intros H; constructor.
  - apply andb_true_iff in H. tauto.
  - apply IH. apply andb_true_iff in H. tauto.
Qed.

(** ** [VectorProcessor.mirror]: the guards *)

Module MirrorGuards.
Import VectorProcessor.

(** C9. [mirror] returns the path unchanged when the bounds are missing
    or their width is at most zero, and the empty string for the empty
    path; none of these cases transforms any part of the path. *)
Theorem mirror_guards :
  (forall dPath : string, mirror dPath None = dPath)
  /\ (forall (dPath : string) (b : Bounds),
        lessEq (width b) (Fin 0) = true -> mirror dPath (Some b) = dPath)
  /\ (forall bounds : option Bounds, mirror EmptyString bounds = EmptyString).
Proof.
  repeat split.
  - intros dPath. unfold mirror. destruct dPath; reflexivity.
  - intros dPath b Hw. unfold mirror. rewrite Hw.
    destruct dPath; reflexivity.
Qed.

Lemma mirror_guards_witness :
  lessEq (width (mkBounds (Fin 1) (Fin 0) (Fin 0) (Fin 5))) (Fin 0) = true
  /\ mirror "M1.000 2.000 L3.000 4.000"
            (Some (mkBounds (Fin 1) (Fin 0) (Fin 0) (Fin 5)))
     = "M1.000 2.000 L3.000 4.000".
Proof.
  split; [reflexivity|].
  apply (proj1 (proj2 mirror_guards)). reflexivity.
Defined.

End MirrorGuards.

(** ** [VectorProcessor.invert]: the failure policy *)

Module InvertFallback.
Import VectorProcessor.

Section Kernel.

Variable Item : Type.
Variable PathItem : Type.
Variable importSVG : string -> result (option Item).
Variable getItems : Item -> result (list Item).
Variable toPathItem : Item -> result (option PathItem).
Variable subtract : Bounds -> list PathItem -> result PathItem.
Variable simplify : number -> PathItem -> result PathItem.
Variable exportSVG : PathItem -> result string.

Let invertBody :=
  invertBody Item PathItem importSVG getItems toPathItem subtract
             simplify exportSVG.
Let invert :=
  invert Item PathItem importSVG getItems toPathItem subtract
         simplify exportSVG.
Let KernelFailure :=
  KernelFailure Item PathItem importSVG getItems toPathItem subtract
                simplify exportSVG.

(** Every failure of the kernel leaves the [try] block by [throw] or by
    the early return of the input. *)
Lemma failure_body (s : string) (b : Bounds) (p : number) :
  KernelFailure s b p -> invertBody s b p = Throw \/ invertBody s b p = Ok s.
Proof.
  unfold invertBody, VectorProcessor.invertBody.
  intros [H|H|item H1 H2|item items H1 H2 H3|item items traces H1 H2 H3
          |item items traces H1 H2 H3 H4
          |item items traces clearance H1 H2 H3 H4 H5
          |item items traces clearance simplified H1 H2 H3 H4 H5 H6];
    rewrite ?H, ?H1; simpl; rewrite ?H2; simpl; rewrite ?H3; simpl;
    rewrite ?H4; simpl; rewrite ?H5; simpl; rewrite ?H6; simpl; auto.
Qed.

Lemma invert_blank (s : string) (b : Bounds) (p : number) :
  isEmpty (trim s) = true -> invert s b p = EmptyString.
Proof.
  intros H. unfold invert, VectorProcessor.invert. rewrite H. reflexivity.
Qed.

Lemma not_blank_not_empty (s : string) :
  isEmpty (trim s) = false -> s <> EmptyString.
Proof. intros H ->. discriminate H. Qed.

(** C1, as amended. A blank input (empty, or white space only) yields
    the empty string. For any other input, whenever the kernel fails (the
    import throws or returns nothing, no geometry is found, or the
    subtraction, simplification or export throws) the result is the
    original input, which is not empty. *)
Theorem invert_failure_policy (s : string) (b : Bounds) (p : number) :
  (isEmpty (trim s) = true -> invert s b p = EmptyString)
  /\ (isEmpty (trim s) = false -> KernelFailure s b p ->
      invert s b p = s /\ invert s b p <> EmptyString).
Proof.
  split; [apply invert_blank|].
  intros Hs Hf.
  assert (E : invert s b p = s).
  { unfold invert, VectorProcessor.invert. rewrite Hs.
    destruct (failure_body s b p Hf) as [H|H];
      fold invertBody; unfold invertBody in *; rewrite H; reflexivity. }
  split; [exact E|].
  rewrite E. apply not_blank_not_empty, Hs.
Qed.

End Kernel.

Lemma invert_failure_policy_witness :
  isEmpty (trim "M0 0 L1 1") = false
  /\ invertWithNullKernel "M0 0 L1 1" zeroBounds (Fin 2) = "M0 0 L1 1"
  /\ invertWithNullKernel "M0 0 L1 1" zeroBounds (Fin 2) <> EmptyString.
Proof.
  split; [reflexivity|].
  apply (proj2 (invert_failure_policy unit unit nullImport noItems noPath
                  noSubtract noSimplify noExport
                  "M0 0 L1 1" zeroBounds (Fin 2))).
  - reflexivity.
  - apply ImportNull. reflexivity.
Defined.

(** C1, as stated, fails on blank input: the empty input gives an empty
    result, and an input of white space is not returned but replaced by
    the empty string. *)
Lemma invert_blank_counterexample :
  invertWithNullKernel EmptyString zeroBounds (Fin 0) = EmptyString
  /\ invertWithNullKernel " " zeroBounds (Fin 0) = EmptyString
  /\ invertWithNullKernel " " zeroBounds (Fin 0) <> " ".
Proof.
  repeat split; try reflexivity. discriminate.
Qed.

End InvertFallback.

(** ** Character classes and numerals *)

Section StringFacts.

Lemma append_nil_r (s : string) : s ++ "" = s.
Proof. induction s; simpl; congruence. Qed.

Lemma append_assoc (a b c : string) : (a ++ b) ++ c = a ++ (b ++ c).
Proof. induction a; simpl; congruence. Qed.

Lemma length_append (a b : string) :
  String.length (a ++ b) = (String.length a + String.length b)%nat.
Proof. induction a; simpl; congruence. Qed.

Lemma all_app (p : ascii -> bool) (a b : string) :
  all p (a ++ b) = all p a && all p b.
Proof. induction a; simpl; [reflexivity|]. rewrite IHa, andb_assoc. reflexivity. Qed.

Lemma any_app (p : ascii -> bool) (a b : string) :
  any p (a ++ b) = any p a || any p b.
Proof. induction a; simpl; [reflexivity|]. rewrite IHa, orb_assoc. reflexivity. Qed.

Lemma all_impl (p q : ascii -> bool) (s : string) :
  (forall c, p c = true -> q c = true) -> all p s = true -> all q s = true.
Proof.
  intros Hpq. induction s; simpl; [reflexivity|].
  intros H. apply andb_true_iff in H as [H1 H2].
  rewrite (Hpq _ H1), (IHs H2). reflexivity.
Qed.

Lemma any_false_all (p : ascii -> bool) (s : string) :
  any p s = false <-> all (fun c => negb (p c)) s = true.
Proof.
  induction s; simpl; [tauto|].
  rewrite orb_false_iff, andb_true_iff, negb_true_iff, IHs. tauto.
Qed.

Lemma span_app (p : ascii -> bool) (a r : string) :
  all p a = true -> headNot p r = true -> span p (a ++ r) = (a, r).
Proof.
  induction a; simpl; intros Ha Hr.
  - destruct r; simpl in *; [reflexivity|].
    apply negb_true_iff in Hr. rewrite Hr. reflexivity.
  - apply andb_true_iff in Ha as [H1 H2].
    rewrite H1, (IHa H2 Hr). reflexivity.
Qed.

Lemma span_all (p : ascii -> bool) (a : string) :
  all p a = true -> span p a = (a, EmptyString).
Proof.
  intros H. rewrite <- (append_nil_r a) at 1. apply span_app; auto.
Qed.

Lemma span_spec (p : ascii -> bool) (s a b : string) :
  span p s = (a, b) -> s = a ++ b /\ all p a = true /\ headNot p b = true.
Proof.
  revert a b. induction s as [|c s IH]; simpl; intros a b H.
  - inversion H; subst. auto.
  - destruct (p c) eqn:E.
    + destruct (span p s) as [a' b'] eqn:E'. inversion H; subst.
      destruct (IH a' b eq_refl) as (-> & H1 & H2).
      simpl. rewrite E, H1. auto.
    + inversion H; subst. simpl. rewrite E. auto.
Qed.

Lemma startsWith_app (p r : string) : startsWith p (p ++ r) = true.
Proof.
  induction p; simpl; [reflexivity|].
  rewrite Ascii.eqb_refl. exact IHp.
Qed.

Lemma startsWith_cons (a b : ascii) (p s : string) :
  startsWith (String a p) (String b s) = Ascii.eqb a b && startsWith p s.
Proof. reflexivity. Qed.

Lemma includes_char (c : ascii) (s : string) :
  includes (String c EmptyString) s = any (Ascii.eqb c) s.
Proof.
  induction s as [|a s IH]; simpl; [reflexivity|].
  rewrite IH. destruct (Ascii.eqb c a); reflexivity.
Qed.

Lemma isEmpty_app (a b : string) :
  isEmpty (a ++ b) = isEmpty a && isEmpty b.
Proof. destruct a; reflexivity. Qed.

End StringFacts.

Section NumeralFacts.

Lemma isDigit_not_dot (c : ascii) : isDigit c = true -> Ascii.eqb "." c = false.
Proof.
  destruct (Ascii.eqb "." c) eqn:E; [|reflexivity].
  apply Ascii.eqb_eq in E. subst. discriminate.
Qed.

Lemma isDigit_not_space (c : ascii) : isDigit c = true -> isWhiteSpace c = false.
Proof.
  unfold isDigit, isWhiteSpace. intros H.
  apply andb_true_iff in H as [H1 H2].
  apply N.leb_le in H1. apply N.leb_le in H2.
  destruct (code c) as [|p]; [reflexivity|].
  do 6 (destruct p as [p|p|]; try reflexivity; try lia).
Qed.

Lemma digits_no_dot (s : string) :
  all isDigit s = true -> any (Ascii.eqb ".") s = false.
Proof.
  intros H. apply any_false_all.
  eapply all_impl; [|exact H]. intros c Hc.
  rewrite (isDigit_not_dot c Hc). reflexivity.
Qed.

Lemma isSign_cases (sg : string) :
  isSign sg = true -> sg = "" \/ sg = "-" \/ sg = "+".
Proof.
  unfold isSign. intros H.
  apply orb_true_iff in H as [H|H]; [apply orb_true_iff in H as [H|H]|];
    apply String.eqb_eq in H; auto.
Qed.

(** The parts of a well-formed numeral, unpacked. *)
Lemma wellFormedNumeral_parts (sg ip fp : string) :
  wellFormedNumeral sg ip fp = true ->
  (sg = "" \/ sg = "-" \/ sg = "+")
  /\ all isDigit ip = true /\ all isDigit fp = true
  /\ (isEmpty ip && isEmpty fp = false).
Proof.
  unfold wellFormedNumeral. intros H.
  apply andb_true_iff in H as [H H4].
  apply andb_true_iff in H as [H H3].
  apply andb_true_iff in H as [H1 H2].
  apply negb_true_iff in H4. auto using isSign_cases.
Qed.

Lemma splitSign_numeral (sg body : string) :
  isSign sg = true -> headNot (fun c => Ascii.eqb c "-" || Ascii.eqb c "+") body = true ->
  splitSign (sg ++ body) = (sg, body).
Proof.
  intros Hs Hb. destruct (isSign_cases sg Hs) as [->|[->| ->]]; try reflexivity.
  simpl. destruct body as [|c r]; [reflexivity|].
  simpl in *. apply negb_true_iff in Hb. rewrite Hb. reflexivity.
Qed.

Lemma isDigit_not_sign (c : ascii) :
  isDigit c = true -> Ascii.eqb c "-" || Ascii.eqb c "+" = false.
Proof.
  intros H. apply orb_false_iff. split.
  - destruct (Ascii.eqb c "-") eqn:E; [|reflexivity].
    apply Ascii.eqb_eq in E. subst. discriminate.
  - destruct (Ascii.eqb c "+") eqn:E; [|reflexivity].
    apply Ascii.eqb_eq in E. subst. discriminate.
Qed.

(** The body of a numeral starts with a digit or the point. *)
Lemma numeral_body_head (ip fp rest : string) :
  all isDigit ip = true -> isEmpty ip && isEmpty fp = false ->
  headNot (fun c => Ascii.eqb c "-" || Ascii.eqb c "+")
          (ip ++ (if isEmpty fp then "" else "." ++ fp) ++ rest) = true.
Proof.
  intros Hi Hne. destruct ip as [|c ip']; simpl.
  - destruct fp; simpl in *; [discriminate|reflexivity].
  - simpl in Hi. apply andb_true_iff in Hi as [Hc _].
    rewrite (isDigit_not_sign c Hc). reflexivity.
Qed.

Lemma fractionDigits_point (fp rest : string) :
  all isDigit fp = true -> headNot isDigit rest = true ->
  fractionDigits ("." ++ fp ++ rest) = (fp, rest).
Proof. intros Hf Hr. simpl. apply span_app; assumption. Qed.

(** The number pattern matches a numeral whole when nothing after it
    could extend the match. *)
Lemma matchNumber_numeral (sg ip fp rest : string) :
  wellFormedNumeral sg ip fp = true ->
  endsNumeral fp rest = true ->
  matchNumber (numeralText sg ip fp ++ rest) = Some (numeralText sg ip fp).
Proof.
  intros H Hr. pose proof H as Hwf.
  apply wellFormedNumeral_parts in H as (Hs & Hi & Hf & Hne).
  apply andb_true_iff in Hr as [Hr1 Hr2].
  unfold matchNumber, numeralText.
  rewrite !append_assoc.
  rewrite splitSign_numeral;
    [|unfold wellFormedNumeral in Hwf;
      repeat (apply andb_true_iff in Hwf as [Hwf _]); exact Hwf
     |apply numeral_body_head; assumption].
  destruct fp as [|d fp']; simpl isEmpty; cbv iota.
  - simpl in Hne. rewrite andb_true_r in Hne.
    simpl "++" at 2. rewrite span_app by assumption.
    simpl in Hr2.
    destruct (fractionDigits rest) as [f r'] eqn:Ef. simpl in Hr2.
    rewrite Hr2. simpl. rewrite Hne, append_nil_r. reflexivity.
  - rewrite span_app by reflexivity || assumption.
    rewrite append_assoc, fractionDigits_point by assumption. reflexivity.
Qed.

Lemma splitSign_isSign (s sg r : string) :
  splitSign s = (sg, r) -> isSign sg = true /\ s = sg ++ r.
Proof.
  destruct s as [|c s']; simpl; intros H.
  - inversion H; subst. auto.
  - destruct (Ascii.eqb c "-") eqn:E1; simpl in H.
    + apply Ascii.eqb_eq in E1. subst. inversion H; subst. auto.
    + destruct (Ascii.eqb c "+") eqn:E2; simpl in H.
      * apply Ascii.eqb_eq in E2. subst. inversion H; subst. auto.
      * inversion H; subst. auto.
Qed.

Lemma fractionDigits_digits (s fp r : string) :
  fractionDigits s = (fp, r) -> all isDigit fp = true.
Proof.
  destruct s as [|c s']; simpl; intros H.
  - inversion H; subst. reflexivity.
  - destruct (Ascii.eqb c ".").
    + apply span_spec in H. tauto.
    + inversion H; subst. reflexivity.
Qed.

(** Whatever the number pattern matches is a numeral. *)
Lemma matchNumber_inv (s m : string) :
  matchNumber s = Some m ->
  exists sg ip fp,
    wellFormedNumeral sg ip fp = true /\ m = numeralText sg ip fp.
Proof.
  unfold matchNumber.
  destruct (splitSign s) as [sg s1] eqn:Es.
  destruct (span isDigit s1) as [ip r1] eqn:Ei.
  destruct (fractionDigits r1) as [fp r2] eqn:Ef.
  apply splitSign_isSign in Es as [Hs _].
  apply span_spec in Ei as (_ & Hi & _).
  apply fractionDigits_digits in Ef.
  intros H. exists sg, ip.
  destruct fp as [|d fp']; simpl in H.
  - destruct ip as [|c ip']; simpl in H; [discriminate|].
    inversion H; subst. exists "". split.
    + unfold wellFormedNumeral. rewrite Hs, Hi. reflexivity.
    + unfold numeralText. simpl isEmpty. cbv iota.
      rewrite append_nil_r. reflexivity.
  - inversion H; subst. exists (String d fp'). split.
    + unfold wellFormedNumeral. rewrite Hs, Hi, Ef.
      rewrite andb_false_r. reflexivity.
    + reflexivity.
Qed.

Lemma trimStart_head (s : string) :
  headNot isWhiteSpace s = true -> trimStart s = s.
Proof.
  destruct s as [|c r]; simpl; [reflexivity|].
  intros H. apply negb_true_iff in H. rewrite H. reflexivity.
Qed.

Lemma numeral_chars (sg ip fp : string) :
  wellFormedNumeral sg ip fp = true ->
  all isNumeralChar (numeralText sg ip fp) = true.
Proof.
  intros H. apply wellFormedNumeral_parts in H as (Hs & Hi & Hf & _).
  unfold numeralText. rewrite !all_app.
  assert (Hd : forall c, isDigit c = true -> isNumeralChar c = true)
    by (intros c Hc; unfold isNumeralChar; rewrite Hc; reflexivity).
  rewrite (all_impl _ _ _ Hd Hi).
  assert (all isNumeralChar sg = true) as ->
    by (destruct Hs as [->|[->| ->]]; reflexivity).
  destruct fp; simpl; [reflexivity|].
  simpl in Hf. apply andb_true_iff in Hf as [H1 H2].
  rewrite (Hd _ H1), (all_impl _ _ _ Hd H2). reflexivity.
Qed.

Lemma numeral_not_empty (sg ip fp : string) :
  wellFormedNumeral sg ip fp = true -> isEmpty (numeralText sg ip fp) = false.
Proof.
  intros H. apply wellFormedNumeral_parts in H as (_ & _ & _ & Hne).
  unfold numeralText. rewrite !isEmpty_app.
  destruct ip; simpl in *; [|apply andb_false_r].
  destruct fp; simpl in *; [discriminate|apply andb_false_r].
Qed.

Lemma isNumeralChar_not_space (c : ascii) :
  isNumeralChar c = true -> isWhiteSpace c = false.
Proof.
  unfold isNumeralChar. intros H.
  repeat (apply orb_true_iff in H as [H|H]);
    try (apply Ascii.eqb_eq in H; subst; reflexivity).
  apply isDigit_not_space, H.
Qed.

Lemma startsWith_Infinity_body (ip fp : string) :
  all isDigit ip = true ->
  startsWith "Infinity" (ip ++ (if isEmpty fp then "" else "." ++ fp)) = false.
Proof.
  intros Hi. destruct ip as [|c ip'].
  - destruct fp; reflexivity.
  - simpl in Hi. apply andb_true_iff in Hi as [Hc _].
    cbn [append]. rewrite startsWith_cons.
    destruct (Ascii.eqb "I" c) eqn:E; [|reflexivity].
    apply Ascii.eqb_eq in E. subst. discriminate.
Qed.

Lemma pow10_nonzero (n : nat) : ~ (inject_Z (10 ^ Z.of_nat n) == 0)%Q.
Proof.
  intros E. unfold Qeq in E. simpl in E. rewrite Z.mul_1_r in E.
  assert (0 < 10 ^ Z.of_nat n)%Z by (apply Z.pow_pos_nonneg; lia).
  lia.
Qed.

(** A literal below the overflow limit is read as its value. *)
Lemma ofLiteral_fin (q : Q) :
  (Qabs q < overflowLimit)%Q -> ofLiteral q = Fin q.
Proof.
  intros H. unfold ofLiteral.
  destruct (Qle_bool overflowLimit (Qabs q)) eqn:E; [|reflexivity].
  apply Qle_bool_iff in E. exfalso. apply (Qlt_not_le _ _ H E).
Qed.

Lemma ofLiteral_finite (q : Q) :
  finite (ofLiteral q) -> ofLiteral q = Fin q.
Proof.
  unfold ofLiteral.
  destruct (Qle_bool overflowLimit (Qabs q)); [|reflexivity].
  destruct (Qltb q 0); contradiction.
Qed.

Lemma safe_fin (a : number) :
  safe a = true -> exists q, a = Fin q /\ (Qabs q <= safeLimit)%Q.
Proof.
  destruct a as [| |q|]; try discriminate. simpl.
  intros H. apply Qle_bool_iff in H. eauto.
Qed.

Lemma safe_finite (a : number) : safe a = true -> finite a.
Proof. destruct a; try discriminate. intros _. exact I. Qed.

Lemma safeLimit_below_overflow (q : Q) :
  (Qabs q <= 1001 * safeLimit)%Q -> (Qabs q < overflowLimit)%Q.
Proof.
  intros H. eapply Qle_lt_trans; [exact H|]. reflexivity.
Qed.

(** [parseFloat] reads a numeral whole: the literal of its value. *)
Lemma parseFloat_numeral (sg ip fp : string) :
  wellFormedNumeral sg ip fp = true ->
  exists q, parseFloat (numeralText sg ip fp) = ofLiteral q
            /\ (q == numeralValue sg ip fp)%Q.
Proof.
  intros Hwf. pose proof (numeral_chars _ _ _ Hwf) as Hch.
  pose proof (numeral_not_empty _ _ _ Hwf) as Hne'.
  pose proof Hwf as H.
  apply wellFormedNumeral_parts in H as (Hs & Hi & Hf & Hne).
  unfold parseFloat.
  rewrite trimStart_head.
  2:{ destruct (numeralText sg ip fp) as [|c r]; [discriminate|].
      simpl in *. apply andb_true_iff in Hch as [Hc _].
      rewrite (isNumeralChar_not_space c Hc). reflexivity. }
  unfold takeSign, numeralText.
  rewrite <- (append_nil_r (if isEmpty fp then "" else "." ++ fp)).
  rewrite splitSign_numeral;
    [|unfold wellFormedNumeral in Hwf;
      repeat (apply andb_true_iff in Hwf as [Hwf _]); exact Hwf
     |apply numeral_body_head; assumption].
  rewrite append_nil_r, startsWith_Infinity_body by assumption.
  destruct fp as [|d fp']; simpl isEmpty; cbv iota.
  - rewrite append_nil_r, span_all by assumption.
    simpl. simpl in Hne. rewrite andb_true_r in Hne. rewrite Hne.
    eexists. split; [reflexivity|].
    unfold numeralValue. simpl. rewrite !append_nil_r.
    destruct (String.eqb sg "-"); field; apply (pow10_nonzero 0).
  - rewrite span_app by reflexivity || assumption.
    replace (fractionDigits ("." ++ String d fp')) with (String d fp', "")
      by (symmetry; apply (span_all isDigit (String d fp') Hf)).
    rewrite andb_false_r.
    eexists. split; [reflexivity|].
    unfold numeralValue. simpl exponentPart.
    destruct (String.eqb sg "-"); field; apply pow10_nonzero.
Qed.

End NumeralFacts.

(** ** [GerberToPath.getBounds] *)

Module GetBoundsFacts.
Import GerberToPath.

Lemma finite_add (a b : number) : finite a -> finite b -> finite (add a b).
Proof. destruct a, b; simpl; tauto. Qed.

Lemma finite_sub (a b : number) : finite a -> finite b -> finite (sub a b).
Proof. destruct a, b; simpl; tauto. Qed.

Lemma finite_not_NaN (a : number) : finite a -> isNaN a = false.
Proof. destruct a; simpl; tauto. Qed.

Lemma safe_finiteBounds (b : Bounds) :
  safeBounds b = true -> finiteBounds b.
Proof.
  unfold safeBounds. intros H.
  repeat (apply andb_true_iff in H as [H ?]).
  repeat split; apply safe_finite; assumption.
Qed.

Lemma safe_finiteNumerals (s : string) :
  safeNumerals s = true -> finiteNumerals s.
Proof.
  unfold safeNumerals, finiteNumerals. intros H.
  apply forallb_Forall in H. eapply Forall_impl; [exact H|].
  intros m Hm. apply safe_finite, Hm.
Qed.

Lemma safe_finiteLayer (l : Layer) : safeLayer l = true -> finiteLayer l.
Proof.
  unfold safeLayer, finiteLayer. intros H.
  apply andb_true_iff in H as [Hb Hc].
  split; [|apply safe_finiteNumerals, Hc].
  destruct (bounds l); [apply safe_finiteBounds, Hb|exact I].
Qed.

Lemma safe_finiteLayers (layers : list Layer) :
  forallb safeLayer layers = true -> Forall finiteLayer layers.
Proof.
  intros H. apply forallb_Forall in H. eapply Forall_impl; [exact H|].
  intros l. apply safe_finiteLayer.
Qed.

Lemma goodExtent_step (e : Extent) (px py : Q) :
  goodExtent e ->
  goodExtent (mkExtent (Math_min (eMinX e) (Fin px)) (Math_min (eMinY e) (Fin py))
                       (Math_max (eMaxX e) (Fin px)) (Math_max (eMaxY e) (Fin py))
                       true).
Proof.
  unfold goodExtent. destruct (eHasAny e); simpl.
  - intros (H1 & H2 & H3 & H4).
    repeat split; (apply Math_min_fin || apply Math_max_fin); right; assumption.
  - intros ->. simpl. auto.
Qed.

Lemma pairLoop_good (ms : list string) :
  Forall (fun m => finite (parseFloat m)) ms ->
  (forall e, goodExtent e -> goodExtent (pairLoop ms e))
  /\ (forall m e, finite (parseFloat m) -> goodExtent e ->
                  goodExtent (pairLoop (m :: ms) e)).
Proof.
  induction 1 as [|m' ms Hm' Hms [IH1 IH2]].
  - split; intros; simpl; assumption.
  - split.
    + intros e He. apply IH2; assumption.
    + intros m e Hm He. simpl.
      destruct (parseFloat m) as [| |px|]; try contradiction.
      destruct (parseFloat m') as [| |py|]; try contradiction.
      simpl. apply IH1, goodExtent_step, He.
Qed.

Lemma calculatePathBounds_finite (content : string) :
  finiteNumerals content -> finiteBounds (calculatePathBounds content).
Proof.
  intros Hf. unfold calculatePathBounds.
  pose proof (proj1 (pairLoop_good _ Hf) emptyExtent eq_refl) as H.
  unfold goodExtent in H.
  destruct (eHasAny (pairLoop (matchAllNumbers content) emptyExtent)); simpl.
  - destruct H as (H1 & H2 & H3 & H4).
    repeat split; simpl; auto using finite_sub.
  - repeat split; exact I.
Qed.

Lemma extend_good (e : Extent) (b : Bounds) :
  goodExtent e -> finiteBounds b ->
  goodExtent (extend e b) /\ eHasAny (extend e b) = true.
Proof.
  intros He (Hx & Hy & Hw & Hh). split; [|reflexivity].
  destruct b as [bx by_ w h]. simpl in *.
  destruct bx as [| |bx|], by_ as [| |by_|], w as [| |w|], h as [| |h|];
    try contradiction.
  unfold extend, goodExtent in *. destruct (eHasAny e); simpl.
  - destruct He as (H1 & H2 & H3 & H4).
    repeat split; (apply Math_min_fin || apply Math_max_fin); right; assumption.
  - subst e. simpl. auto.
Qed.

Lemma addLayer_good (e : Extent) (l : Layer) :
  goodExtent e -> finiteLayer l -> goodExtent (addLayer e l).
Proof.
  intros He [Hl Hn]. unfold addLayer in *.
  assert (Hc : goodExtent
                 (if isEmpty (content l) then e
                  else if greaterThan (width (calculatePathBounds (content l))) (Fin 0)
                          || greaterThan (height (calculatePathBounds (content l))) (Fin 0)
                       then extend e (calculatePathBounds (content l))
                       else e)).
  { destruct (isEmpty (content l)); [assumption|].
    destruct (_ || _); [|assumption].
    apply extend_good; [assumption|apply calculatePathBounds_finite, Hn]. }
  destruct (bounds l) as [b|]; cbv beta iota; [|exact Hc].
  destruct (greaterThan (width b) (Fin 0)); [|exact Hc].
  change (default zeroBounds (Some b)) with b.
  apply extend_good; assumption.
Qed.

Lemma fold_addLayer_good (layers : list Layer) (e : Extent) :
  goodExtent e -> Forall finiteLayer layers ->
  goodExtent (fold_left addLayer layers e).
Proof.
  intros He H. revert e He.
  induction H as [|l ls Hl Hls IH]; intros e He; simpl; [assumption|].
  apply IH, addLayer_good; assumption.
Qed.

Lemma addLayer_idle (e : Extent) (l : Layer) :
  contributes l = false -> addLayer e l = e.
Proof.
  unfold contributes, addLayer. intros H.
  apply orb_false_iff in H as [H1 H2]. rewrite H1.
  destruct (isEmpty (content l)) eqn:E; [reflexivity|].
  rewrite ?E in H2. cbn [negb andb] in H2. rewrite H2. reflexivity.
Qed.

Lemma fold_addLayer_idle (layers : list Layer) (e : Extent) :
  Forall (fun l => contributes l = false) layers ->
  fold_left addLayer layers e = e.
Proof.
  induction 1 as [|l ls Hl Hls IH]; simpl; [reflexivity|].
  rewrite (addLayer_idle e l Hl). exact IH.
Qed.

(** The extent after one layer with usable bounds. *)
Lemma getBounds_single (c : string) (b : Bounds) :
  greaterThan (width b) (Fin 0) = true ->
  getBounds [mkLayer c (Some b)]
  = (let e := extend emptyExtent b in
     if strictEq (eMinX e) Infinity then defaultBounds
     else {| x := eMinX e; y := eMinY e;
             width := Math_max (Fin (1 # 10)) (sub (eMaxX e) (eMinX e));
             height := Math_max (Fin (1 # 10)) (sub (eMaxY e) (eMinY e)) |}).
Proof.
  intros H. unfold getBounds. cbn [fold_left].
  unfold addLayer. cbn [bounds]. rewrite H. reflexivity.
Qed.

Lemma Math_max_numEq (a p q : Q) :
  (p == q)%Q -> numEq (Math_max (Fin a) (Fin p)) (Math_max (Fin a) (Fin q)).
Proof.
  intros E. cbn [Math_max lessThan].
  destruct (Qltb_reflect a p), (Qltb_reflect a q); cbn [numEq];
    try reflexivity; try exact E.
  - exfalso. rewrite E in *. contradiction.
  - exfalso. rewrite <- E in *. contradiction.
Qed.

(** C10, as amended. [getBounds] returns the fixed box
    [{0, 0, 100, 100}] when no layer contributes usable bounds or
    content.  When the bounds the layers carry and the numerals of their
    contents are in the safe range, the result is made of finite numbers
    and its width and height are at least 0.1.  The box of a single layer
    with safe bounds of positive width is the layer's box with width and
    height raised to 0.1 where they are smaller. *)
Theorem getBounds_default_and_clamp :
  (forall layers : list Layer,
      Forall (fun l => contributes l = false) layers ->
      getBounds layers = mkBounds (Fin 0) (Fin 0) (Fin 100) (Fin 100))
  /\ (forall layers : list Layer,
        forallb safeLayer layers = true ->
        finiteBounds (getBounds layers)
        /\ lessEq (Fin (1 # 10)) (width (getBounds layers)) = true
        /\ lessEq (Fin (1 # 10)) (height (getBounds layers)) = true)
  /\ (forall (c : string) (b : Bounds),
        safeBounds b = true -> greaterThan (width b) (Fin 0) = true ->
        boundsEq (getBounds [mkLayer c (Some b)])
                 (mkBounds (x b) (y b)
                           (Math_max (Fin (1 # 10)) (width b))
                           (Math_max (Fin (1 # 10)) (height b)))).
Proof.
  split; [|split].
  - intros layers H. unfold getBounds.
    rewrite (fold_addLayer_idle layers emptyExtent H). reflexivity.
  - intros layers H. apply safe_finiteLayers in H. unfold getBounds.
    pose proof (fold_addLayer_good layers emptyExtent eq_refl H) as G.
    unfold goodExtent in G.
    destruct (eHasAny (fold_left addLayer layers emptyExtent)); simpl.
    + destruct G as (H1 & H2 & H3 & H4).
      destruct (eMinX _) as [| |mx|]; try contradiction.
      destruct (eMinY _) as [| |my|]; try contradiction.
      destruct (eMaxX _) as [| |Mx|]; try contradiction.
      destruct (eMaxY _) as [| |My|]; try contradiction.
      cbn [strictEq width height x y].
      split; [|split; apply le_Math_max_l; discriminate].
      unfold finiteBounds. cbn [x y width height sub add neg].
      split; [exact I|]. split; [exact I|].
      split; destruct (Qltb _ _); exact I.
    + repeat split.
  - intros c b Hs Hw. rewrite (getBounds_single c b Hw).
    apply safe_finiteBounds in Hs. destruct Hs as (Hx & Hy & Hwd & Hh).
    destruct b as [bx by_ bw bh]. cbn [x y width height] in *.
    destruct bx as [| |bx|], by_ as [| |by_|], bw as [| |bw|],
             bh as [| |bh|]; try contradiction.
    cbv zeta. unfold extend, emptyExtent.
    cbn [eMinX eMinY eMaxX eMaxY x y width height add sub neg
         Math_min Math_max lessThan strictEq].
    unfold boundsEq. cbn [x y width height].
    split; [reflexivity|]. split; [reflexivity|].
    split; apply Math_max_numEq; ring.
Qed.

Lemma getBounds_default_and_clamp_witness :
  getBounds [mkLayer "" None; mkLayer "M1 1" (Some zeroBounds)]
  = mkBounds (Fin 0) (Fin 0) (Fin 100) (Fin 100)
  /\ (finiteBounds (getBounds [mkLayer "M0 0 L5 0" None])
      /\ lessEq (Fin (1 # 10)) (width (getBounds [mkLayer "M0 0 L5 0" None]))
         = true
      /\ lessEq (Fin (1 # 10)) (height (getBounds [mkLayer "M0 0 L5 0" None]))
         = true)
  /\ boundsEq
       (getBounds [mkLayer "" (Some (mkBounds (Fin 1) (Fin 2) (Fin 5)
                                              (Fin (1 # 20))))])
       (mkBounds (Fin 1) (Fin 2) (Fin 5) (Fin (1 # 10))).
Proof.
  split; [|split].
  - apply (proj1 getBounds_default_and_clamp).
    repeat constructor.
  - apply (proj1 (proj2 getBounds_default_and_clamp)).
    vm_compute. reflexivity.
  - apply (proj2 (proj2 getBounds_default_and_clamp)
             "" (mkBounds (Fin 1) (Fin 2) (Fin 5) (Fin (1 # 20)))).
    + vm_compute. reflexivity.
    + reflexivity.
Defined.

(** C10, as stated for every non-empty result, fails where a number is
    missing: a layer whose bounds carry a height that is not a number
    gives a box with that height, and a layer without bounds whose
    content has a numeral beyond the range of the host's numbers gives a
    box whose width is not a number. *)
Lemma getBounds_clamp_counterexample :
  getBounds [mkLayer "" (Some (mkBounds (Fin 0) (Fin 0) (Fin 5) NaN))]
  = mkBounds (Fin 0) (Fin 0) (Fin 5) NaN
  /\ calculatePathBounds overflowingPath
     = mkBounds NegInfinity (Fin 0) NaN (Fin (5 + - 0))
  /\ width (getBounds [mkLayer overflowingPath None]) = NaN
  /\ lessEq (Fin (1 # 10)) NaN = false.
Proof. vm_compute; repeat split. Qed.

End GetBoundsFacts.

(** ** The path plotter of [GerberToPath.convert] *)

Module PlotterFacts.
Import GerberToPath.

Local Open Scope Q_scope.

Lemma Math_sqrt_fin (q : Q) : 0 <= q -> Math_sqrt (Fin q) = Fin (Qsqrt q).
Proof.
  intros H. unfold Math_sqrt.
  rewrite (proj2 (Qltb_ge q 0) H). reflexivity.
Qed.

Lemma div_fin (p q : Q) : ~ q == 0 -> div (Fin p) (Fin q) = Fin (p / q).
Proof.
  intros H. unfold div.
  destruct (Qeq_bool q 0) eqn:E; [|reflexivity].
  apply Qeq_bool_iff in E. contradiction.
Qed.

Lemma truthy_fin (w : Q) : ~ w == 0 -> truthy (Fin w) = true.
Proof.
  intros H. unfold truthy.
  destruct (Qeq_bool w 0) eqn:E; [|reflexivity].
  apply Qeq_bool_iff in E. contradiction.
Qed.

Lemma square_sum_nonneg (a b : Q) : 0 <= a * a + b * b.
Proof. nra. Qed.

(** The draw branch of a registered aperture, past the degeneracy test:
    the four corners and the re-centring move. *)
Lemma drawTrack_registered (apertures : gmap string number) (tool : string)
    (w lx ly cx cy : Q) :
  apertures !! tool = Some (Fin w) -> 0 < w ->
  let dx := cx - lx in
  let dy := cy - ly in
  let len := Qsqrt (dx * dx + dy * dy) in
  1 # 1000 < len ->
  let nx := - dy / len * (w / 2) in
  let ny := dx / len * (w / 2) in
  drawTrack apertures tool (Fin lx) (Fin ly) (Fin cx) (Fin cy)
  = [closedPolygon (lx + nx) (ly + ny) (cx + nx) (cy + ny)
                   (cx - nx) (cy - ny) (lx - nx) (ly - ny);
     moveCommand cx cy].
Proof.
  intros Hl Hw dx dy len Hlen nx ny.
  unfold drawTrack. rewrite Hl.
  assert (Hw0 : ~ w == 0) by (intros E; rewrite E in Hw; discriminate).
  unfold orDefault. rewrite (truthy_fin w Hw0).
  change (sub (Fin cx) (Fin lx)) with (Fin dx).
  change (sub (Fin cy) (Fin ly)) with (Fin dy).
  cbn [neg add mul].
  rewrite Math_sqrt_fin by apply square_sum_nonneg.
  change (Qsqrt (dx * dx + dy * dy)) with len.
  assert (Hgt : greaterThan (Fin len) (Fin (1 # 1000)) = true)
    by (apply Qltb_lt; exact Hlen).
  rewrite Hgt.
  assert (Hlen0 : ~ len == 0) by (intros E; rewrite E in Hlen; discriminate).
  rewrite !div_fin by (assumption || discriminate).
  cbn [sub neg add mul].
  assert (Hgw : greaterThan (Fin w) (Fin 0) = true) by (apply Qltb_lt; exact Hw).
  rewrite Hgw. reflexivity.
Qed.

(** The normal is perpendicular to the segment and, when the square root
    is exact, has half the aperture diameter as its length. *)
Lemma normal_perpendicular (dx dy len w : Q) :
  ~ len == 0 ->
  let nx := - dy / len * (w / 2) in
  let ny := dx / len * (w / 2) in
  nx * dx + ny * dy == 0
  /\ (len * len == dx * dx + dy * dy ->
      nx * nx + ny * ny == (w / 2) * (w / 2)).
Proof.
  intros Hlen nx ny. subst nx ny. split.
  - field. exact Hlen.
  - intros Hsq.
    assert (E : (- dy / len * (w / 2)) * (- dy / len * (w / 2))
                + (dx / len * (w / 2)) * (dx / len * (w / 2))
                == (dx * dx + dy * dy) / (len * len) * ((w / 2) * (w / 2)))
      by (field; exact Hlen).
    rewrite E, <- Hsq. field. exact Hlen.
Qed.

(** C3. A draw under a registered circular aperture of diameter [w],
    from the previous point to the current one, emits the closed polygon
    whose corners are the two endpoints displaced by plus and minus the
    normal [(nx, ny)]: perpendicular to the segment and of length [w / 2].
    The stroke from (0,0) to (10,0) with a 1 mm aperture is the rectangle
    with corners (0, 0.5), (10, 0.5), (10, -0.5), (0, -0.5). *)
Theorem draw_emits_offset_rectangle :
  (forall (apertures : gmap string number) (tool : string)
          (w lx ly cx cy : Q),
      apertures !! tool = Some (Fin w) -> 0 < w ->
      let dx := cx - lx in
      let dy := cy - ly in
      let len := Qsqrt (dx * dx + dy * dy) in
      1 # 1000 < len ->
      let nx := - dy / len * (w / 2) in
      let ny := dx / len * (w / 2) in
      emitPath apertures tool false false true (Fin lx) (Fin ly) 1
               (Fin cx) (Fin cy)
      = ([closedPolygon (lx + nx) (ly + ny) (cx + nx) (cy + ny)
                        (cx - nx) (cy - ny) (lx - nx) (ly - ny);
          moveCommand cx cy],
         false, Fin cx, Fin cy, true)
      /\ nx * dx + ny * dy == 0
      /\ (len * len == dx * dx + dy * dy ->
          nx * nx + ny * ny == (w / 2) * (w / 2)))
  /\ fst (convert strokeSample)
     = "M0.000 0.000 M0.000 0.500 L10.000 0.500 L10.000 -0.500 L0.000 -0.500 Z M10.000 0.000".
Proof.
  split; [|vm_compute; reflexivity].
  intros apertures tool w lx ly cx cy Hl Hw dx dy len Hlen nx ny.
  split.
  - unfold emitPath. cbn [Z.eqb Pos.eqb orb negb].
    rewrite (drawTrack_registered apertures tool w lx ly cx cy Hl Hw Hlen).
    reflexivity.
  - apply normal_perpendicular.
    intros E. rewrite E in Hlen. discriminate.
Qed.

Lemma draw_emits_offset_rectangle_witness :
  parseApertures strokeSample !! "10" = Some (Fin 1.0)
  /\ 0 < 1.0
  /\ 1 # 1000 < Qsqrt ((10 - 0) * (10 - 0) + (0 - 0) * (0 - 0))
  /\ fst (fst (fst (fst
        (emitPath (parseApertures strokeSample) "10" false false true
                  (Fin 0) (Fin 0) 1 (Fin 10) (Fin 0)))))
     = ["M0.000 0.500 L10.000 0.500 L10.000 -0.500 L0.000 -0.500 Z ";
        "M10.000 0.000 "].
Proof.
  assert (H1 : parseApertures strokeSample !! "10" = Some (Fin 1.0))
    by (vm_compute; reflexivity).
  assert (H2 : 0 < 1.0) by reflexivity.
  assert (H3 : 1 # 1000 < Qsqrt ((10 - 0) * (10 - 0) + (0 - 0) * (0 - 0)))
    by (vm_compute; reflexivity).
  split; [exact H1|split; [exact H2|split; [exact H3|]]].
  rewrite (proj1 (proj1 draw_emits_offset_rectangle
                    (parseApertures strokeSample) "10" 1.0 0 0 10 0
                    H1 H2 H3)).
  vm_compute. reflexivity.
Defined.

(** Below the degeneracy threshold no rectangle is synthesized. *)
Lemma drawTrack_degenerate (apertures : gmap string number) (tool : string)
    (lx ly cx cy : Q) :
  let dx := cx - lx in
  let dy := cy - ly in
  Qsqrt (dx * dx + dy * dy) <= 1 # 1000 ->
  drawTrack apertures tool (Fin lx) (Fin ly) (Fin cx) (Fin cy)
  = [lineCommand cx cy].
Proof.
  intros dx dy Hlen. unfold drawTrack.
  change (sub (Fin cx) (Fin lx)) with (Fin dx).
  change (sub (Fin cy) (Fin ly)) with (Fin dy).
  cbn [add mul].
  rewrite Math_sqrt_fin by apply square_sum_nonneg.
  assert (Hgt : greaterThan (Fin (Qsqrt (dx * dx + dy * dy))) (Fin (1 # 1000)) = false)
    by (apply Qltb_ge; exact Hlen).
  rewrite Hgt. reflexivity.
Qed.

(** C6, as amended. A draw whose segment is not longer than the
    degeneracy threshold 0.001 synthesizes no stroke rectangle: it emits
    one line-to command to the current point. *)
Theorem degenerate_draw_emits_line
    (apertures : gmap string number) (tool : string) (lx ly cx cy : Q) :
  Qsqrt ((cx - lx) * (cx - lx) + (cy - ly) * (cy - ly)) <= 1 # 1000 ->
  emitPath apertures tool false false true (Fin lx) (Fin ly) 1
           (Fin cx) (Fin cy)
  = ([lineCommand cx cy], false, Fin cx, Fin cy, true).
Proof.
  intros Hlen. unfold emitPath. cbn [Z.eqb Pos.eqb orb negb].
  rewrite (drawTrack_degenerate apertures tool lx ly cx cy Hlen).
  reflexivity.
Qed.

Lemma degenerate_draw_emits_line_witness :
  Qsqrt ((1 - 1) * (1 - 1) + (1 - 1) * (1 - 1)) <= 1 # 1000
  /\ emitPath (parseApertures degenerateSample) "10" false false true
              (Fin 1) (Fin 1) 1 (Fin 1) (Fin 1)
     = (["L1.000 1.000 "], false, Fin 1, Fin 1, true).
Proof.
  assert (H : Qsqrt ((1 - 1) * (1 - 1) + (1 - 1) * (1 - 1)) <= 1 # 1000)
    by (vm_compute; discriminate).
  split; [exact H|].
  rewrite (degenerate_draw_emits_line
             (parseApertures degenerateSample) "10" 1 1 1 1 H).
  vm_compute. reflexivity.
Defined.

(** C6, as stated, fails: the zero-length draw of the sample adds a
    line-to command to the path instead of being skipped. *)
Lemma degenerate_draw_counterexample :
  fst (convert degenerateSample) = "M1.000 1.000 L1.000 1.000"
  /\ fst (fst (fst (fst
        (emitPath (parseApertures degenerateSample) "10" false false true
                  (Fin 1) (Fin 1) 1 (Fin 1) (Fin 1)))))
     <> [].
Proof.
  split; [vm_compute; reflexivity|].
  vm_compute. discriminate.
Qed.

(** A draw under a tool without a registered aperture emits a plain
    line, whatever the length of the segment. *)
Lemma drawTrack_unregistered (apertures : gmap string number) (tool : string)
    (lx ly cx cy : Q) :
  apertures !! tool = None ->
  drawTrack apertures tool (Fin lx) (Fin ly) (Fin cx) (Fin cy)
  = [lineCommand cx cy].
Proof.
  intros Hl. unfold drawTrack. rewrite Hl.
  cbn [orDefault].
  change (greaterThan (Fin 0) (Fin 0)) with false. cbv iota.
  destruct (greaterThan _ _); reflexivity.
Qed.

Lemma emitPath_draw_unregistered (apertures : gmap string number)
    (tool : string) (fm rm hlp : bool) (lx ly cx cy : Q) :
  apertures !! tool = None ->
  fst (fst (fst (fst
    (emitPath apertures tool fm rm hlp (Fin lx) (Fin ly) 1 (Fin cx) (Fin cy)))))
  = [if fm || negb hlp then moveCommand cx cy else lineCommand cx cy].
Proof.
  intros Hl. unfold emitPath. cbn [Z.eqb Pos.eqb].
  destruct fm, rm, hlp; cbn [orb negb fst];
    rewrite ?(drawTrack_unregistered apertures tool lx ly cx cy Hl);
    reflexivity.
Qed.

(** A flash under a tool without a registered aperture stamps a pad of
    the default diameter 0.4. *)
Lemma emitPath_flash_unregistered (apertures : gmap string number)
    (tool : string) (fm rm hlp : bool) (lx ly : number) (cx cy : Q) :
  apertures !! tool = None ->
  fst (fst (fst (fst
    (emitPath apertures tool fm rm hlp lx ly 3 (Fin cx) (Fin cy)))))
  = [circlePad cx cy ((4 # 10) / 2)].
Proof.
  intros Hl. unfold emitPath, flashPad. cbn [Z.eqb Pos.eqb fst].
  rewrite Hl. reflexivity.
Qed.

(** C4, the defect. The flash of the sample, a 1 mm circular aperture at
    (3, 4), stamps a pad from 2.5 to 3.5, but the bounding box that
    [convert] returns is the centre alone: the box is fed by the
    coordinates only. *)
Theorem flash_bounds_are_centre_only :
  fst (convert flashSample)
  = "M2.500 4.000 A0.500 0.500 0 1 0 3.500 4.000 A0.500 0.500 0 1 0 2.500 4.000 Z"
  /\ boundsEq (snd (convert flashSample))
              (mkBounds (Fin 3) (Fin 4) (Fin 0) (Fin 0)).
Proof.
  split; [vm_compute; reflexivity|].
  vm_compute. repeat split; reflexivity.
Qed.

(** C5, the defect. In incremental mode the sample moves to x = 1 and
    flashes twice with the delta 1: the first flash is at x = 2, and the
    second, which should be at x = 3, is at x = 1, because the flash
    before it set [isFirstMove] again and its delta was taken as an
    absolute coordinate. *)
Theorem incremental_after_flash_is_absolute :
  isIncrementalText incrementalSample = true
  /\ fst (convert incrementalSample)
     = "M1.000 0.000 M1.800 0.000 A0.200 0.200 0 1 0 2.200 0.000 A0.200 0.200 0 1 0 1.800 0.000 Z M0.800 0.000 A0.200 0.200 0 1 0 1.200 0.000 A0.200 0.200 0 1 0 0.800 0.000 Z"
  /\ numEq (currentX (runBlocks incrementalSample)) (Fin 1).
Proof.
  split; [vm_compute; reflexivity|].
  split; [vm_compute; reflexivity|].
  vm_compute. reflexivity.
Qed.

End PlotterFacts.

(** ** The command-list renderer *)

Module RendererFacts.
Import CustomParser.

Section Host.

Variable Math_atan2 : number -> number -> number.
Variable Math_PI : number.

Let interpolate := interpolate Math_atan2 Math_PI.
Let flash := flash.
Let step := step Math_atan2 Math_PI.
Let render := renderGerberWithCustomParser Math_atan2 Math_PI.

Lemma toolObjOf_unregistered (st : State) (t : string) :
  currentTool st = Some t -> tools st !! t = None -> toolObjOf st = None.
Proof.
  intros Hc Ht. unfold toolObjOf. rewrite Hc, Ht.
  destruct (isEmpty t); reflexivity.
Qed.

(** A linear draw outside a region under an unknown tool is a line of
    the default width 0.1. *)
Lemma interpolate_unregistered (st : State) (t : string)
    (px py i j : number) :
  currentTool st = Some t -> tools st !! t = None ->
  isRegion st = false -> interpolationMode st = ModeI ->
  interpolate px py i j st
  = emit (lineElement st (currentX st) (currentY st) px py (Fin (1 # 10))) st.
Proof.
  intros Hc Ht Hr Hm.
  unfold interpolate, CustomParser.interpolate, strokeWidth.
  rewrite Hr, Hm, (toolObjOf_unregistered st t Hc Ht). reflexivity.
Qed.

(** A flash under an unknown tool is skipped: nothing is emitted and the
    current point stays where it was. *)
Lemma step_flash_unregistered (st : State) (t : string) (c : Coord) :
  currentTool st = Some t -> tools st !! t = None ->
  step st (OpCmd OpFlash c)
  = updateBounds (toMM st (default (currentX st) (coordX c)))
                 (toMM st (default (currentY st) (coordY c))) st.
Proof.
  intros Hc Ht. unfold step, CustomParser.step, CustomParser.flash.
  set (st1 := updateBounds _ _ st).
  assert (E : toolObjOf st1 = None)
    by (apply (toolObjOf_unregistered st1 t); assumption).
  rewrite E. reflexivity.
Qed.

Lemma updateBounds_from_sentinel (st : State) (p q : Q) :
  minX st = Infinity -> minY st = Infinity ->
  maxX st = NegInfinity -> maxY st = NegInfinity ->
  let st' := updateBounds (Fin p) (Fin q) st in
  minX st' = Fin p /\ minY st' = Fin q /\ maxX st' = Fin p /\ maxY st' = Fin q.
Proof.
  intros H1 H2 H3 H4. unfold updateBounds. simpl.
  rewrite H1, H2, H3, H4. simpl. auto.
Qed.

(** The flash of a circular aperture: the pad and the two corner updates
    of the bounding box. *)
Lemma flash_circle (st : State) (t : string) (d : Q) (px py : number) :
  currentTool st = Some t -> isEmpty t = false ->
  tools st !! t = Some (circleTool d) ->
  macros st !! "circle" = None ->
  exists svg,
    CustomParser.flash px py st
    = Some (updateBounds
              (add (toMM st px) (toMM st (Fin (d / 2))))
              (add (toMM st py) (toMM st (Fin (d / 2))))
              (updateBounds
                 (sub (toMM st px) (toMM st (Fin (d / 2))))
                 (sub (toMM st py) (toMM st (Fin (d / 2))))
                 (emit svg st))).
Proof.
  intros Hc He Ht Hm. unfold CustomParser.flash, toolObjOf.
  rewrite Hc, He, Ht. cbn [shape circleTool params]. rewrite Hm.
  cbn [String.eqb Ascii.eqb Bool.eqb param nth].
  eexists. reflexivity.
Qed.

End Host.

(** The state after a tool definition and its selection. *)
Lemma selected_tool_state (code : string) (d : Q) :
  let st := step noAtan2 noPI
              (step noAtan2 noPI initialState (ToolCmd code (circleTool d)))
              (SetTool code) in
  currentTool st = Some code
  /\ tools st !! code = Some (circleTool d)
  /\ macros st !! "circle" = None
  /\ unitScale st = Fin 1
  /\ minX st = Infinity /\ minY st = Infinity
  /\ maxX st = NegInfinity /\ maxY st = NegInfinity.
Proof.
  cbv zeta. repeat split. cbn [step tools]. apply lookup_insert_eq.
Qed.

(** Three updates of a minimum and of a maximum from the sentinels:
    the centre, the low corner and the high corner. *)
Lemma min_of_three (a lo hi : Q) :
  (lo <= a)%Q -> (lo <= hi)%Q ->
  exists m,
    (let m1 := if lessThan (Fin a) Infinity then Fin a else Infinity in
     let m2 := if lessThan (Fin lo) m1 then Fin lo else m1 in
     if lessThan (Fin hi) m2 then Fin hi else m2) = Fin m
    /\ (m == lo)%Q.
Proof.
  intros H1 H2. cbn [lessThan].
  repeat match goal with
         | |- context [Qltb ?u ?v] => destruct (Qltb_reflect u v); cbn [lessThan]
         end;
    eexists; (split; [reflexivity|]); lra.
Qed.

Lemma max_of_three (a lo hi : Q) :
  (a <= hi)%Q -> (lo <= hi)%Q ->
  exists m,
    (let m1 := if greaterThan (Fin a) NegInfinity then Fin a else NegInfinity in
     let m2 := if greaterThan (Fin lo) m1 then Fin lo else m1 in
     if greaterThan (Fin hi) m2 then Fin hi else m2) = Fin m
    /\ (m == hi)%Q.
Proof.
  intros H1 H2. unfold greaterThan. cbn [lessThan].
  repeat match goal with
         | |- context [Qltb ?u ?v] => destruct (Qltb_reflect u v); cbn [lessThan]
         end;
    eexists; (split; [reflexivity|]); lra.
Qed.

(** The sibling of C4: in the command-list renderer a flash of a
    circular aperture of diameter [d] at [(px, py)], alone in its layer,
    gives the box [{px - d/2, py - d/2, d, d}]. *)
Lemma renderer_flash_bounds (code : string) (d px py : Q) :
  isEmpty code = false -> (0 <= d)%Q ->
  boundsEq
    (snd (renderGerberWithCustomParser noAtan2 noPI
            [ToolCmd code (circleTool d); SetTool code;
             OpCmd OpFlash (coordXY px py)]))
    (mkBounds (Fin (px - d / 2)) (Fin (py - d / 2)) (Fin d) (Fin d)).
Proof.
  intros Hcode Hd.
  unfold renderGerberWithCustomParser. cbn [fold_left snd].
  destruct (selected_tool_state code d)
    as (Hc & Ht & Hm & Hu & H1 & H2 & H3 & H4).
  set (st2 := step noAtan2 noPI (step noAtan2 noPI initialState _) _) in *.
  unfold step at 1. cbn [coordXY coordX coordY default from_option id].
  set (st3 := updateBounds _ _ st2).
  destruct (flash_circle st3 code d (Fin px) (Fin py) Hc Hcode Ht Hm)
    as [svg ->].
  assert (Hu3 : unitScale st3 = Fin 1) by exact Hu.
  unfold toMM. rewrite Hu3. cbn [mul add sub neg].
  destruct (min_of_three (px * 1) (px * 1 + - (d / 2 * 1))
                         (px * 1 + d / 2 * 1))
    as (mx & Emx & Hmx); [qlra|qlra|].
  destruct (min_of_three (py * 1) (py * 1 + - (d / 2 * 1))
                         (py * 1 + d / 2 * 1))
    as (my & Emy & Hmy); [qlra|qlra|].
  destruct (max_of_three (px * 1) (px * 1 + - (d / 2 * 1))
                         (px * 1 + d / 2 * 1))
    as (Mx & EMx & HMx); [qlra|qlra|].
  destruct (max_of_three (py * 1) (py * 1 + - (d / 2 * 1))
                         (py * 1 + d / 2 * 1))
    as (My & EMy & HMy); [qlra|qlra|].
  cbv zeta in Emx, Emy, EMx, EMy.
  unfold finalBounds.
  change (minX (moveTo _ _ (updateBounds ?a ?b (updateBounds ?c ?e (emit _ st3)))))
    with (if lessThan a (if lessThan c (minX st3) then c else minX st3) then a
          else if lessThan c (minX st3) then c else minX st3).
  change (minY (moveTo _ _ (updateBounds ?a ?b (updateBounds ?c ?e (emit _ st3)))))
    with (if lessThan b (if lessThan e (minY st3) then e else minY st3) then b
          else if lessThan e (minY st3) then e else minY st3).
  change (maxX (moveTo _ _ (updateBounds ?a ?b (updateBounds ?c ?e (emit _ st3)))))
    with (if greaterThan a (if greaterThan c (maxX st3) then c else maxX st3) then a
          else if greaterThan c (maxX st3) then c else maxX st3).
  change (maxY (moveTo _ _ (updateBounds ?a ?b (updateBounds ?c ?e (emit _ st3)))))
    with (if greaterThan b (if greaterThan e (maxY st3) then e else maxY st3) then b
          else if greaterThan e (maxY st3) then e else maxY st3).
  change (minX st3)
    with (if lessThan (mul (Fin px) (unitScale st2)) (minX st2)
          then mul (Fin px) (unitScale st2) else minX st2).
  change (minY st3)
    with (if lessThan (mul (Fin py) (unitScale st2)) (minY st2)
          then mul (Fin py) (unitScale st2) else minY st2).
  change (maxX st3)
    with (if greaterThan (mul (Fin px) (unitScale st2)) (maxX st2)
          then mul (Fin px) (unitScale st2) else maxX st2).
  change (maxY st3)
    with (if greaterThan (mul (Fin py) (unitScale st2)) (maxY st2)
          then mul (Fin py) (unitScale st2) else maxY st2).
  rewrite Hu, H1, H2, H3, H4. cbn [mul].
  rewrite Emx, Emy, EMx, EMy.
  cbn [strictEq]. unfold boundsEq. cbn [x y width height numEq sub add neg].
  repeat split; qlra.
Qed.

End RendererFacts.

(** ** Unregistered apertures *)

Module ApertureFallback.
Import GerberToPath.

(** [convert] on a whole input whose tool 11 is selected but never
    defined: the draw is a plain line command, the flash a pad of
    diameter 0.4. *)
Example convert_unregistered_sample :
  fst (convert unregisteredSample)
  = "M1.000 1.000 L3.000 1.000 M2.800 2.000 A0.200 0.200 0 1 0 3.200 2.000 A0.200 0.200 0 1 0 2.800 2.000 Z".
Proof. vm_compute. reflexivity. Qed.

(** C8, as amended. Under a tool that has no registered aperture:
    a draw of [convert] emits a plain move or line command to the current
    point; a flash of [convert] stamps a pad of the default diameter 0.4;
    a linear draw of the command-list renderer is a line of the default
    width 0.1; a flash of the command-list renderer is skipped, it emits
    nothing and leaves the current point where it was. *)
Theorem unregistered_aperture_fallback :
  (forall (apertures : gmap string number) (tool : string)
          (fm rm hlp : bool) (lx ly cx cy : Q),
      apertures !! tool = None ->
      fst (fst (fst (fst
        (emitPath apertures tool fm rm hlp (Fin lx) (Fin ly) 1
                  (Fin cx) (Fin cy)))))
      = [if fm || negb hlp then moveCommand cx cy else lineCommand cx cy])
  /\ (forall (apertures : gmap string number) (tool : string)
             (fm rm hlp : bool) (lx ly : number) (cx cy : Q),
        apertures !! tool = None ->
        fst (fst (fst (fst
          (emitPath apertures tool fm rm hlp lx ly 3 (Fin cx) (Fin cy)))))
        = [circlePad cx cy ((4 # 10) / 2)])
  /\ (forall (Math_atan2 : number -> number -> number) (Math_PI : number)
             (st : CustomParser.State) (t : string) (px py i j : number),
        CustomParser.currentTool st = Some t ->
        CustomParser.tools st !! t = None ->
        CustomParser.isRegion st = false ->
        CustomParser.interpolationMode st = CustomParser.ModeI ->
        CustomParser.interpolate Math_atan2 Math_PI px py i j st
        = CustomParser.emit
            (lineElement st (CustomParser.currentX st)
                         (CustomParser.currentY st) px py (Fin (1 # 10)))
            st)
  /\ (forall (Math_atan2 : number -> number -> number) (Math_PI : number)
             (st : CustomParser.State) (t : string)
             (c : CustomParser.Coord),
        CustomParser.currentTool st = Some t ->
        CustomParser.tools st !! t = None ->
        let st' := CustomParser.step Math_atan2 Math_PI st
                     (CustomParser.OpCmd CustomParser.OpFlash c) in
        CustomParser.svgContent st' = CustomParser.svgContent st
        /\ CustomParser.currentX st' = CustomParser.currentX st
        /\ CustomParser.currentY st' = CustomParser.currentY st).
Proof.
  split; [|split; [|split]].
  - apply PlotterFacts.emitPath_draw_unregistered.
  - apply PlotterFacts.emitPath_flash_unregistered.
  - intros. eapply RendererFacts.interpolate_unregistered; eassumption.
  - intros Math_atan2 Math_PI st t c Hc Ht st'. subst st'.
    rewrite (RendererFacts.step_flash_unregistered
               Math_atan2 Math_PI st t c Hc Ht).
    repeat split; reflexivity.
Qed.

Lemma unregistered_aperture_fallback_witness :
  parseApertures unregisteredSample !! "11" = None
  /\ CustomParser.currentTool unknownToolState = Some "11"
  /\ CustomParser.tools unknownToolState !! "11" = None
  /\ fst (fst (fst (fst
       (emitPath (parseApertures unregisteredSample) "11" false false true
                 (Fin 1) (Fin 1) 1 (Fin 3) (Fin 1)))))
     = ["L3.000 1.000 "]
  /\ fst (fst (fst (fst
       (emitPath (parseApertures unregisteredSample) "11" false false true
                 (Fin 3) (Fin 1) 3 (Fin 3) (Fin 2)))))
     = ["M2.800 2.000 A0.200 0.200 0 1 0 3.200 2.000 A0.200 0.200 0 1 0 2.800 2.000 Z "]
  /\ CustomParser.svgContent
       (CustomParser.interpolate noAtan2 noPI (Fin 3) (Fin 4) (Fin 0) (Fin 0)
                                 unknownToolState)
     = lineElement unknownToolState (Fin 0) (Fin 0) (Fin 3) (Fin 4)
                   (Fin (1 # 10))
  /\ CustomParser.svgContent
       (CustomParser.step noAtan2 noPI unknownToolState
          (CustomParser.OpCmd CustomParser.OpFlash (coordXY 3 4)))
     = "".
Proof.
  assert (H : parseApertures unregisteredSample !! "11" = None)
    by (vm_compute; reflexivity).
  assert (Hc : CustomParser.currentTool unknownToolState = Some "11")
    by reflexivity.
  assert (Ht : CustomParser.tools unknownToolState !! "11" = None)
    by reflexivity.
  destruct unregistered_aperture_fallback as (T1 & T2 & T3 & T4).
  split; [exact H|]. split; [exact Hc|]. split; [exact Ht|].
  split.
  { rewrite (T1 _ "11" false false true 1%Q 1%Q 3%Q 1%Q H).
    vm_compute. reflexivity. }
  split.
  { rewrite (T2 _ "11" false false true (Fin 3) (Fin 1) 3%Q 2%Q H).
    vm_compute. reflexivity. }
  split.
  { rewrite (T3 noAtan2 noPI unknownToolState "11"
               (Fin 3) (Fin 4) (Fin 0) (Fin 0) Hc Ht eq_refl eq_refl).
    reflexivity. }
  { apply (T4 noAtan2 noPI unknownToolState "11" (coordXY 3 4) Hc Ht). }
Defined.

(** C8, as stated, fails for the flash of the command-list renderer:
    under an unknown tool it emits no geometry at all. *)
Lemma unregistered_flash_counterexample :
  fst (CustomParser.renderGerberWithCustomParser noAtan2 noPI
         [CustomParser.SetTool "11";
          CustomParser.OpCmd CustomParser.OpFlash (coordXY 3 4)])
  = "<g></g>".
Proof. vm_compute. reflexivity. Qed.

End ApertureFallback.

(** ** Coordinate decoding *)

Module DecodingFacts.
Import GerberToPath.

Lemma findFirst_some {A : Type} (f : string -> option A) (s : string) (a : A) :
  findFirst f s = Some a -> exists s', f s' = Some a.
Proof.
  induction s as [|c r IH]; simpl.
  - destruct (f "") eqn:E; [|discriminate]. intros [= <-]. eauto.
  - destruct (f (String c r)) eqn:E.
    + intros [= <-]. eauto.
    + exact IH.
Qed.

Lemma findLast_some {A : Type} (f : string -> option A) (s : string) (a : A) :
  findLast f s = Some a -> exists s', f s' = Some a.
Proof.
  induction s as [|c r IH]; simpl.
  - eauto.
  - destruct (findLast f r) eqn:E.
    + intros [= <-]. apply IH. reflexivity.
    + eauto.
Qed.

Lemma parseInt_digit (d : ascii) :
  isDigit d = true ->
  exists k, parseInt (digitString d) = Some k /\ digitCount k.
Proof.
  intros H. unfold digitCount.
  destruct d as [[] [] [] [] [] [] [] []]; try discriminate H;
    vm_compute; eexists; (split; [reflexivity|split; discriminate]).
Qed.

Lemma powerOfTen_digit (d : ascii) :
  isDigit d = true ->
  exists k, digitCount k /\ powerOfTen (digitString d) = Math_pow 10 k.
Proof.
  intros H. destruct (parseInt_digit d H) as (k & E & Hk).
  exists k. split; [exact Hk|]. unfold powerOfTen. rewrite E. reflexivity.
Qed.

Lemma matchXdd_digit (s : string) (d : ascii) :
  matchXdd s = Some d -> isDigit d = true.
Proof.
  unfold matchXdd.
  destruct s as [|cx [|d3 [|d4 r]]]; try discriminate.
  destruct (_ && _) eqn:E; [|discriminate].
  intros [= <-]. apply andb_true_iff in E. tauto.
Qed.

Lemma matchXddYdd_digit (s : string) (d : ascii) :
  matchXddYdd s = Some d -> isDigit d = true.
Proof.
  unfold matchXddYdd.
  destruct s as [|cx [|d1 [|d2 [|cy [|d3 [|d4 r]]]]]]; try discriminate.
  destruct (_ && _) eqn:E; [|discriminate].
  intros [= <-].
  repeat (apply andb_true_iff in E as [E ?]). assumption.
Qed.

Lemma matchFS_digit (s : string) (fs : FormatSpec) :
  matchFS s = Some fs -> isDigit (fsDecimalDigit fs) = true.
Proof.
  unfold matchFS. destruct (startsWith "%FS" s); [|discriminate].
  destruct (drop 3 s) as [|z [|m [|cx [|d3 [|d4 [|cy [|d5 [|d6 [|st [|pc r]]]]]]]]]];
    try discriminate.
  destruct (_ && _) eqn:E; [|discriminate].
  intros [= <-]. simpl.
  repeat (apply andb_true_iff in E as [E ?]). assumption.
Qed.

Lemma matchSimpleFS_digit (s : string) (fs : FormatSpec) :
  matchSimpleFS s = Some fs -> isDigit (fsDecimalDigit fs) = true.
Proof.
  unfold matchSimpleFS. destruct (startsWith "%FS" s); [|discriminate].
  destruct (drop 3 s) as [|z [|m r]]; try discriminate.
  destruct (_ && _); [|discriminate].
  destruct (findLast matchXdd _) as [d|] eqn:E; [|discriminate].
  intros [= <-]. simpl.
  apply findLast_some in E as [s' E]. eapply matchXdd_digit, E.
Qed.

Lemma findFormatSpec_digit (text : string) (fs : FormatSpec) :
  findFormatSpec text = Some fs -> isDigit (fsDecimalDigit fs) = true.
Proof.
  unfold findFormatSpec.
  destruct (findFirst matchFS text) as [fs'|] eqn:E.
  - intros [= <-]. apply findFirst_some in E as [s' E].
    eapply matchFS_digit, E.
  - intros E'. apply findFirst_some in E' as [s' E'].
    eapply matchSimpleFS_digit, E'.
Qed.

(** The divisor [convert] starts with is ten to the declared digit, and
    ten to the sixth without a format specification. *)
Lemma initialDivisor_power (text : string) :
  exists k, digitCount k /\ initialDivisor text = Math_pow 10 k
            /\ decimalPlaces text = Some k
            /\ (findFormatSpec text = None -> k = 6%Z).
Proof.
  unfold initialDivisor, decimalPlaces.
  destruct (findFormatSpec text) as [fs|] eqn:E.
  - destruct (parseInt_digit _ (findFormatSpec_digit text fs E))
      as (k & Ek & Hk).
    exists k. rewrite Ek. repeat split; try apply Hk. discriminate.
  - exists 6%Z. repeat split; discriminate.
Qed.

(** Every block leaves a divisor that is ten to a digit. *)
Lemma processBlock_divisor (apertures : gmap string number) (incr : bool)
    (st : State) (rawBlock : string) :
  (exists k, digitCount k /\ divisor st = Math_pow 10 k) ->
  exists k, digitCount k
            /\ divisor (processBlock apertures incr st rawBlock) = Math_pow 10 k.
Proof.
  intros Hst. unfold processBlock.
  destruct (isEmpty (trim rawBlock)); [exact Hst|].
  destruct (startsWith "%" _).
  - destruct (findFirst matchXddYdd _) as [d|] eqn:E; [|exact Hst].
    apply findFirst_some in E as [s' E].
    destruct (powerOfTen_digit d (matchXddYdd_digit s' d E)) as (k & Hk & Ek).
    exists k. split; [exact Hk|exact Ek].
  - destruct (selectedTool _); [exact Hst|].
    repeat match goal with
           | |- context [let '(_, _) := ?e in _] => destruct e
           end.
    exact Hst.
Qed.

(** C2. The divisor is not tied to the declared digit count: every
    parameter block in which the pattern of the format digits occurs
    replaces it.  In the sample the format declares four decimal digits;
    the first token [X10000Y20000] decodes to (1, 2), and after the
    step-and-repeat block [%SRX10Y12I5J5], whose repeat counts the loop
    reads as format digits, the same token decodes to (10000, 20000),
    the integers undivided.  Without the step-and-repeat block both
    decode to (1, 2). *)
Theorem step_repeat_changes_divisor :
  decimalPlaces stepRepeatSample = Some 4%Z
  /\ fst (convert stepRepeatSample) = "M1.000 2.000 M10000.000 20000.000"
  /\ boundsEq (snd (convert stepRepeatSample))
              (mkBounds (Fin 1) (Fin 2) (Fin 9999) (Fin 19998))
  /\ divisor (runBlocks stepRepeatSample) = Math_pow 10 0
  /\ fst (convert plainRepeatSample) = "M1.000 2.000 M1.000 2.000"
  /\ divisor (runBlocks plainRepeatSample) = Math_pow 10 4.
Proof. vm_compute; repeat split. Qed.

End DecodingFacts.

(** ** Decimal printing and reading *)

Module DigitFacts.

Section Digits.

Local Open Scope N_scope.

Lemma below_ten (d : N) :
  d < 10 ->
  d = 0 \/ d = 1 \/ d = 2 \/ d = 3 \/ d = 4
  \/ d = 5 \/ d = 6 \/ d = 7 \/ d = 8 \/ d = 9.
Proof. lia. Qed.

Lemma digitChar_isDigit (d : N) : d < 10 -> isDigit (digitChar d) = true.
Proof.
  intros H. destruct (below_ten d H) as [->|[->|[->|[->|[->|[->|[->|[->|[->| ->]]]]]]]]];
    reflexivity.
Qed.

Lemma digitVal_digitChar (d : N) : d < 10 -> digitVal (digitChar d) = d.
Proof.
  intros H. destruct (below_ten d H) as [->|[->|[->|[->|[->|[->|[->|[->|[->| ->]]]]]]]]];
    reflexivity.
Qed.

Lemma digitsVal_app (acc : N) (a b : string) :
  digitsVal acc (a ++ b) = digitsVal (digitsVal acc a) b.
Proof. revert acc. induction a; intros acc; simpl; auto. Qed.

Lemma prints_digit (n : N) :
  n < 10 -> prints (String (digitChar n) "") n.
Proof.
  intros H. repeat split.
  - simpl. rewrite (digitChar_isDigit n H). reflexivity.
  - intros a. simpl. rewrite (digitVal_digitChar n H). lia.
Qed.

Lemma prints_snoc (ds : string) (n d : N) :
  prints ds n -> d < 10 ->
  prints (ds ++ String (digitChar d) "") (n * 10 + d).
Proof.
  intros (H1 & H2 & H3) Hd. repeat split.
  - rewrite all_app, H1. simpl. rewrite (digitChar_isDigit d Hd). reflexivity.
  - rewrite isEmpty_app, H2. reflexivity.
  - intros a. rewrite digitsVal_app, H3. simpl.
    rewrite (digitVal_digitChar d Hd), length_append. simpl.
    rewrite Nat2N.inj_add, N.pow_add_r. simpl. lia.
Qed.

Lemma digitsOf_aux_spec (fuel : nat) :
  forall n acc, n < 10 ^ N.of_nat (S fuel) ->
  exists ds, digitsOf_aux fuel n acc = ds ++ acc /\ prints ds n.
Proof.
  induction fuel as [|fuel IH]; intros n acc Hn.
  - simpl in Hn. exists (String (digitChar n) ""). split.
    + simpl. rewrite N.mod_small by lia. reflexivity.
    + apply prints_digit. lia.
  - cbn [digitsOf_aux]. destruct (N.ltb_spec n 10) as [Hlt|Hge].
    + exists (String (digitChar n) ""). split; [reflexivity|].
      apply prints_digit, Hlt.
    + assert (Hq : n / 10 < 10 ^ N.of_nat (S fuel)).
      { apply N.Div0.div_lt_upper_bound.
        rewrite <- N.pow_succ_r'. rewrite <- Nat2N.inj_succ. exact Hn. }
      destruct (IH (n / 10) (String (digitChar (n mod 10)) acc) Hq)
        as (ds & E & Hp).
      exists (ds ++ String (digitChar (n mod 10)) ""). split.
      * rewrite E, append_assoc. reflexivity.
      * assert (Hm : n mod 10 < 10) by (apply N.mod_lt; lia).
        pose proof (prints_snoc ds (n / 10) (n mod 10) Hp Hm) as P.
        replace (n / 10 * 10 + n mod 10) with n in P; [exact P|].
        rewrite (N.div_mod n 10) at 1 by lia. lia.
Qed.

Lemma digitsOf_prints (n : N) : prints (digitsOf n) n.
Proof.
  unfold digitsOf.
  assert (Hn : n < 10 ^ N.of_nat (S (N.to_nat (N.size n)))).
  { rewrite Nat2N.inj_succ, N2Nat.id.
    apply N.lt_le_trans with (2 ^ N.size n).
    - destruct n as [|p]; [simpl; lia|]. apply N.size_gt.
    - apply N.le_trans with (10 ^ N.size n).
      + apply N.pow_le_mono_l. lia.
      + apply N.pow_le_mono_r; lia. }
  destruct (digitsOf_aux_spec _ n "" Hn) as (ds & E & Hp).
  rewrite E, append_nil_r. exact Hp.
Qed.

Lemma fracDigits_spec (f : nat) :
  forall m, m < 10 ^ N.of_nat f ->
  all isDigit (fracDigits f m) = true
  /\ String.length (fracDigits f m) = f
  /\ forall a, digitsVal a (fracDigits f m) = a * 10 ^ N.of_nat f + m.
Proof.
  induction f as [|f IH]; intros m Hm.
  - simpl in *. repeat split. intros a. lia.
  - cbn [fracDigits].
    assert (Hp : 0 < 10 ^ N.of_nat f) by (apply N.neq_0_lt_0, N.pow_nonzero; lia).
    assert (Hd : m / 10 ^ N.of_nat f < 10).
    { apply N.Div0.div_lt_upper_bound.
      rewrite N.mul_comm, <- N.pow_succ_r', <- Nat2N.inj_succ. exact Hm. }
    assert (Hr : m mod 10 ^ N.of_nat f < 10 ^ N.of_nat f)
      by (apply N.mod_lt; lia).
    destruct (IH _ Hr) as (H1 & H2 & H3).
    repeat split.
    + simpl. rewrite (digitChar_isDigit _ Hd), H1. reflexivity.
    + simpl. rewrite H2. reflexivity.
    + intros a. simpl. rewrite H3, (digitVal_digitChar _ Hd).
      rewrite Nat2N.inj_succ, N.pow_succ_r'.
      rewrite (N.div_mod m (10 ^ N.of_nat f)) at 3 by lia. lia.
Qed.

End Digits.

Section Rounding.

Local Open Scope Q_scope.

Lemma roundHalfUp_bounds (a : Q) :
  0 <= a ->
  inject_Z (Z.of_N (roundHalfUp a)) <= a + (1 # 2)
  /\ a + (1 # 2) < inject_Z (Z.of_N (roundHalfUp a)) + 1.
Proof.
  intros Ha. unfold roundHalfUp.
  assert (H0 : (0 <= Qfloor (a + (1 # 2)))%Z).
  { change 0%Z with (Qfloor 0). apply Qfloor_resp_le. lra. }
  rewrite Z2N.id by exact H0. split.
  - apply Qfloor_le.
  - pose proof (Qlt_floor (a + (1 # 2))) as H.
    rewrite inject_Z_plus in H. exact H.
Qed.

(** [toFixed(3)] prints a numeral: the sign, the integer digits and
    three fraction digits of the rounded thousandths. *)
Lemma toFixed3_numeral (q : Q) :
  let n := roundHalfUp (Qabs q * inject_Z (10 ^ Z.of_nat 3)) in
  let sg := if Qltb q 0 then "-" else "" in
  let ip := digitsOf (n / 1000) in
  let fp := fracDigits 3 (n mod 1000) in
  toFixed 3 (Fin q) = numeralText sg ip fp
  /\ wellFormedNumeral sg ip fp = true
  /\ numeralValue sg ip fp
     == (if Qltb q 0 then - (inject_Z (Z.of_N n) / 1000)
         else inject_Z (Z.of_N n) / 1000).
Proof.
  intros n sg ip fp.
  assert (Hr : (n mod 1000 < 10 ^ N.of_nat 3)%N) by (apply N.mod_lt; discriminate).
  destruct (fracDigits_spec 3 _ Hr) as (F1 & F2 & F3). fold fp in F1, F2, F3.
  destruct (digitsOf_prints (n / 1000)) as (I1 & I2 & I3). fold ip in I1, I2, I3.
  assert (Hfp : isEmpty fp = false) by (destruct fp; [discriminate F2|reflexivity]).
  split; [|split].
  - unfold toFixed, numeralText. fold n. rewrite Hfp. reflexivity.
  - unfold wellFormedNumeral. rewrite I1, F1, I2.
    subst sg. destruct (Qltb q 0); reflexivity.
  - unfold numeralValue. rewrite digitsVal_app, I3, F3, F2.
    replace (0 * 10 ^ N.of_nat (String.length ip) + n / 1000)%N
      with (n / 1000)%N by lia.
    replace (n / 1000 * 10 ^ N.of_nat 3 + n mod 1000)%N with n
      by (rewrite (N.div_mod n 1000) at 1 by discriminate;
          change (10 ^ N.of_nat 3)%N with 1000%N; lia).
    change (inject_Z (10 ^ Z.of_nat 3)) with (1000 # 1).
    subst sg. destruct (Qltb q 0); reflexivity.
Qed.

(** The value of what [toFixed(3)] printed is within half a thousandth
    of the number. *)
Lemma toFixed3_value (q : Q) :
  let n := roundHalfUp (Qabs q * inject_Z (10 ^ Z.of_nat 3)) in
  Qabs ((if Qltb q 0 then - (inject_Z (Z.of_N n) / 1000)
         else inject_Z (Z.of_N n) / 1000) - q) <= 1 # 2000.
Proof.
  cbv zeta.
  assert (Ha : 0 <= Qabs q * inject_Z (10 ^ Z.of_nat 3)).
  { apply Qmult_le_0_compat; [apply Qabs_nonneg|discriminate]. }
  destruct (roundHalfUp_bounds _ Ha) as [B1 B2].
  set (n := inject_Z (Z.of_N (roundHalfUp (Qabs q * inject_Z (10 ^ Z.of_nat 3))))) in *.
  change (inject_Z (10 ^ Z.of_nat 3)) with (1000 # 1) in *.
  apply Qabs_Qle_condition.
  destruct (Qltb_reflect q 0) as [Hneg|Hpos].
  - assert (Eabs : Qabs q == - q) by (apply Qabs_neg; lra).
    rewrite Eabs in B1, B2.
    assert (E1 : - (n / 1000) - q == - (n - (- q) * 1000) / 1000) by field.
    rewrite E1. split.
    + apply Qle_shift_div_l; [reflexivity|]. lra.
    + apply Qle_shift_div_r; [reflexivity|]. lra.
  - assert (Eabs : Qabs q == q) by (apply Qabs_pos; lra).
    rewrite Eabs in B1, B2.
    assert (E1 : n / 1000 - q == (n - q * 1000) / 1000) by field.
    rewrite E1. split.
    + apply Qle_shift_div_l; [reflexivity|]. lra.
    + apply Qle_shift_div_r; [reflexivity|]. lra.
Qed.

(** Reading back what [toFixed(3)] printed of a number of moderate size
    gives the value within half a thousandth. *)
Lemma parseFloat_toFixed3 (q : Q) :
  Qabs q <= 1000 * safeLimit ->
  exists q', parseFloat (toFixed 3 (Fin q)) = Fin q'
             /\ Qabs (q' - q) <= 1 # 2000.
Proof.
  intros Hq.
  destruct (toFixed3_numeral q) as (E & Hwf & Hv). cbv zeta in *.
  rewrite E.
  destruct (parseFloat_numeral _ _ _ Hwf) as (q' & Ep & Hq').
  pose proof (toFixed3_value q) as Hb. cbv zeta in Hb.
  rewrite <- Hv, <- Hq' in Hb.
  exists q'. split; [|exact Hb].
  rewrite Ep. apply ofLiteral_fin, safeLimit_below_overflow.
  apply Qabs_Qle_condition in Hq. apply Qabs_Qle_condition in Hb.
  apply Qabs_Qle_condition. unfold safeLimit in *. lra.
Qed.

Lemma toFixed3_clean (q : Q) : cleanToken (toFixed 3 (Fin q)) = true.
Proof.
  destruct (toFixed3_numeral q) as (E & Hwf & _). cbv zeta in *.
  rewrite E. unfold cleanToken.
  rewrite (numeral_not_empty _ _ _ Hwf), (numeral_chars _ _ _ Hwf).
  reflexivity.
Qed.

End Rounding.

End DigitFacts.

(** ** [VectorProcessor.mirror]: the double mirror *)

Module MirrorFacts.
Import VectorProcessor.

(** *** Character classes *)

Lemma numeralChar_not_command (c : ascii) :
  isNumeralChar c = true -> isCommandLetter c = false.
Proof.
  destruct c as [[] [] [] [] [] [] [] []]; vm_compute; congruence.
Qed.

Lemma numeralChar_not_separator (c : ascii) :
  isNumeralChar c = true -> isSeparator c = false.
Proof.
  destruct c as [[] [] [] [] [] [] [] []]; vm_compute; congruence.
Qed.

Lemma separator_white (c : ascii) :
  isWhiteSpace c = true -> isSeparator c = true.
Proof. intros H. unfold isSeparator. rewrite H. reflexivity. Qed.

Lemma numeralChar_not_white (c : ascii) :
  isNumeralChar c = true -> isWhiteSpace c = false.
Proof.
  intros H. destruct (isWhiteSpace c) eqn:E; [|reflexivity].
  apply separator_white in E.
  rewrite (numeralChar_not_separator c H) in E. discriminate.
Qed.

(** *** Joining *)

Lemma join_empty_cons (a : string) (l : list string) :
  join "" (a :: l) = a ++ join "" l.
Proof. destruct l; simpl; [rewrite append_nil_r|]; reflexivity. Qed.

Lemma join_cons_cons (sep a b : string) (l : list string) :
  join sep (a :: b :: l) = a ++ sep ++ join sep (b :: l).
Proof. reflexivity. Qed.

Lemma all_join (p : ascii -> bool) (sep : string) (l : list string) :
  all p sep = true -> Forall (fun t => all p t = true) l ->
  all p (join sep l) = true.
Proof.
  intros Hsep H. induction H as [|t ts Ht Hts IH]; [reflexivity|].
  destruct ts as [|t2 ts']; [exact Ht|].
  rewrite join_cons_cons, !all_app, Ht, Hsep, IH. reflexivity.
Qed.

Lemma cleanToken_parts (t : string) :
  cleanToken t = true -> isEmpty t = false /\ all isNumeralChar t = true.
Proof.
  unfold cleanToken. intros H. apply andb_true_iff in H as [H1 H2].
  apply negb_true_iff in H1. auto.
Qed.

Lemma forallb_nth {A : Type} (p : A -> bool) (l : list A) (i : nat) (a : A) :
  forallb p l = true -> nth_error l i = Some a -> p a = true.
Proof.
  revert i. induction l as [|b l IH]; intros i H Hi.
  - destruct i; discriminate.
  - cbn [forallb] in H. apply andb_true_iff in H as [Hb Hl].
    destruct i as [|i]; cbn [nth_error] in Hi.
    + inversion Hi; subst. exact Hb.
    + eapply IH; eassumption.
Qed.

(** *** The tokenizer on a rendered path *)

Lemma segments_skip (body rest : string) :
  all (fun c => negb (isCommandLetter c)) body = true ->
  segments (body ++ rest) = segments rest.
Proof.
  induction body as [|c body IH]; simpl; [reflexivity|].
  intros H. apply andb_true_iff in H as [H1 H2].
  apply negb_true_iff in H1. rewrite H1. apply IH, H2.
Qed.

Lemma renderPath_cons (seg : ascii * list string) (l : list (ascii * list string)) :
  renderPath (seg :: l) = String (fst seg) (join " " (snd seg) ++ renderPath l).
Proof.
  unfold renderPath. cbn [map]. rewrite join_empty_cons. reflexivity.
Qed.

Lemma renderPath_head (l : list (ascii * list string)) :
  Forall (fun seg => cleanSegment seg = true) l ->
  headNot (fun c => negb (isCommandLetter c)) (renderPath l) = true.
Proof.
  intros H. destruct H as [|seg l' Hs Hl]; [reflexivity|].
  rewrite renderPath_cons. simpl.
  unfold cleanSegment in Hs. apply andb_true_iff in Hs as [Hc _].
  rewrite Hc. reflexivity.
Qed.

Lemma operands_no_command (ops : list string) :
  forallb cleanToken ops = true ->
  all (fun c => negb (isCommandLetter c)) (join " " ops) = true.
Proof.
  intros H. apply all_join; [reflexivity|].
  apply forallb_Forall in H.
  eapply Forall_impl; [exact H|]. cbv beta. intros t Ht.
  apply cleanToken_parts in Ht as [_ Ht].
  eapply all_impl; [|exact Ht]. intros c Hc.
  rewrite (numeralChar_not_command c Hc). reflexivity.
Qed.

Lemma segments_render (l : list (ascii * list string)) :
  Forall (fun seg => cleanSegment seg = true) l ->
  segments (renderPath l)
  = map (fun seg => (fst seg, join " " (snd seg))) l.
Proof.
  induction 1 as [|seg l' Hs Hl IH]; [reflexivity|].
  rewrite renderPath_cons. cbn [segments map].
  pose proof Hs as Hs'. unfold cleanSegment in Hs'.
  apply andb_true_iff in Hs' as [Hc Hops].
  rewrite Hc.
  rewrite span_app, segments_skip, IH;
    auto using operands_no_command, renderPath_head.
Qed.

(** *** Trimming and splitting the operands *)

Lemma trimEnd_clean (t : string) :
  all (fun c => negb (isWhiteSpace c)) t = true -> trimEnd t = t.
Proof.
  induction t as [|c t IH]; simpl; [reflexivity|].
  intros H. apply andb_true_iff in H as [H1 H2].
  apply negb_true_iff in H1. rewrite H1, (IH H2). reflexivity.
Qed.

Lemma trimEnd_app (a b : string) :
  isEmpty (trimEnd b) = false -> trimEnd (a ++ b) = a ++ trimEnd b.
Proof.
  intros Hb. induction a as [|c a IH]; simpl; [reflexivity|].
  rewrite IH, isEmpty_app, Hb, andb_false_r, andb_false_r. reflexivity.
Qed.

Lemma clean_no_white (t : string) :
  cleanToken t = true -> all (fun c => negb (isWhiteSpace c)) t = true.
Proof.
  intros H. apply cleanToken_parts in H as [_ H].
  eapply all_impl; [|exact H]. intros c Hc.
  rewrite (numeralChar_not_white c Hc). reflexivity.
Qed.

Lemma clean_no_separator (t : string) :
  cleanToken t = true -> all (fun c => negb (isSeparator c)) t = true.
Proof.
  intros H. apply cleanToken_parts in H as [_ H].
  eapply all_impl; [|exact H]. intros c Hc.
  rewrite (numeralChar_not_separator c Hc). reflexivity.
Qed.

Lemma join_not_empty (t : string) (ts : list string) :
  isEmpty t = false -> isEmpty (join " " (t :: ts)) = false.
Proof.
  intros H. destruct ts; [exact H|].
  rewrite join_cons_cons, isEmpty_app, H. reflexivity.
Qed.

Lemma trimEnd_join (t : string) (ts : list string) :
  forallb cleanToken (t :: ts) = true ->
  trimEnd (join " " (t :: ts)) = join " " (t :: ts).
Proof.
  revert t. induction ts as [|t2 ts IH]; intros t H.
  - simpl in H. rewrite andb_true_r in H.
    apply trimEnd_clean, clean_no_white, H.
  - cbn [forallb] in H. apply andb_true_iff in H as [Ht H].
    rewrite join_cons_cons.
    assert (E : trimEnd (join " " (t2 :: ts)) = join " " (t2 :: ts))
      by (apply IH, H).
    assert (Ne : isEmpty (join " " (t2 :: ts)) = false).
    { apply join_not_empty.
      cbn [forallb] in H. apply andb_true_iff in H as [H2 _].
      apply cleanToken_parts in H2. tauto. }
    rewrite <- append_assoc, trimEnd_app; rewrite E; [reflexivity|exact Ne].
Qed.

Lemma trimStart_join (t : string) (ts : list string) :
  cleanToken t = true ->
  trimStart (join " " (t :: ts)) = join " " (t :: ts).
Proof.
  intros H. apply trimStart_head.
  pose proof (clean_no_white t H) as Hw.
  apply cleanToken_parts in H as [Hne _].
  destruct t as [|c t']; [discriminate|].
  simpl in Hw. apply andb_true_iff in Hw as [Hc _].
  destruct ts; [exact Hc|]. rewrite join_cons_cons. exact Hc.
Qed.

Lemma trim_join (t : string) (ts : list string) :
  forallb cleanToken (t :: ts) = true ->
  trim (join " " (t :: ts)) = join " " (t :: ts).
Proof.
  intros H. unfold trim. rewrite trimStart_join, trimEnd_join; auto.
  cbn [forallb] in H. apply andb_true_iff in H. tauto.
Qed.

Lemma splitSeparators_aux_nonempty (b : bool) (s : string) :
  splitSeparators_aux b s <> [].
Proof.
  revert b. induction s as [|c s IH]; intros b; simpl; [discriminate|].
  destruct (isSeparator c).
  - destruct b; [apply IH|discriminate].
  - destruct (splitSeparators_aux false s); discriminate.
Qed.

(** A token in front of the text goes in front of the first piece. *)
Lemma splitSeparators_token (t r : string) (b : bool) :
  all (fun c => negb (isSeparator c)) t = true ->
  isEmpty t = false ->
  exists w ws, splitSeparators_aux false r = w :: ws
               /\ splitSeparators_aux b (t ++ r) = (t ++ w) :: ws.
Proof.
  intros Ht Hne.
  destruct (splitSeparators_aux false r) as [|w ws] eqn:E;
    [exfalso; exact (splitSeparators_aux_nonempty _ _ E)|].
  exists w, ws. split; [reflexivity|].
  revert b. induction t as [|c t IH]; intros b; [discriminate|].
  simpl in Ht. apply andb_true_iff in Ht as [Hc Ht].
  apply negb_true_iff in Hc.
  cbn [append splitSeparators_aux]. rewrite Hc.
  destruct t as [|c2 t'].
  - cbn [append]. rewrite E. reflexivity.
  - rewrite (IH Ht eq_refl false). reflexivity.
Qed.

Lemma splitSeparators_join (t : string) (ts : list string) (b : bool) :
  forallb cleanToken (t :: ts) = true ->
  splitSeparators_aux b (join " " (t :: ts)) = t :: ts.
Proof.
  revert t b. induction ts as [|t2 ts IH]; intros t b H;
    cbn [forallb] in H; apply andb_true_iff in H as [Ht H].
  - pose proof (clean_no_separator t Ht) as Hs.
    apply cleanToken_parts in Ht as [Hne _].
    destruct (splitSeparators_token t "" b Hs Hne) as (w & ws & E1 & E2).
    simpl in E1. inversion E1; subst.
    cbn [join]. rewrite append_nil_r in E2. rewrite E2. reflexivity.
  - pose proof (clean_no_separator t Ht) as Hs.
    apply cleanToken_parts in Ht as [Hne _].
    rewrite join_cons_cons.
    destruct (splitSeparators_token t (" " ++ join " " (t2 :: ts)) b Hs Hne)
      as (w & ws & E1 & E2).
    rewrite E2.
    change (" " ++ join " " (t2 :: ts)) with (String " " (join " " (t2 :: ts))) in E1.
    cbn [splitSeparators_aux] in E1.
    change (isSeparator " ") with true in E1. cbv iota in E1.
    rewrite (IH t2 true H) in E1. inversion E1; subst.
    rewrite append_nil_r. reflexivity.
Qed.

Lemma operandsOf_join (ops : list string) :
  forallb cleanToken ops = true -> operandsOf (join " " ops) = ops.
Proof.
  intros H. destruct ops as [|t ts]; [reflexivity|].
  unfold operandsOf. rewrite trim_join by exact H.
  rewrite join_not_empty.
  - apply splitSeparators_join, H.
  - cbn [forallb] in H. apply andb_true_iff in H as [Ht _].
    apply cleanToken_parts in Ht. tauto.
Qed.

(** Tokenizing a rendered path gives the path back. *)
Lemma parsePath_render (l : list (ascii * list string)) :
  Forall (fun seg => cleanSegment seg = true) l ->
  parsePath (renderPath l) = l.
Proof.
  intros H. unfold parsePath. rewrite segments_render by exact H.
  rewrite map_map. cbn [fst snd].
  induction H as [|seg l' Hs Hl IH]; [reflexivity|].
  cbn [map]. rewrite IH. f_equal.
  unfold cleanSegment in Hs. apply andb_true_iff in Hs as [_ Hops].
  rewrite (operandsOf_join _ Hops). destruct seg; reflexivity.
Qed.

(** *** One mirror as a map over the tokenized path *)

Local Open Scope Q_scope.

Lemma mirrorSegment_render (c : number) (seg : ascii * string) :
  mirrorSegment c seg
  = renderSegment (mirrorOperands c (fst seg, operandsOf (snd seg))).
Proof.
  destruct seg as [command coordsStr].
  unfold mirrorSegment, renderSegment, mirrorOperands, operandsOf.
  cbn [fst snd]. destruct (isEmpty (trim coordsStr)); reflexivity.
Qed.

Lemma mirror_as_map (s : string) (b : Bounds) (bx w : Q) :
  x b = Fin bx -> width b = Fin w -> 0 < w ->
  mirror s (Some b)
  = renderPath (map (mirrorOperands (Fin (bx + w / 2))) (parsePath s)).
Proof.
  intros Hx Hw Hpos. unfold mirror.
  destruct (isEmpty s) eqn:Es.
  - apply isEmpty_true in Es. subst s. reflexivity.
  - rewrite Hx, Hw.
    assert (Hle : lessEq (Fin w) (Fin 0) = false).
    { cbn [lessEq lessThan strictEq]. apply orb_false_iff. split.
      - apply Qltb_ge. lra.
      - destruct (Qeq_bool w 0) eqn:E; [|reflexivity].
        apply Qeq_bool_iff in E. lra. }
    rewrite Hle, PlotterFacts.div_fin by discriminate.
    cbn [add]. unfold renderPath, parsePath. rewrite !map_map.
    f_equal. apply map_ext. intros seg. apply mirrorSegment_render.
Qed.

(** *** Numerals stay numerals *)

Lemma isNumeral_inv (t : string) :
  isNumeral t = true ->
  exists sg ip fp, wellFormedNumeral sg ip fp = true
                   /\ t = numeralText sg ip fp.
Proof.
  unfold isNumeral. destruct (matchNumber t) as [m|] eqn:E; [|discriminate].
  intros H. apply String.eqb_eq in H. subst m.
  exact (matchNumber_inv t t E).
Qed.

Lemma numeral_isNumeral (sg ip fp : string) :
  wellFormedNumeral sg ip fp = true -> isNumeral (numeralText sg ip fp) = true.
Proof.
  intros H. unfold isNumeral.
  rewrite <- (append_nil_r (numeralText sg ip fp)) at 1.
  rewrite matchNumber_numeral; [apply String.eqb_refl|exact H|].
  unfold endsNumeral. cbn. apply orb_true_r.
Qed.

Lemma numeral_clean (t : string) : isNumeral t = true -> cleanToken t = true.
Proof.
  intros H. apply isNumeral_inv in H as (sg & ip & fp & Hwf & ->).
  unfold cleanToken.
  rewrite (numeral_not_empty _ _ _ Hwf), (numeral_chars _ _ _ Hwf).
  reflexivity.
Qed.

Lemma toFixed3_isNumeral (q : Q) : isNumeral (toFixed 3 (Fin q)) = true.
Proof.
  destruct (DigitFacts.toFixed3_numeral q) as (E & Hwf & _). cbv zeta in *.
  rewrite E. apply numeral_isNumeral, Hwf.
Qed.

(** *** Operands of bounded size stay so *)

Lemma safe_sized (t : string) :
  isNumeral t = true -> safe (parseFloat t) = true -> sized safeLimit t.
Proof.
  intros Hn Hs. split; [exact Hn|]. apply safe_fin, Hs.
Qed.

Lemma sized_le (B B' : Q) (t : string) :
  B <= B' -> sized B t -> sized B' t.
Proof.
  intros HB (Hn & q & Eq & Hq). split; [exact Hn|].
  exists q. split; [exact Eq|]. eapply Qle_trans; eassumption.
Qed.

Lemma toFixed3_sized (q B : Q) :
  Qabs q <= B -> B <= 1000 * safeLimit ->
  sized (B + 1) (toFixed 3 (Fin q)).
Proof.
  intros Hq HB. split; [apply toFixed3_isNumeral|].
  assert (Hq' : Qabs q <= 1000 * safeLimit)
    by (eapply Qle_trans; eassumption).
  destruct (DigitFacts.parseFloat_toFixed3 q Hq') as (q' & E & Hb).
  exists q'. split; [exact E|].
  apply Qabs_Qle_condition in Hq. apply Qabs_Qle_condition in Hb.
  apply Qabs_Qle_condition. lra.
Qed.

(** The centre of bounds in the safe range. *)
Lemma centre_bound (bx w : Q) :
  Qabs bx <= safeLimit -> 0 < w -> w <= safeLimit ->
  Qabs (bx + w / 2) <= 2 * safeLimit.
Proof.
  intros Hx H0 Hw. apply Qabs_Qle_condition in Hx.
  apply Qabs_Qle_condition. unfold safeLimit in *. qlra.
Qed.

Lemma reflection_bound (c q B : Q) :
  Qabs c <= 2 * safeLimit -> Qabs q <= B ->
  Qabs (c + (c + - q)) <= B + 4 * safeLimit.
Proof.
  intros Hc Hq. apply Qabs_Qle_condition in Hc.
  apply Qabs_Qle_condition in Hq. apply Qabs_Qle_condition. lra.
Qed.

Lemma flag_sized (B : Q) : 0 <= B -> sized (B + 1) "0" /\ sized (B + 1) "1".
Proof.
  intros H0. split; (split; [reflexivity|]).
  - exists (0 / 1 * 1). split; [reflexivity|].
    assert (E : Qabs (0 / 1 * 1) == 0) by reflexivity. rewrite E. lra.
  - exists (1 / 1 * 1). split; [reflexivity|].
    assert (E : Qabs (1 / 1 * 1) == 1) by reflexivity. rewrite E. lra.
Qed.

Lemma mirrorOperand_sized (isArc : bool) (c B : Q) (idx : nat) (t : string) :
  Qabs c <= 2 * safeLimit -> B <= 100 * safeLimit ->
  sized B t ->
  sized (B + 4 * safeLimit + 1) (mirrorOperand isArc (Fin c) idx t).
Proof.
  intros Hc HB Ht. pose proof Ht as (Hn & q & Eq & Hq).
  assert (H0 : 0 <= B) by (eapply Qle_trans; [apply Qabs_nonneg|exact Hq]).
  assert (HL : 0 <= safeLimit) by discriminate.
  assert (Hx : sized (B + 4 * safeLimit + 1) (mirrorX (Fin c) (Fin q))).
  { unfold mirrorX. cbn [add sub neg].
    apply toFixed3_sized; [apply reflection_bound; assumption|].
    unfold safeLimit in *. lra. }
  assert (Hk : sized (B + 4 * safeLimit + 1) t)
    by (eapply sized_le; [|exact Ht]; lra).
  assert (Hf : sized (B + 4 * safeLimit + 1) "0"
               /\ sized (B + 4 * safeLimit + 1) "1")
    by (apply flag_sized; lra).
  unfold mirrorOperand. rewrite Eq. cbn [isNaN].
  destruct isArc.
  - destruct (idx =? 4)%nat.
    + destruct (strictEq _ _); tauto.
    + destruct (idx =? 5)%nat; assumption.
  - destruct (Nat.even idx); assumption.
Qed.

Lemma imap_Forall {A B : Type} (P : A -> Prop) (R : B -> Prop) (l : list A) :
  forall f : nat -> A -> B,
    (forall i t, P t -> R (f i t)) ->
    Forall P l -> Forall R (imap f l).
Proof.
  induction l as [|a l IH]; intros f Hf H; [constructor|].
  inversion H as [|? ? Ha Hl]; subst. cbn [imap]. constructor.
  - apply Hf, Ha.
  - apply IH; [|exact Hl]. intros i t. apply Hf.
Qed.

Lemma mirrorOperands_sized (c B : Q) (seg : ascii * list string) :
  Qabs c <= 2 * safeLimit -> B <= 100 * safeLimit ->
  sizedSegment B seg ->
  sizedSegment (B + 4 * safeLimit + 1) (mirrorOperands (Fin c) seg).
Proof.
  intros Hc HB [Hl Hops]. split; [exact Hl|].
  unfold mirrorOperands. cbn [snd].
  eapply imap_Forall; [|exact Hops].
  intros i t. apply mirrorOperand_sized; assumption.
Qed.

Lemma segments_commands (s : string) :
  Forall (fun seg => isCommandLetter (fst seg) = true) (segments s).
Proof.
  induction s as [|c s IH]; simpl; [constructor|].
  destruct (isCommandLetter c) eqn:E; [constructor; assumption|assumption].
Qed.

(** Mirroring keeps every segment a command with sized operands. *)
Lemma mirrored_sized (c B : Q) (l : list (ascii * list string)) :
  Qabs c <= 2 * safeLimit -> B <= 100 * safeLimit ->
  Forall (sizedSegment B) l ->
  Forall (sizedSegment (B + 4 * safeLimit + 1))
         (map (mirrorOperands (Fin c)) l).
Proof.
  intros Hc HB. induction 1 as [|seg l Hs Hl IH]; cbn [map]; constructor;
    [|exact IH].
  apply mirrorOperands_sized; assumption.
Qed.

Lemma sized_clean (B : Q) (ops : list string) :
  Forall (sized B) ops -> forallb cleanToken ops = true.
Proof.
  induction 1 as [|t ts [Ht _] Hts IH]; cbn [forallb]; [reflexivity|].
  rewrite (numeral_clean t Ht), IH. reflexivity.
Qed.

Lemma sized_segments_clean (B : Q) (l : list (ascii * list string)) :
  Forall (sizedSegment B) l ->
  Forall (fun seg => cleanSegment seg = true) l.
Proof.
  intros H. eapply Forall_impl; [exact H|].
  intros seg [Hc Hn]. unfold cleanSegment.
  rewrite Hc, (sized_clean _ _ Hn). reflexivity.
Qed.

Lemma safe_operands_sized (ops : list string) :
  forallb isNumeral ops = true ->
  forallb (fun t => safe (parseFloat t)) ops = true ->
  Forall (sized safeLimit) ops.
Proof.
  induction ops as [|t ts IH]; cbn [forallb]; intros Hn Hs; constructor.
  - apply andb_true_iff in Hn as [Hn _]. apply andb_true_iff in Hs as [Hs _].
    apply safe_sized; assumption.
  - apply andb_true_iff in Hn as [_ Hn]. apply andb_true_iff in Hs as [_ Hs].
    apply IH; assumption.
Qed.

(** The tokenized path is made of commands with safe numerals. *)
Lemma wellFormed_sized_segments (s : string) :
  wellFormedPath s = true -> safePath s = true ->
  Forall (sizedSegment safeLimit) (parsePath s).
Proof.
  unfold wellFormedPath, safePath, parsePath. intros H Hs.
  apply forallb_Forall in H. apply Forall_map in H.
  apply forallb_Forall in Hs. apply Forall_map in Hs.
  apply Forall_map.
  pose proof (segments_commands s) as Hc.
  revert H Hs. induction Hc as [|seg l Hseg Hl IH]; intros H Hs;
    [constructor|].
  inversion H as [|? ? H1 H2]; subst.
  inversion Hs as [|? ? S1 S2]; subst.
  constructor; [|apply IH; assumption].
  cbn [fst snd] in *. split; [exact Hseg|].
  unfold wellFormedSegment in H1. cbn [fst snd] in H1.
  apply andb_true_iff in H1 as [H1 _].
  apply safe_operands_sized; assumption.
Qed.

(** *** The value of an operand after two mirrors *)

Lemma strictEq_fin (p q : Q) : strictEq (Fin p) (Fin q) = true <-> p == q.
Proof. apply Qeq_bool_iff. Qed.

(** Two roundings to three decimals of a value reflected twice. *)
Lemma double_reflection (c q q1 q2 : Q) :
  Qabs (q1 - (c + (c + - q))) <= 1 # 2000 ->
  Qabs (q2 - (c + (c + - q1))) <= 1 # 2000 ->
  Qabs (q2 - q) <= 1 # 1000.
Proof.
  intros H1 H2.
  apply Qabs_Qle_condition in H1. apply Qabs_Qle_condition in H2.
  apply Qabs_Qle_condition. lra.
Qed.

Lemma double_mirror_coordinate (c q : Q) :
  Qabs c <= 2 * safeLimit -> Qabs q <= safeLimit ->
  exists q1 q2,
    parseFloat (mirrorX (Fin c) (Fin q)) = Fin q1
    /\ parseFloat (mirrorX (Fin c) (Fin q1)) = Fin q2
    /\ Qabs (q2 - q) <= 1 # 1000.
Proof.
  intros Hc Hq. unfold mirrorX. cbn [add sub neg].
  pose proof (reflection_bound c q _ Hc Hq) as R1.
  assert (R1' : Qabs (c + (c + - q)) <= 1000 * safeLimit)
    by (unfold safeLimit in *; lra).
  destruct (DigitFacts.parseFloat_toFixed3 _ R1') as (q1 & E1 & B1).
  assert (Hq1 : Qabs q1 <= safeLimit + 4 * safeLimit + 1).
  { apply Qabs_Qle_condition in R1. apply Qabs_Qle_condition in B1.
    apply Qabs_Qle_condition. lra. }
  pose proof (reflection_bound c q1 _ Hc Hq1) as R2.
  assert (R2' : Qabs (c + (c + - q1)) <= 1000 * safeLimit)
    by (unfold safeLimit in *; lra).
  destruct (DigitFacts.parseFloat_toFixed3 _ R2') as (q2 & E2 & B2).
  exists q1, q2. split; [exact E1|]. split; [exact E2|].
  eapply double_reflection; eassumption.
Qed.

Lemma double_mirror_flag (q : Q) :
  q == 0 \/ q == 1 ->
  let flip := fun v : number => if strictEq v (Fin 0) then "1" else "0" in
  exists q', parseFloat (flip (parseFloat (flip (Fin q)))) = Fin q'
             /\ q' == q.
Proof.
  intros Hq flip. subst flip. cbv beta.
  destruct (strictEq (Fin q) (Fin 0)) eqn:E.
  - apply strictEq_fin in E.
    eexists. split; [vm_compute; reflexivity|]. rewrite E. reflexivity.
  - destruct Hq as [Hq|Hq].
    + apply strictEq_fin in Hq. congruence.
    + eexists. split; [vm_compute; reflexivity|]. rewrite Hq. reflexivity.
Qed.

Lemma isFlag_cases (t : string) (q : Q) :
  parseFloat t = Fin q -> isFlag t = true -> q == 0 \/ q == 1.
Proof.
  unfold isFlag. intros E H. rewrite E in H.
  apply orb_true_iff in H as [H|H]; apply strictEq_fin in H; auto.
Qed.

(** An operand against itself after two mirrors. *)
Lemma double_mirror_operand (isArc : bool) (c : Q) (idx : nat) (t : string) :
  Qabs c <= 2 * safeLimit ->
  safe (parseFloat t) = true ->
  (isArc && (idx =? 4)%nat = true -> isFlag t = true) ->
  operandRestored isArc idx t
    (mirrorOperand isArc (Fin c) idx (mirrorOperand isArc (Fin c) idx t)).
Proof.
  intros Hc Hs Hflag. destruct (safe_fin _ Hs) as (q & Eq & Hq).
  unfold operandRestored. exists q.
  unfold mirrorOperand at 2. rewrite Eq. cbn [isNaN].
  unfold isXOperand.
  destruct isArc.
  - destruct (idx =? 4)%nat eqn:E4.
    + apply Nat.eqb_eq in E4. subst idx. cbn [Nat.eqb].
      pose proof (isFlag_cases t q Eq (Hflag eq_refl)) as Hq0.
      destruct (double_mirror_flag q Hq0) as (q' & E' & Hq').
      cbv zeta beta in E'.
      exists q'. split; [reflexivity|]. split; [|exact Hq'].
      unfold mirrorOperand. cbn [Nat.eqb].
      destruct (strictEq (Fin q) (Fin 0)) eqn:E0.
      * change (parseFloat "1") with (Fin (1 / 1 * 1)) in *.
        cbn [isNaN]. exact E'.
      * change (parseFloat "0") with (Fin (0 / 1 * 1)) in *.
        cbn [isNaN]. exact E'.
    + destruct (idx =? 5)%nat eqn:E5.
      * destruct (double_mirror_coordinate c q Hc Hq)
          as (q1 & q2 & E1 & E2 & B).
        exists q2. split; [reflexivity|]. split; [|exact B].
        unfold mirrorOperand. rewrite E1, E4, E5. cbn [isNaN]. exact E2.
      * exists q. split; [reflexivity|]. split; [|reflexivity].
        unfold mirrorOperand. rewrite Eq, E4, E5. cbn [isNaN]. exact Eq.
  - destruct (Nat.even idx) eqn:Ev.
    + destruct (double_mirror_coordinate c q Hc Hq)
        as (q1 & q2 & E1 & E2 & B).
      exists q2. split; [reflexivity|]. split; [|exact B].
      unfold mirrorOperand. rewrite E1, Ev. cbn [isNaN]. exact E2.
    + exists q. split; [reflexivity|]. split; [|reflexivity].
      unfold mirrorOperand. rewrite Eq, Ev. cbn [isNaN]. exact Eq.
Qed.

Lemma operandsRestored_imap (isArc : bool) (ops : list string) :
  forall (f g : nat -> string -> string) (k : nat),
    (forall i t, nth_error ops i = Some t ->
                 operandRestored isArc (k + i) t (g i (f i t))) ->
    operandsRestored isArc k ops (imap g (imap f ops)).
Proof.
  induction ops as [|t ts IH]; intros f g k H; [exact I|].
  cbn [imap operandsRestored]. split.
  - specialize (H 0%nat t eq_refl). rewrite Nat.add_0_r in H. exact H.
  - apply IH. intros i t' Hi. specialize (H (S i) t' Hi).
    rewrite Nat.add_succ_r in H. exact H.
Qed.

Lemma segment_restored (c : Q) (seg : ascii * list string) :
  Qabs c <= 2 * safeLimit ->
  wellFormedSegment seg = true -> safeSegment seg = true ->
  segmentRestored seg (mirrorOperands (Fin c) (mirrorOperands (Fin c) seg)).
Proof.
  unfold wellFormedSegment, safeSegment. intros Hc H Hs.
  apply andb_true_iff in H as [Hn Hf].
  split; [reflexivity|].
  unfold mirrorOperands. cbn [fst snd].
  apply operandsRestored_imap. intros i t Hi. cbn [Nat.add].
  apply double_mirror_operand.
  - exact Hc.
  - exact (forallb_nth _ _ _ _ Hs Hi).
  - intros Ha. apply andb_true_iff in Ha as [Ha E4].
    apply Nat.eqb_eq in E4. subst i.
    rewrite Ha, Hi in Hf. exact Hf.
Qed.

Lemma segments_restored (c : Q) (l : list (ascii * list string)) :
  Qabs c <= 2 * safeLimit ->
  forallb wellFormedSegment l = true -> forallb safeSegment l = true ->
  Forall2 segmentRestored l
          (map (mirrorOperands (Fin c)) (map (mirrorOperands (Fin c)) l)).
Proof.
  intros Hc.
  induction l as [|seg l IH]; cbn [forallb map]; intros H Hs; [constructor|].
  apply andb_true_iff in H as [H1 Hl].
  apply andb_true_iff in Hs as [S1 Sl].
  constructor; [apply segment_restored; assumption|apply IH; assumption].
Qed.

(** The path after two mirrors, tokenized. *)
Lemma double_mirror_tokens (s : string) (b : Bounds) (bx w : Q) :
  x b = Fin bx -> width b = Fin w -> 0 < w ->
  Qabs bx <= safeLimit -> w <= safeLimit ->
  wellFormedPath s = true -> safePath s = true ->
  parsePath (mirror (mirror s (Some b)) (Some b))
  = map (mirrorOperands (Fin (bx + w / 2)))
        (map (mirrorOperands (Fin (bx + w / 2))) (parsePath s)).
Proof.
  intros Hx Hw Hpos Hbx Hwl Hwf Hsafe.
  pose proof (centre_bound bx w Hbx Hpos Hwl) as Hc.
  pose proof (wellFormed_sized_segments s Hwf Hsafe) as H0.
  assert (HB0 : safeLimit <= 100 * safeLimit) by discriminate.
  pose proof (mirrored_sized (bx + w / 2) _ _ Hc HB0 H0) as H1.
  assert (HB1 : safeLimit + 4 * safeLimit + 1 <= 100 * safeLimit)
    by discriminate.
  pose proof (mirrored_sized (bx + w / 2) _ _ Hc HB1 H1) as H2.
  rewrite (mirror_as_map s b bx w Hx Hw Hpos).
  rewrite (mirror_as_map _ b bx w Hx Hw Hpos).
  rewrite (parsePath_render _ (sized_segments_clean _ _ H1)).
  apply parsePath_render, (sized_segments_clean _ _ H2).
Qed.

(** C7, as amended. For a path whose operands, as [mirror] tokenizes
    them, are decimal numerals of the safe range and whose arc sweep
    flags are 0 or 1, and for bounds with an origin in the safe range and
    a positive width in the safe range: mirroring twice gives a path with
    the same commands and as many operands; every operand at a place
    that [mirror] reflects is within 0.001 of the original (two roundings
    to three decimals of 0.0005 each), and every other operand, the arc
    sweep flag among them, has its original value. *)
Theorem double_mirror_restores (s : string) (b : Bounds) (bx w : Q) :
  x b = Fin bx -> width b = Fin w -> 0 < w ->
  Qabs bx <= safeLimit -> w <= safeLimit ->
  wellFormedPath s = true -> safePath s = true ->
  Forall2 segmentRestored
          (parsePath s)
          (parsePath (mirror (mirror s (Some b)) (Some b))).
Proof.
  intros Hx Hw Hpos Hbx Hwl Hwf Hsafe.
  rewrite (double_mirror_tokens s b bx w Hx Hw Hpos Hbx Hwl Hwf Hsafe).
  apply segments_restored; [|exact Hwf|exact Hsafe].
  apply centre_bound; assumption.
Qed.

Lemma double_mirror_restores_witness :
  x sampleBounds = Fin 0 /\ width sampleBounds = Fin 2 /\ 0 < 2
  /\ Qabs 0 <= safeLimit /\ 2 <= safeLimit
  /\ wellFormedPath mirrorSample = true
  /\ safePath mirrorSample = true
  /\ Forall2 segmentRestored
             (parsePath mirrorSample)
             (parsePath (mirror (mirror mirrorSample (Some sampleBounds))
                                (Some sampleBounds))).
Proof.
  split; [reflexivity|]. split; [reflexivity|]. split; [reflexivity|].
  split; [discriminate|]. split; [discriminate|].
  assert (H : wellFormedPath mirrorSample = true) by (vm_compute; reflexivity).
  assert (Hs : safePath mirrorSample = true) by (vm_compute; reflexivity).
  split; [exact H|]. split; [exact Hs|].
  apply (double_mirror_restores mirrorSample sampleBounds 0 2
           eq_refl eq_refl eq_refl); [discriminate|discriminate|exact H|exact Hs].
Defined.

(** C7, as stated for every path string, fails: in [M1-2] the second
    operand is not set off by a separator, the tokenizer reads the two
    numbers as one token, and the double mirror returns a path with one
    number where the original has two.  It also fails on a well-formed
    path with a numeral beyond the range of the host's numbers: the
    numeral reads as an infinity, the first mirror prints [-Infinity],
    and the second reads its letters as commands. *)
Lemma double_mirror_counterexample :
  mirror (mirror "M1-2" (Some sampleBounds)) (Some sampleBounds) = "M1.000"
  /\ matchAllNumbers "M1-2" = ["1"; "-2"]
  /\ matchAllNumbers "M1.000" = ["1.000"]
  /\ wellFormedPath ("M" ++ repeated "9" 310 ++ " 0") = true
  /\ mirror ("M" ++ repeated "9" 310 ++ " 0") (Some sampleBounds)
     = "M-Infinity 0"
  /\ mirror (mirror ("M" ++ repeated "9" 310 ++ " 0") (Some sampleBounds))
            (Some sampleBounds)
     = "M-Infinity2.000".
Proof. vm_compute; repeat split. Qed.

End MirrorFacts.

(** ** The order on numbers *)

Section OrderFacts.

Local Open Scope Q_scope.

Lemma lessThan_fin (a b : Q) : lessThan (Fin a) (Fin b) = true <-> a < b.
Proof. simpl. apply Qltb_lt. Qed.

Lemma lessEq_fin (a b : Q) : lessEq (Fin a) (Fin b) = true <-> a <= b.
Proof.
  simpl. rewrite orb_true_iff, Qltb_lt, Qeq_bool_iff. split.
  - intros [H|H]; [apply Qlt_le_weak, H|rewrite H; apply Qle_refl].
  - intros H. destruct (Qlt_le_dec a b) as [L|L]; [left; exact L|].
    right. apply Qle_antisym; assumption.
Qed.

Lemma Math_min_fin_fin (a b : Q) :
  Math_min (Fin a) (Fin b) = Fin (if Qltb b a then b else a).
Proof. simpl. destruct (Qltb b a); reflexivity. Qed.

Lemma Math_max_fin_fin (a b : Q) :
  Math_max (Fin a) (Fin b) = Fin (if Qltb a b then b else a).
Proof. simpl. destruct (Qltb a b); reflexivity. Qed.

Lemma Qmin_if_le_l (a b : Q) : (if Qltb b a then b else a) <= a.
Proof.
  destruct (Qltb_reflect b a) as [H|H]; [apply Qlt_le_weak, H|apply Qle_refl].
Qed.

Lemma Qmin_if_le_r (a b : Q) : (if Qltb b a then b else a) <= b.
Proof.
  destruct (Qltb_reflect b a) as [H|H]; [apply Qle_refl|].
  apply Qnot_lt_le, H.
Qed.

Lemma Qmax_if_ge_l (a b : Q) : a <= (if Qltb a b then b else a).
Proof.
  destruct (Qltb_reflect a b) as [H|H]; [apply Qlt_le_weak, H|apply Qle_refl].
Qed.

Lemma Qmax_if_ge_r (a b : Q) : b <= (if Qltb a b then b else a).
Proof.
  destruct (Qltb_reflect a b) as [H|H]; [apply Qle_refl|].
  apply Qnot_lt_le, H.
Qed.

Lemma lessEq_refl (a : number) : isNaN a = false -> lessEq a a = true.
Proof.
  destruct a; simpl; try discriminate; try reflexivity.
  intros _. apply le_refl_fin.
Qed.

Lemma lessThan_lessEq (a b : number) : lessThan a b = true -> lessEq a b = true.
Proof.
  destruct a, b; simpl; try discriminate; try reflexivity.
  intros ->. reflexivity.
Qed.

Lemma lessEq_trans (a b c : number) :
  lessEq a b = true -> lessEq b c = true -> lessEq a c = true.
Proof.
  destruct a as [| |p|], b as [| |q|], c as [| |r|];
    try (simpl; discriminate); try (simpl; reflexivity);
    try (intros _ H; simpl in H; discriminate H);
    try (intros H _; simpl in H; discriminate H).
  rewrite !lessEq_fin. apply Qle_trans.
Qed.

End OrderFacts.

(** ** [GerberToPath.calculatePathBounds]: the box of a path *)

Module PathBoundsFacts.
Import GerberToPath.

Local Open Scope Q_scope.

Lemma within_fin (mx my Mx My px py : Q) :
  within (mkExtent (Fin mx) (Fin my) (Fin Mx) (Fin My) true) (Fin px, Fin py)
  <-> mx <= px /\ px <= Mx /\ my <= py /\ py <= My.
Proof.
  unfold within. cbn [eMinX eMinY eMaxX eMaxY fst snd].
  rewrite !lessEq_fin. tauto.
Qed.

(** One pair of the loop: the new extent holds the pair and everything the
    old one held. *)
Lemma pair_step (e : Extent) (px py : Q) :
  ordered e ->
  let e' := mkExtent (Math_min (eMinX e) (Fin px)) (Math_min (eMinY e) (Fin py))
                     (Math_max (eMaxX e) (Fin px)) (Math_max (eMaxY e) (Fin py))
                     true in
  ordered e' /\ within e' (Fin px, Fin py)
  /\ (forall qx qy : Q, within e (Fin qx, Fin qy) -> within e' (Fin qx, Fin qy)).
Proof.
  unfold ordered. destruct (eHasAny e) eqn:E.
  - intros (mx & my & Mx & My & -> & Hx & Hy).
    cbn [eMinX eMinY eMaxX eMaxY eHasAny].
    rewrite !Math_min_fin_fin, !Math_max_fin_fin.
    pose proof (Qmin_if_le_l mx px). pose proof (Qmin_if_le_r mx px).
    pose proof (Qmin_if_le_l my py). pose proof (Qmin_if_le_r my py).
    pose proof (Qmax_if_ge_l Mx px). pose proof (Qmax_if_ge_r Mx px).
    pose proof (Qmax_if_ge_l My py). pose proof (Qmax_if_ge_r My py).
    split; [|split].
    + do 4 eexists. split; [reflexivity|]. split; lra.
    + apply within_fin. repeat split; assumption.
    + intros qx qy Hq. apply within_fin in Hq. apply within_fin.
      repeat split; lra.
  - intros ->. cbn [eMinX eMinY eMaxX eMaxY eHasAny emptyExtent].
    change (Math_min Infinity (Fin px)) with (Fin px).
    change (Math_min Infinity (Fin py)) with (Fin py).
    change (Math_max NegInfinity (Fin px)) with (Fin px).
    change (Math_max NegInfinity (Fin py)) with (Fin py).
    split; [|split].
    + do 4 eexists. split; [reflexivity|]. split; apply Qle_refl.
    + apply within_fin. repeat split; apply Qle_refl.
    + intros qx qy Hq. unfold within in Hq. simpl in Hq.
      destruct Hq as (Hq & _). discriminate Hq.
Qed.

Lemma within_mono (e e' : Extent) :
  (forall qx qy : Q, within e (Fin qx, Fin qy) -> within e' (Fin qx, Fin qy)) ->
  forall p, finitePoint p -> within e p -> within e' p.
Proof.
  intros H [[| |qx|] [| |qy|]] [Hx Hy]; simpl in *; try contradiction.
  apply H.
Qed.

Lemma pairLoop_encloses (ms : list string) :
  Forall (fun m => finite (parseFloat m)) ms ->
  (forall e, ordered e ->
     ordered (pairLoop ms e)
     /\ Forall (within (pairLoop ms e)) (coordinatePairs ms)
     /\ (forall p, finitePoint p -> within e p -> within (pairLoop ms e) p))
  /\ (forall m e, finite (parseFloat m) -> ordered e ->
     ordered (pairLoop (m :: ms) e)
     /\ Forall (within (pairLoop (m :: ms) e)) (coordinatePairs (m :: ms))
     /\ (forall p, finitePoint p -> within e p ->
                   within (pairLoop (m :: ms) e) p)).
Proof.
  induction 1 as [|m' ms Hm' Hms [IH1 IH2]].
  - split.
    + intros e He. simpl. split; [assumption|]. split; [constructor|auto].
    + intros m e Hm He. simpl. split; [assumption|]. split; [constructor|auto].
  - split.
    + intros e He. apply IH2; assumption.
    + intros m e Hm He.
      cbn [pairLoop coordinatePairs].
      destruct (parseFloat m) as [| |px|] eqn:Em; try contradiction.
      destruct (parseFloat m') as [| |py|] eqn:Em'; try contradiction.
      cbn [isNaN negb andb].
      destruct (pair_step e px py He) as (Ho & Hin & Hmono).
      destruct (IH1 _ Ho) as (Ho' & Hall & Hkeep).
      split; [exact Ho'|]. split.
      * constructor; [|exact Hall].
        apply Hkeep; [split; exact I|exact Hin].
      * intros p Hp Hw. apply Hkeep; [exact Hp|].
        eapply within_mono; eassumption.
Qed.

Lemma pairs_finite (ms : list string) :
  Forall (fun m => finite (parseFloat m)) ms ->
  (Forall finitePoint (coordinatePairs ms))
  /\ (forall m, finite (parseFloat m) ->
                Forall finitePoint (coordinatePairs (m :: ms))).
Proof.
  induction 1 as [|m' ms Hm' Hms [IH1 IH2]].
  - split; intros; simpl; constructor.
  - split; [apply IH2; assumption|].
    intros m Hm. cbn [coordinatePairs]. constructor; [split; assumption|].
    exact IH1.
Qed.

Lemma pairLoop_idle (ms : list string) (e : Extent) :
  coordinatePairs ms = [] -> pairLoop ms e = e.
Proof.
  destruct ms as [|m [|m' ms]]; simpl; [reflexivity|reflexivity|discriminate].
Qed.

(** X1. For a path whose numerals are in the safe range, the box of
    [calculatePathBounds] is made of finite numbers and holds every
    coordinate pair of the path, its width and height are not negative,
    and a path with fewer than two numbers gives the zero box. *)
Theorem calculatePathBounds_encloses (content : string) :
  safeNumerals content = true ->
  let b := calculatePathBounds content in
  finiteBounds b
  /\ Forall (inside b) (coordinatePairs (matchAllNumbers content))
  /\ lessEq (Fin 0) (width b) = true
  /\ lessEq (Fin 0) (height b) = true
  /\ (coordinatePairs (matchAllNumbers content) = [] -> b = zeroBounds).
Proof.
  intros Hsafe. cbv zeta.
  pose proof (GetBoundsFacts.safe_finiteNumerals content Hsafe) as Hf.
  split; [apply GetBoundsFacts.calculatePathBounds_finite, Hf|].
  unfold calculatePathBounds. unfold finiteNumerals in Hf.
  set (ms := matchAllNumbers content) in *.
  destruct (proj1 (pairLoop_encloses ms Hf) emptyExtent eq_refl)
    as (Ho & Hall & _).
  pose proof (proj1 (pairs_finite ms Hf)) as Hp.
  split; [|split; [|split]].
  - unfold ordered in Ho.
    destruct (eHasAny (pairLoop ms emptyExtent)) eqn:E; cbn [negb].
    + destruct Ho as (mx & my & Mx & My & Ee & Hx & Hy).
      rewrite Ee in *. cbn [eMinX eMinY eMaxX eMaxY].
      clear E Ee. induction Hall as [|p ps Hw Hps IH]; [constructor|].
      inversion Hp as [|? ? Hp1 Hp2]; subst.
      constructor; [|apply IH, Hp2].
      destruct p as [[| |px|] [| |py|]]; destruct Hp1 as [F1 F2];
        simpl in F1, F2; try contradiction.
      apply within_fin in Hw. unfold inside.
      cbn [x y width height fst snd sub neg add].
      rewrite !lessEq_fin. repeat split; lra.
    + rewrite Ho in Hall. clear E Ho.
      destruct Hall as [|p ps Hw _]; [constructor|].
      inversion Hp as [|? ? Hp1 _]; subst.
      destruct p as [[| |px|] [| |py|]]; destruct Hp1 as [F1 F2];
        simpl in F1, F2; try contradiction.
      destruct Hw as (Hw & _). discriminate Hw.
  - unfold ordered in Ho.
    destruct (eHasAny (pairLoop ms emptyExtent)); cbn [negb].
    + destruct Ho as (mx & my & Mx & My & -> & Hx & Hy).
      cbn [width eMinX eMaxX sub neg add]. apply lessEq_fin. lra.
    + apply le_refl_fin.
  - unfold ordered in Ho.
    destruct (eHasAny (pairLoop ms emptyExtent)); cbn [negb].
    + destruct Ho as (mx & my & Mx & My & -> & Hx & Hy).
      cbn [height eMinY eMaxY sub neg add]. apply lessEq_fin. lra.
    + apply le_refl_fin.
  - intros He. rewrite (pairLoop_idle ms emptyExtent He). reflexivity.
Qed.

Lemma calculatePathBounds_encloses_witness :
  safeNumerals "M-3.5 4 L2.5 6 L0 5 Z" = true
  /\ coordinatePairs (matchAllNumbers "M-3.5 4 L2.5 6 L0 5 Z")
     = [(parseFloat "-3.5", parseFloat "4");
        (parseFloat "2.5", parseFloat "6");
        (parseFloat "0", parseFloat "5")]
  /\ boundsEq (calculatePathBounds "M-3.5 4 L2.5 6 L0 5 Z")
              (mkBounds (Fin (- (35 # 10))) (Fin 4) (Fin 6) (Fin 2))
  /\ Forall (inside (calculatePathBounds "M-3.5 4 L2.5 6 L0 5 Z"))
            (coordinatePairs (matchAllNumbers "M-3.5 4 L2.5 6 L0 5 Z")).
Proof.
  assert (H : safeNumerals "M-3.5 4 L2.5 6 L0 5 Z" = true)
    by (vm_compute; reflexivity).
  split; [exact H|]. split; [reflexivity|].
  split; [vm_compute; repeat split|].
  exact (proj1 (proj2 (calculatePathBounds_encloses _ H))).
Defined.

End PathBoundsFacts.

(** ** [GerberToPath.convert]: the block loop *)

Module ConvertFacts.
Import GerberToPath.

Local Open Scope Q_scope.

Lemma readCoordinate_finite (letter : ascii) (block : string) (k : Z)
    (incr fm : bool) (cur : Q) :
  safeField letter block = true ->
  exists v : Q,
    fst (readCoordinate letter block (Math_pow 10 k) incr fm (Fin cur)) = Fin v.
Proof.
  unfold readCoordinate, safeField.
  destruct (afterFirst letter block) as [rest|]; [|exists cur; reflexivity].
  destruct (matchNumber rest) as [m|] eqn:Em; [|exists cur; reflexivity].
  intros Hs. destruct (safe_fin _ Hs) as (q & -> & _).
  cbn [fst]. unfold Math_pow.
  rewrite PlotterFacts.div_fin by (apply Qpower_not_0; discriminate).
  destruct (includes "." m), (incr && negb fm); eexists; reflexivity.
Qed.

(** What an operation block leaves in the position and the box. *)
Lemma processBlock_box (apertures : gmap string number) (incr : bool)
    (st : State) (rawBlock : string) :
  operationBlock rawBlock = true ->
  let block := trim rawBlock in
  let rx := readCoordinate "X" block (divisor st) incr (isFirstMove st)
                           (currentX st) in
  let ry := readCoordinate "Y" block (divisor st) incr (isFirstMove st)
                           (currentY st) in
  let found := snd rx || snd ry in
  let st' := processBlock apertures incr st rawBlock in
  let cX := if found then fst rx else currentX st in
  let cY := if found then fst ry else currentY st in
  currentX st' = cX /\ currentY st' = cY
  /\ minX st' = (if found then Math_min (minX st) cX else minX st)
  /\ minY st' = (if found then Math_min (minY st) cY else minY st)
  /\ maxX st' = (if found then Math_max (maxX st) cX else maxX st)
  /\ maxY st' = (if found then Math_max (maxY st) cY else maxY st)
  /\ hasAnyPoint st' = (if found then true else hasAnyPoint st)
  /\ divisor st' = divisor st.
Proof.
  intros H block rx ry found st' cX cY. subst block rx ry found st' cX cY.
  unfold operationBlock in H. cbv zeta in H.
  apply andb_true_iff in H as [H H3].
  apply andb_true_iff in H as [H1 H2].
  apply negb_true_iff in H1. apply negb_true_iff in H2.
  unfold processBlock. rewrite H1, H2.
  destruct (selectedTool _); [discriminate|].
  repeat match goal with
         | |- context [let '(_, _) := ?e in _] => destruct e
         end.
  repeat split; reflexivity.
Qed.

(** A block that is no operation leaves the plot as it was. *)
Lemma processBlock_idle (apertures : gmap string number) (incr : bool)
    (st : State) (rawBlock : string) :
  operationBlock rawBlock = false ->
  plotted (processBlock apertures incr st rawBlock) = plotted st.
Proof.
  unfold operationBlock. cbv zeta. intros H. unfold processBlock.
  destruct (isEmpty (trim rawBlock)); [reflexivity|].
  destruct (startsWith "%" _).
  - destruct (findFirst matchXddYdd _); reflexivity.
  - destruct (selectedTool _); [reflexivity|discriminate H].
Qed.

Lemma processBlock_tracked (apertures : gmap string number) (incr : bool)
    (st : State) (rawBlock : string) :
  safeField "X" (trim rawBlock) = true ->
  safeField "Y" (trim rawBlock) = true ->
  tracked st -> tracked (processBlock apertures incr st rawBlock).
Proof.
  intros Sx Sy (Hd & cx & cy & Ex & Ey & Hb).
  split; [apply DecodingFacts.processBlock_divisor, Hd|].
  destruct (operationBlock rawBlock) eqn:Eop.
  - destruct Hd as (k & Hk & Ek).
    destruct (processBlock_box apertures incr st rawBlock Eop)
      as (Hx & Hy & H1 & H2 & H3 & H4 & H5 & _).
    cbv zeta in *. rewrite Ek, Ex, Ey in *.
    destruct (readCoordinate_finite "X" (trim rawBlock) k incr
                (isFirstMove st) cx Sx) as (vx & Evx).
    destruct (readCoordinate_finite "Y" (trim rawBlock) k incr
                (isFirstMove st) cy Sy) as (vy & Evy).
    rewrite Evx, Evy in *.
    destruct (snd _ || snd _).
    + exists vx, vy. rewrite Hx, Hy, H5, H1, H2, H3, H4.
      split; [reflexivity|]. split; [reflexivity|].
      destruct (hasAnyPoint st).
      * destruct Hb as (mx & my & Mx & My & -> & -> & -> & -> & Bx & By).
        rewrite !Math_min_fin_fin, !Math_max_fin_fin.
        pose proof (Qmin_if_le_l mx vx). pose proof (Qmin_if_le_r mx vx).
        pose proof (Qmin_if_le_l my vy). pose proof (Qmin_if_le_r my vy).
        pose proof (Qmax_if_ge_l Mx vx). pose proof (Qmax_if_ge_r Mx vx).
        pose proof (Qmax_if_ge_l My vy). pose proof (Qmax_if_ge_r My vy).
        do 4 eexists. repeat split; try reflexivity; assumption.
      * destruct Hb as (-> & -> & -> & ->).
        exists vx, vy, vx, vy. repeat split; try reflexivity; apply Qle_refl.
    + exists cx, cy. rewrite Hx, Hy, H5, H1, H2, H3, H4.
      split; [reflexivity|]. split; [reflexivity|]. exact Hb.
  - pose proof (processBlock_idle apertures incr st rawBlock Eop) as Hi.
    unfold plotted in Hi. injection Hi as _ Hcx Hcy Hmx Hmy HMx HMy Hh.
    exists cx, cy. rewrite Hcx, Hcy, Hh, Hmx, Hmy, HMx, HMy.
    split; [exact Ex|]. split; [exact Ey|]. exact Hb.
Qed.

Lemma fold_processBlock_tracked (apertures : gmap string number)
    (incr : bool) (blocks : list string) (st : State) :
  forallb (fun b => safeField "X" (trim b) && safeField "Y" (trim b)) blocks
  = true ->
  tracked st ->
  tracked (fold_left (processBlock apertures incr) blocks st).
Proof.
  revert st. induction blocks as [|b bs IH]; intros st Hs H; simpl;
    [exact H|].
  cbn [forallb] in Hs. apply andb_true_iff in Hs as [Hb Hbs].
  apply andb_true_iff in Hb as [Sx Sy].
  apply IH; [exact Hbs|]. apply processBlock_tracked; assumption.
Qed.

Lemma runBlocks_tracked (gerberText : string) :
  safeCoordinates gerberText = true -> tracked (runBlocks gerberText).
Proof.
  intros Hs. apply fold_processBlock_tracked; [exact Hs|].
  destruct (DecodingFacts.initialDivisor_power gerberText) as (k & Hk & E & _).
  split; [exists k; split; [exact Hk|exact E]|].
  exists 0, 0. repeat split; reflexivity.
Qed.

(** X2. For a text whose coordinate tokens are in the safe range, the
    bounds that [convert] returns are finite numbers with a width and a
    height that are not negative; once a coordinate was read the box
    holds the final position, and until then it is the zero box. *)
Theorem convert_bounds_hold_position (gerberText : string) :
  safeCoordinates gerberText = true ->
  let st := runBlocks gerberText in
  let b := snd (convert gerberText) in
  finiteBounds b
  /\ lessEq (Fin 0) (width b) = true
  /\ lessEq (Fin 0) (height b) = true
  /\ (hasAnyPoint st = true -> inside b (currentX st, currentY st))
  /\ (hasAnyPoint st = false -> b = zeroBounds).
Proof.
  intros Hsafe. cbv zeta. unfold convert.
  destruct (isEmpty gerberText) eqn:Ee.
  - apply isEmpty_true in Ee. subst gerberText. cbn [snd].
    split; [repeat split; exact I|].
    split; [apply le_refl_fin|]. split; [apply le_refl_fin|].
    split; [intros H; vm_compute in H; discriminate H|reflexivity].
  - cbn [snd]. unfold boundsOf.
    destruct (runBlocks_tracked gerberText Hsafe)
      as (_ & cx & cy & Ex & Ey & Hb).
    rewrite Ex, Ey.
    destruct (hasAnyPoint (runBlocks gerberText)).
    + destruct Hb as (mx & my & Mx & My & -> & -> & -> & -> & Bx & By).
      cbn [x y width height sub neg add].
      split; [repeat split; exact I|].
      split; [apply lessEq_fin; lra|]. split; [apply lessEq_fin; lra|].
      split; [|discriminate].
      intros _. unfold inside. cbn [x y width height fst snd add].
      rewrite !lessEq_fin. repeat split; lra.
    + split; [repeat split; exact I|].
      split; [apply le_refl_fin|]. split; [apply le_refl_fin|].
      split; [discriminate|reflexivity].
Qed.

Lemma convert_bounds_hold_position_witness :
  safeCoordinates strokeSample = true
  /\ hasAnyPoint (runBlocks strokeSample) = true
  /\ boundsEq (snd (convert strokeSample))
              (mkBounds (Fin 0) (Fin 0) (Fin 10) (Fin 0))
  /\ inside (snd (convert strokeSample))
            (currentX (runBlocks strokeSample),
             currentY (runBlocks strokeSample)).
Proof.
  assert (Hs : safeCoordinates strokeSample = true)
    by (vm_compute; reflexivity).
  assert (H : hasAnyPoint (runBlocks strokeSample) = true)
    by (vm_compute; reflexivity).
  split; [exact Hs|]. split; [exact H|].
  split; [vm_compute; repeat split|].
  exact (proj1 (proj2 (proj2 (proj2
           (convert_bounds_hold_position strokeSample Hs)))) H).
Defined.

(** X3. A blank block, a parameter block (one that starts with a percent
    sign) and a tool selection never move the position, emit path data or
    touch the box; a text made of such blocks only converts to the empty
    path and the zero box. *)
Theorem convert_ignores_non_operations :
  (forall (apertures : gmap string number) (incr : bool) (st : State)
          (rawBlock : string),
      operationBlock rawBlock = false ->
      plotted (processBlock apertures incr st rawBlock) = plotted st)
  /\ (forall gerberText : string,
        forallb (fun b => negb (operationBlock b)) (split "*" gerberText)
        = true ->
        convert gerberText = (EmptyString, zeroBounds)).
Proof.
  split; [apply processBlock_idle|].
  intros gerberText H. unfold convert.
  destruct (isEmpty gerberText); [reflexivity|].
  assert (E : plotted (runBlocks gerberText)
              = plotted (initialState (initialDivisor gerberText))).
  { unfold runBlocks.
    generalize (initialState (initialDivisor gerberText)) as st.
    induction (split "*" gerberText) as [|b bs IH]; intros st;
      [reflexivity|].
    cbn [forallb] in H. apply andb_true_iff in H as [Hb Hbs].
    apply negb_true_iff in Hb.
    cbn [fold_left]. rewrite (IH Hbs). apply processBlock_idle, Hb. }
  unfold plotted in E. cbn [initialState pathDataArray currentX currentY
    minX minY maxX maxY hasAnyPoint] in E.
  injection E as Ep _ _ _ _ _ _ Eh.
  unfold boundsOf. rewrite Ep, Eh. reflexivity.
Qed.

Lemma convert_ignores_non_operations_witness :
  forallb (fun b => negb (operationBlock b))
          (split "*" "%FSLAX24Y24*%MOMM*%ADD10C,1.0*%D10*") = true
  /\ convert "%FSLAX24Y24*%MOMM*%ADD10C,1.0*%D10*" = (EmptyString, zeroBounds).
Proof.
  assert (H : forallb (fun b => negb (operationBlock b))
                      (split "*" "%FSLAX24Y24*%MOMM*%ADD10C,1.0*%D10*") = true)
    by (vm_compute; reflexivity).
  split; [exact H|].
  exact (proj2 convert_ignores_non_operations _ H).
Defined.

End ConvertFacts.

(** ** The command-list renderer: macros, regions and the box *)

Module RendererMore.
Import CustomParser.

(** *** Macro primitives that are left out *)

Lemma renderBlock_dropped (mods : gmap string number) (px py : number)
    (b : MacroBlock) (st : State) :
  dropped mods b = true -> renderBlock mods px py b st = st.
Proof.
  unfold dropped, renderBlock.
  destruct (String.eqb (btype b) "circle").
  { intros ->. reflexivity. }
  destruct (String.eqb (btype b) "vect"); [discriminate|].
  destruct (String.eqb (btype b) "outline").
  { destruct (points b); [discriminate|reflexivity]. }
  destruct (_ || _); [discriminate|reflexivity].
Qed.

Lemma fold_renderBlock_filter (mods : gmap string number) (px py : number)
    (blocks : list MacroBlock) (st : State) :
  fold_left (fun s b => renderBlock mods px py b s) blocks st
  = fold_left (fun s b => renderBlock mods px py b s)
              (List.filter (fun b => negb (dropped mods b)) blocks) st.
Proof.
  revert st. induction blocks as [|b bs IH]; intros st; [reflexivity|].
  cbn [fold_left List.filter].
  destruct (dropped mods b) eqn:E; cbn [negb].
  - rewrite (renderBlock_dropped mods px py b st E). apply IH.
  - cbn [fold_left]. apply IH.
Qed.

(** X4. A flash of a macro aperture leaves out the primitives it cannot
    use (an unknown kind, a circle without a numeric diameter, an outline
    without points) and renders the others, in their order, as if the
    former were not in the macro; a macro that was never defined renders
    nothing. *)
Theorem macro_leaves_out_unusable_primitives (st : State)
    (macroName : string) (params : list number) (px py : number) :
  (forall blocks : list MacroBlock,
      macros st !! macroName = Some blocks ->
      renderMacro macroName params px py st
      = fold_left (fun s b => renderBlock (buildMods params) px py b s)
                  (List.filter (fun b => negb (dropped (buildMods params) b))
                               blocks)
                  st)
  /\ (macros st !! macroName = None ->
      renderMacro macroName params px py st = st).
Proof.
  split.
  - intros blocks H. unfold renderMacro. rewrite H.
    apply fold_renderBlock_filter.
  - intros H. unfold renderMacro. rewrite H. reflexivity.
Qed.

Lemma macro_leaves_out_unusable_primitives_witness :
  macros sampleMacroState !! "PAD" = Some sampleMacroBlocks
  /\ svgContent (renderMacro "PAD" [] (Fin 1) (Fin 2) sampleMacroState)
     = "<circle cx=" ++ quote ++ "2.0000" ++ quote ++ " cy=" ++ quote
       ++ "3.0000" ++ quote ++ " r=" ++ quote ++ "0.5000" ++ quote
       ++ " fill=" ++ quote ++ "currentColor" ++ quote ++ " />".
Proof.
  assert (H : macros sampleMacroState !! "PAD" = Some sampleMacroBlocks)
    by (vm_compute; reflexivity).
  split; [exact H|].
  rewrite (proj1 (macro_leaves_out_unusable_primitives
                    sampleMacroState "PAD" [] (Fin 1) (Fin 2))
                 sampleMacroBlocks H).
  vm_compute. reflexivity.
Defined.

(** *** The box *)

Lemma lower_step (p m : number) :
  isNaN m = false ->
  isNaN (if lessThan p m then p else m) = false
  /\ lessEq (if lessThan p m then p else m) m = true.
Proof.
  intros Hm. destruct (lessThan p m) eqn:E.
  - split; [destruct p; simpl in *; try discriminate; reflexivity|].
    apply lessThan_lessEq, E.
  - split; [exact Hm|apply lessEq_refl, Hm].
Qed.

Lemma upper_step (p m : number) :
  isNaN m = false ->
  isNaN (if greaterThan p m then p else m) = false
  /\ lessEq m (if greaterThan p m then p else m) = true.
Proof.
  intros Hm. unfold greaterThan. destruct (lessThan m p) eqn:E.
  - split; [destruct p, m; simpl in *; try discriminate; reflexivity|].
    apply lessThan_lessEq, E.
  - split; [exact Hm|apply lessEq_refl, Hm].
Qed.

Lemma stretch_holds (px py : number) (b : number * number * number * number) :
  soundBox b -> soundBox (stretch px py b) /\ holds (stretch px py b) b.
Proof.
  destruct b as [[[mx my] Mx] My]. intros (H1 & H2 & H3 & H4).
  unfold stretch, soundBox, holds.
  destruct (lower_step px mx H1), (lower_step py my H2),
           (upper_step px Mx H3), (upper_step py My H4).
  repeat split; assumption.
Qed.

Lemma holds_refl (b : number * number * number * number) :
  soundBox b -> holds b b.
Proof.
  destruct b as [[[mx my] Mx] My]. intros (H1 & H2 & H3 & H4).
  repeat split; apply lessEq_refl; assumption.
Qed.

Lemma holds_trans (a b c : number * number * number * number) :
  holds b a -> holds c b -> holds c a.
Proof.
  destruct a as [[[a1 a2] a3] a4], b as [[[b1 b2] b3] b4],
           c as [[[c1 c2] c3] c4].
  intros (H1 & H2 & H3 & H4) (K1 & K2 & K3 & K4).
  repeat split; eapply lessEq_trans; eassumption.
Qed.

Lemma grows_same (st st' : State) : box st' = box st -> grows st st'.
Proof. intros E H. rewrite E. split; [exact H|apply holds_refl, H]. Qed.

Lemma grows_trans (a b c : State) : grows a b -> grows b c -> grows a c.
Proof.
  intros H1 H2 Ha. destruct (H1 Ha) as [Hb Hab].
  destruct (H2 Hb) as [Hc Hbc]. split; [exact Hc|].
  eapply holds_trans; eassumption.
Qed.

Lemma grows_updateBounds (px py : number) (st : State) :
  grows st (updateBounds px py st).
Proof.
  intros H. change (box (updateBounds px py st)) with (stretch px py (box st)).
  apply stretch_holds, H.
Qed.

Lemma grows_emit (s : string) (st : State) : grows st (emit s st).
Proof. apply grows_same. reflexivity. Qed.

Lemma grows_moveTo (px py : number) (st : State) : grows st (moveTo px py st).
Proof. apply grows_same. reflexivity. Qed.

Lemma grows_setRegionPath (p : list string) (st : State) :
  grows st (setRegionPath p st).
Proof. apply grows_same. reflexivity. Qed.

Lemma grows_refl (st : State) : grows st st.
Proof. apply grows_same. reflexivity. Qed.

(** Chains of the four state updates. *)
Ltac grow :=
  repeat match goal with
    | |- grows ?a ?a => apply grows_refl
    | |- grows _ (emit _ _) => eapply grows_trans; [|apply grows_emit]
    | |- grows _ (moveTo _ _ _) => eapply grows_trans; [|apply grows_moveTo]
    | |- grows _ (setRegionPath _ _) =>
        eapply grows_trans; [|apply grows_setRegionPath]
    | |- grows _ (updateBounds _ _ _) =>
        eapply grows_trans; [|apply grows_updateBounds]
    end.

Lemma grows_outlinePoints (mods : gmap string number) (px py : number)
    (n : nat) :
  forall (pts : list MacroValue) (acc : list string) (st : State),
    (List.length pts <= n)%nat ->
    grows st (snd (outlinePoints mods px py pts acc st)).
Proof.
  induction n as [|n IH]; intros pts acc st Hn.
  - destruct pts; [apply grows_refl|simpl in Hn; lia].
  - destruct pts as [|vx rest]; [apply grows_refl|].
    cbn [outlinePoints].
    destruct (negb (isNaN (evaluate (Some vx) mods))
              && negb (isNaN (evaluate (head rest) mods))).
    + destruct rest as [|vy rest']; [cbn [snd]; grow|].
      eapply grows_trans; [apply grows_updateBounds|].
      apply IH. simpl in Hn. lia.
    + destruct rest as [|vy rest']; [apply grows_refl|].
      apply IH. simpl in Hn. lia.
Qed.

Lemma grows_renderBlock (mods : gmap string number) (px py : number)
    (b : MacroBlock) (st : State) :
  grows st (renderBlock mods px py b st).
Proof.
  unfold renderBlock.
  destruct (String.eqb (btype b) "circle").
  { destruct (negb _); grow. }
  destruct (String.eqb (btype b) "vect"); [grow|].
  destruct (String.eqb (btype b) "outline").
  { destruct (points b) as [ps|]; [|apply grows_refl].
    pose proof (grows_outlinePoints mods px py (List.length ps) ps [] st
                  (Nat.le_refl _)) as H.
    destruct (outlinePoints mods px py ps [] st) as [pts st1].
    cbn [snd] in H. destruct pts; [exact H|].
    eapply grows_trans; [exact H|apply grows_emit]. }
  destruct (_ || _); grow.
Qed.

Lemma grows_renderMacro (macroName : string) (params : list number)
    (px py : number) (st : State) :
  grows st (renderMacro macroName params px py st).
Proof.
  unfold renderMacro. destruct (macros st !! macroName) as [blocks|];
    [|apply grows_refl].
  revert st. induction blocks as [|b bs IH]; intros st; [apply grows_refl|].
  cbn [fold_left]. eapply grows_trans; [apply grows_renderBlock|apply IH].
Qed.

Lemma grows_flash (px py : number) (st st' : State) :
  flash px py st = Some st' -> grows st st'.
Proof.
  unfold flash. destruct (toolObjOf st) as [t|]; [|discriminate].
  intros [= <-].
  destruct (macros st !! shape t); [apply grows_renderMacro|].
  destruct (String.eqb (shape t) "circle"); [grow|].
  destruct (String.eqb (shape t) "rect"); [grow|].
  destruct (String.eqb (shape t) "obround"); grow.
Qed.

Section Host.

Variable Math_atan2 : number -> number -> number.
Variable Math_PI : number.

Lemma grows_interpolate (px py i j : number) (st : State) :
  grows st (interpolate Math_atan2 Math_PI px py i j st).
Proof.
  unfold interpolate. destruct (isRegion st), (interpolationMode st); grow.
Qed.

Lemma grows_step (st : State) (cmd : Command) :
  grows st (step Math_atan2 Math_PI st cmd).
Proof.
  destruct cmd as [code tool|name blocks|value|value|value|value| |op coord|];
    try (apply grows_same; reflexivity).
  - apply grows_same. unfold step.
    destruct value; [reflexivity|]. destruct (regionPath st); reflexivity.
  - unfold step.
    set (px := default (currentX st) (coordX coord)).
    set (py := default (currentY st) (coordY coord)).
    set (st1 := updateBounds (toMM st px) (toMM st py) st).
    assert (H1 : grows st st1) by apply grows_updateBounds.
    destruct op.
    + eapply grows_trans; [exact H1|].
      destruct (isRegion st1); grow.
    + eapply grows_trans; [exact H1|].
      eapply grows_trans; [apply grows_interpolate|apply grows_moveTo].
    + destruct (flash px py st1) as [st2|] eqn:E; [|exact H1].
      eapply grows_trans; [exact H1|].
      eapply grows_trans; [eapply grows_flash, E|apply grows_moveTo].
    + exact H1.
Qed.

Lemma grows_run (commands : list Command) (st : State) :
  grows st (fold_left (step Math_atan2 Math_PI) commands st).
Proof.
  revert st. induction commands as [|c cs IH]; intros st; [apply grows_refl|].
  cbn [fold_left]. eapply grows_trans; [apply grows_step|apply IH].
Qed.

(** X5. Whatever the commands, [NaN] coordinates included, no accumulator
    of the bounding box ever becomes [NaN], and the box after more
    commands holds the box after fewer: it never shrinks. *)
Theorem box_never_shrinks (before after : list Command) :
  let st := fold_left (step Math_atan2 Math_PI) before initialState in
  let st' := fold_left (step Math_atan2 Math_PI) (before ++ after)
                       initialState in
  soundBox (box st) /\ soundBox (box st') /\ holds (box st') (box st).
Proof.
  cbv zeta. rewrite fold_left_app.
  assert (H0 : soundBox (box initialState)) by (repeat split; reflexivity).
  destruct (grows_run before initialState H0) as [H1 _].
  split; [exact H1|]. apply (grows_run after _ H1).
Qed.

(** *** Regions *)

(** A straight draw inside a region appends one line command to the
    contour and emits nothing. *)
Lemma step_region_draw (st : State) (p : number * number) :
  isRegion st = true -> interpolationMode st = ModeI ->
  let st' := step Math_atan2 Math_PI st (OpCmd OpInt (coordOf p)) in
  svgContent st' = svgContent st
  /\ regionPath st'
     = push (regionPath st)
            ("L " ++ fmt st (fst p) ++ " " ++ fmt st (snd p))
  /\ isRegion st' = true /\ interpolationMode st' = ModeI
  /\ unitScale st' = unitScale st
  /\ currentX st' = fst p /\ currentY st' = snd p.
Proof.
  intros Hr Hm. cbv zeta. unfold step, coordOf.
  cbn [coordX coordY coordI coordJ default].
  set (st1 := updateBounds _ _ st).
  unfold interpolate.
  change (isRegion st1) with (isRegion st).
  change (interpolationMode st1) with (interpolationMode st).
  rewrite Hr, Hm.
  repeat split; try reflexivity; assumption.
Qed.

Lemma fmt_unitScale (st st' : State) (n : number) :
  unitScale st' = unitScale st -> fmt st' n = fmt st n.
Proof. intros E. unfold fmt, toMM. rewrite E. reflexivity. Qed.

Lemma last_cons {A : Type} (l : list A) :
  forall a d : A, List.last (a :: l) d = List.last l a.
Proof.
  induction l as [|b l IH]; intros a d; [reflexivity|].
  change (List.last (a :: b :: l) d) with (List.last (b :: l) d).
  rewrite !IH. reflexivity.
Qed.

Lemma run_region_draws (pts : list (number * number)) :
  forall st : State,
    isRegion st = true -> interpolationMode st = ModeI ->
    let st' := fold_left (step Math_atan2 Math_PI)
                         (map (fun p => OpCmd OpInt (coordOf p)) pts) st in
    svgContent st' = svgContent st
    /\ regionPath st'
       = pushAll (regionPath st)
           (map (fun p => "L " ++ fmt st (fst p) ++ " " ++ fmt st (snd p))
                pts)
    /\ isRegion st' = true /\ interpolationMode st' = ModeI
    /\ unitScale st' = unitScale st
    /\ (currentX st', currentY st')
       = List.last pts (currentX st, currentY st).
Proof.
  induction pts as [|p ps IH]; intros st Hr Hm; cbv zeta.
  - cbn [map fold_left List.last]. unfold pushAll. rewrite app_nil_r.
    repeat split; try reflexivity; assumption.
  - cbn [map fold_left].
    destruct (step_region_draw st p Hr Hm)
      as (E1 & E2 & E3 & E4 & E5 & E6 & E7).
    cbv zeta in E1, E2, E3, E4, E5, E6, E7.
    destruct (IH _ E3 E4) as (F1 & F2 & F3 & F4 & F5 & F6).
    cbv zeta in F1, F2, F3, F4, F5, F6.
    rewrite F1, F2, F3, F4, F5, F6, E1, E2, E5, E6, E7.
    split; [reflexivity|]. split.
    { unfold push, pushAll. rewrite <- app_assoc. cbn [app map].
      f_equal. f_equal.
      apply map_ext. intros q. rewrite !(fmt_unitScale st _ _ E5).
      reflexivity. }
    split; [reflexivity|]. split; [reflexivity|]. split; [reflexivity|].
    rewrite last_cons. destruct p; reflexivity.
Qed.

(** X6. In linear mode a region that is opened, drawn through any list of
    points and closed emits nothing until it is closed, and then one
    closed path: a move to the point where it was opened, a line to each
    point and the closing command; the renderer is then outside the region
    with an empty contour, at the last point. *)
Theorem region_is_one_closed_path (st : State)
    (pts : list (number * number)) :
  interpolationMode st = ModeI ->
  let draws := map (fun p => OpCmd OpInt (coordOf p)) pts in
  let opened := fold_left (step Math_atan2 Math_PI)
                          (SetRegion true :: draws) st in
  let closed := step Math_atan2 Math_PI opened (SetRegion false) in
  svgContent opened = svgContent st
  /\ svgContent closed
     = svgContent st ++ regionElement (push (contour st pts) "Z")
  /\ isRegion closed = false /\ regionPath closed = []
  /\ (currentX closed, currentY closed)
     = List.last pts (currentX st, currentY st).
Proof.
  intros Hm. cbv zeta. cbn [fold_left].
  set (st0 := step Math_atan2 Math_PI st (SetRegion true)).
  assert (Hr0 : isRegion st0 = true) by reflexivity.
  assert (Hm0 : interpolationMode st0 = ModeI) by exact Hm.
  destruct (run_region_draws pts st0 Hr0 Hm0) as (F1 & F2 & F3 & F4 & F5 & F6).
  cbv zeta in F1, F2, F3, F4, F5, F6.
  set (st1 := fold_left _ _ st0) in *.
  split; [exact F1|].
  assert (Hp : regionPath st1 = contour st pts).
  { rewrite F2. reflexivity. }
  unfold step at 1. rewrite Hp.
  unfold contour at 1 3.
  cbn [svgContent regionPath isRegion currentX currentY setRegionPath emit].
  rewrite F1. split; [reflexivity|]. split; [reflexivity|].
  split; [reflexivity|].
  assert (Hc : forall s : State,
             (currentX (step Math_atan2 Math_PI s (SetRegion false)),
              currentY (step Math_atan2 Math_PI s (SetRegion false)))
             = (currentX s, currentY s)).
  { intros s. unfold step. destruct (regionPath s); reflexivity. }
  rewrite Hc. exact F6.
Qed.

End Host.

Lemma region_is_one_closed_path_witness :
  interpolationMode initialState = ModeI
  /\ svgContent
       (step noAtan2 noPI
          (fold_left (step noAtan2 noPI)
             (SetRegion true
              :: map (fun p => OpCmd OpInt (coordOf p))
                     [(Fin 1, Fin 0); (Fin 1, Fin 1); (Fin 0, Fin 0)])
             initialState)
          (SetRegion false))
     = regionElement
         ["M 0.0000 0.0000"; "L 1.0000 0.0000"; "L 1.0000 1.0000";
          "L 0.0000 0.0000"; "Z"].
Proof.
  split; [reflexivity|].
  rewrite (proj1 (proj2 (region_is_one_closed_path noAtan2 noPI initialState
             [(Fin 1, Fin 0); (Fin 1, Fin 1); (Fin 0, Fin 0)] eq_refl))).
  vm_compute. reflexivity.
Defined.

(** *** The box of a flash *)

(** X20. In the command-list renderer a flash of a circular aperture of
    diameter [d] at [(px, py)], alone in its layer and in millimetres,
    gives the bounds [{px - d/2, py - d/2, d, d}]: the box of the whole
    pad. *)
Theorem flash_box_is_the_pad (code : string) (d px py : Q) :
  isEmpty code = false -> (0 <= d)%Q ->
  boundsEq
    (snd (renderGerberWithCustomParser noAtan2 noPI
            [ToolCmd code (circleTool d); SetTool code;
             OpCmd OpFlash (coordXY px py)]))
    (mkBounds (Fin (px - d / 2)) (Fin (py - d / 2)) (Fin d) (Fin d)).
Proof. apply RendererFacts.renderer_flash_bounds. Qed.

Lemma flash_box_is_the_pad_witness :
  isEmpty "10" = false /\ (0 <= 1)%Q
  /\ boundsEq
       (snd (renderGerberWithCustomParser noAtan2 noPI
               [ToolCmd "10" (circleTool 1); SetTool "10";
                OpCmd OpFlash (coordXY 3 4)]))
       (mkBounds (Fin (3 - 1 / 2)) (Fin (4 - 1 / 2)) (Fin 1) (Fin 1)).
Proof.
  assert (H : (0 <= 1)%Q) by discriminate.
  split; [reflexivity|]. split; [exact H|].
  exact (flash_box_is_the_pad "10" 1 3 4 eq_refl H).
Defined.

End RendererMore.

(** ** [VectorProcessor.mirror]: one reflection *)

Module MirrorOnce.
Import VectorProcessor.

Local Open Scope Q_scope.








(** Outside these commands the places that [mirror] reflects are not the
    X coordinates: the operand of a vertical line, a Y coordinate, is
    reflected as well. *)
Example mirror_vertical_line :
  absolutePath verticalSample = false
  /\ mirror verticalSample (Some sampleBounds) = "M1.000 2V-4.000".
Proof. split; vm_compute; reflexivity. Qed.

End MirrorOnce.

(** ** [VectorProcessor.invert]: the successful run *)

Module InvertSuccess.
Import VectorProcessor.

Lemma startsWith_split (p s : string) :
  startsWith p s = true -> s = p ++ drop (String.length p) s.
Proof.
  revert s. induction p as [|a p IH]; intros s H; [reflexivity|].
  destruct s as [|b s]; [discriminate H|].
  rewrite startsWith_cons in H. apply andb_true_iff in H as [H1 H2].
  apply Ascii.eqb_eq in H1. subst b.
  cbn [String.length drop String.append]. f_equal. apply IH, H2.
Qed.

Lemma findFirst_split {A : Type} (f : string -> option A) (s : string)
    (a : A) :
  findFirst f s = Some a -> exists pre s', s = pre ++ s' /\ f s' = Some a.
Proof.
  induction s as [|c s IH]; cbn [findFirst].
  - destruct (f EmptyString) eqn:E; [|discriminate].
    intros [= <-]. exists EmptyString, EmptyString. split; [reflexivity|exact E].
  - destruct (f (String c s)) eqn:E.
    + intros [= <-]. exists EmptyString, (String c s).
      split; [reflexivity|exact E].
    + intros H. destruct (IH H) as (pre & s' & -> & Hs').
      exists (String c pre), s'. split; [reflexivity|exact Hs'].
Qed.

(** A match of the pattern is a whole attribute with a non-empty value
    that holds no quote. *)
Lemma matchD_attribute (s d : string) :
  matchD s = Some d ->
  d <> EmptyString /\ any isQuote d = false
  /\ exists post, s = dAttribute d ++ post.
Proof.
  unfold matchD.
  destruct (startsWith ("d=" ++ quote) s) eqn:E; [|discriminate].
  apply startsWith_split in E.
  change (String.length ("d=" ++ quote)) with 3%nat in E.
  destruct (span (fun c => negb (Ascii.eqb c "034")) (drop 3 s))
    as [g r] eqn:Es.
  destruct (isEmpty g) eqn:Eg; [discriminate|].
  destruct (startsWith quote r) eqn:Er; [|discriminate].
  intros [= <-].
  apply span_spec in Es as (Ed & Hall & _).
  apply startsWith_split in Er.
  split; [apply isEmpty_false, Eg|]. split.
  - apply any_false_all. exact Hall.
  - exists (drop (String.length quote) r).
    rewrite E at 1. rewrite Ed. rewrite Er at 1.
    unfold dAttribute. rewrite !append_assoc. reflexivity.
Qed.

Section Kernel.

Variable Item : Type.
Variable PathItem : Type.
Variable importSVG : string -> result (option Item).
Variable getItems : Item -> result (list Item).
Variable toPathItem : Item -> result (option PathItem).
Variable subtract : Bounds -> list PathItem -> result PathItem.
Variable simplify : number -> PathItem -> result PathItem.
Variable exportSVG : PathItem -> result string.

Let invert :=
  invert Item PathItem importSVG getItems toPathItem subtract
         simplify exportSVG.
Let collectTraces := collectTraces Item PathItem toPathItem.

(** X8. When the input is not blank and every call of the kernel succeeds
    with some geometry found, [invert] returns the value of the first
    attribute [d] of the exported SVG that is not empty: a text without
    quotes that stands in the export; and when the export has no such
    attribute it returns the empty string. *)
Theorem invert_returns_exported_path (s : string) (b : Bounds) (p : number)
    (item : Item) (items : list Item) (traces : list PathItem)
    (clearance simplified : PathItem) (svg : string) :
  isEmpty (trim s) = false ->
  importSVG (svgContentOf s) = Ok (Some item) ->
  getItems item = Ok items ->
  collectTraces items [] false = Ok (traces, true) ->
  subtract (boardRectangle b p) traces = Ok clearance ->
  simplify (Fin (1 # 1000)) clearance = Ok simplified ->
  exportSVG simplified = Ok svg ->
  (forall d : string,
      findFirst matchD svg = Some d ->
      invert s b p = d /\ d <> EmptyString /\ any isQuote d = false
      /\ exists pre post, svg = pre ++ dAttribute d ++ post)
  /\ (findFirst matchD svg = None -> invert s b p = EmptyString).
Proof.
  intros Hs H1 H2 H3 H4 H5 H6.
  assert (E : invert s b p = default EmptyString (findFirst matchD svg)).
  { unfold invert, VectorProcessor.invert, invertBody. rewrite Hs, H1.
    cbn [bind]. rewrite H2. cbn [bind].
    unfold collectTraces in H3. rewrite H3. cbn [bind negb].
    rewrite H4. cbn [bind]. rewrite H5. cbn [bind]. rewrite H6.
    reflexivity. }
  split.
  - intros d Hd. rewrite E, Hd. split; [reflexivity|].
    destruct (findFirst_split matchD svg d Hd) as (pre & s' & -> & Hm).
    destruct (matchD_attribute s' d Hm) as (Hne & Hq & post & ->).
    split; [exact Hne|]. split; [exact Hq|].
    exists pre, post. reflexivity.
  - intros Hn. rewrite E, Hn. reflexivity.
Qed.

End Kernel.

Lemma invert_returns_exported_path_witness :
  invertWithExport ("<path " ++ dAttribute "M0 0L1 0L1 1Z" ++ "/>")
                   "M0 0 L1 1" zeroBounds (Fin 2)
  = "M0 0L1 0L1 1Z"
  /\ invertWithExport "<g/>" "M0 0 L1 1" zeroBounds (Fin 2) = EmptyString.
Proof.
  split.
  - apply (proj1 (invert_returns_exported_path unit unit okImport oneItem
                    asPath okSubtract okSimplify
                    (exportOf ("<path " ++ dAttribute "M0 0L1 0L1 1Z" ++ "/>"))
                    "M0 0 L1 1" zeroBounds (Fin 2) tt [tt] [tt] tt tt _
                    eq_refl eq_refl eq_refl eq_refl eq_refl eq_refl eq_refl)).
    vm_compute. reflexivity.
  - apply (proj2 (invert_returns_exported_path unit unit okImport oneItem
                    asPath okSubtract okSimplify (exportOf "<g/>")
                    "M0 0 L1 1" zeroBounds (Fin 2) tt [tt] [tt] tt tt _
                    eq_refl eq_refl eq_refl eq_refl eq_refl eq_refl eq_refl)).
    vm_compute. reflexivity.
Defined.

End InvertSuccess.

(** ** useProcessor.ts: [processLayers] *)

Module ProcessorFacts.
Import PCB Processor.

Section Kernel.

Variable Item : Type.
Variable PathItem : Type.
Variable importSVG : string -> result (option Item).
Variable getItems : Item -> result (list Item).
Variable toPathItem : Item -> result (option PathItem).
Variable subtract : Bounds -> list PathItem -> result PathItem.
Variable simplify : number -> PathItem -> result PathItem.
Variable exportSVG : PathItem -> result string.

Let processLayer :=
  processLayer Item PathItem importSVG getItems toPathItem subtract
               simplify exportSVG.
Let processLayers :=
  processLayers Item PathItem importSVG getItems toPathItem subtract
                simplify exportSVG.

Lemma processLayer_plain (b : Bounds) (l : PCBLayer) :
  inverted l = false -> processLayer b l = l.
Proof.
  intros H. unfold processLayer, Processor.processLayer.
  destruct l. cbn [inverted] in H. subst. reflexivity.
Qed.

Lemma processLayer_inverted (b : Bounds) (l : PCBLayer) :
  inverted (processLayer b l) = false.
Proof.
  unfold processLayer, Processor.processLayer.
  destruct (inverted l); reflexivity.
Qed.

Lemma processLayers_map (layers : list PCBLayer) (b : Bounds)
    (old : list PCBLayer) :
  layers <> [] -> processLayers layers b old = map (processLayer b) layers.
Proof. destruct layers; [congruence|reflexivity]. Qed.

(** X9. [processLayers] leaves every layer that is not inverted as it is;
    it replaces the content of an inverted layer by the inversion, takes
    its bounds from the new content and clears the flag, so that no layer
    of the result is inverted; it keeps the number, the order and the
    identifiers of the layers; and processing the result once more, with
    whatever bounds, changes nothing. *)
Theorem processLayers_settles (layers : list PCBLayer) (b b' : Bounds)
    (old old' : list PCBLayer) :
  layers <> [] ->
  let done := processLayers layers b old in
  Forall (fun l => inverted l = false) done
  /\ map id done = map id layers
  /\ Forall2 (fun l l' =>
                if inverted l then
                  bounds l' = Some (GerberToPath.calculatePathBounds
                                      (content l'))
                else l' = l)
             layers done
  /\ processLayers done b' old' = done.
Proof.
  intros Hne. cbv zeta. rewrite (processLayers_map layers b old Hne).
  split; [|split; [|split]].
  - clear Hne. induction layers as [|l ls IH]; constructor;
      [apply processLayer_inverted|exact IH].
  - clear Hne. induction layers as [|l ls IH]; [reflexivity|].
    cbn [map]. f_equal; [|exact IH].
    unfold processLayer, Processor.processLayer.
    destruct (inverted l); reflexivity.
  - clear Hne. induction layers as [|l ls IH]; constructor; [|exact IH].
    destruct (inverted l) eqn:E.
    + unfold processLayer, Processor.processLayer. rewrite E. reflexivity.
    + apply processLayer_plain, E.
  - rewrite processLayers_map
      by (destruct layers; [congruence|discriminate]).
    clear Hne. induction layers as [|l ls IH]; [reflexivity|].
    cbn [map]. f_equal; [|exact IH].
    apply processLayer_plain, processLayer_inverted.
Qed.

End Kernel.

Lemma processLayers_settles_witness :
  [layerOf "F.Cu" Front true "M0 0 L1 1" None] <> []
  /\ Forall (fun l => inverted l = false)
            (Processor.processLayers unit unit VectorProcessor.nullImport VectorProcessor.noItems VectorProcessor.noPath
               VectorProcessor.noSubtract VectorProcessor.noSimplify VectorProcessor.noExport
               [layerOf "F.Cu" Front true "M0 0 L1 1" None] zeroBounds []).
Proof.
  assert (H : [layerOf "F.Cu" Front true "M0 0 L1 1" None] <> [])
    by discriminate.
  split; [exact H|].
  exact (proj1 (processLayers_settles unit unit VectorProcessor.nullImport VectorProcessor.noItems VectorProcessor.noPath
                  VectorProcessor.noSubtract VectorProcessor.noSimplify VectorProcessor.noExport
                  [layerOf "F.Cu" Front true "M0 0 L1 1" None]
                  zeroBounds zeroBounds [] [] H)).
Defined.

End ProcessorFacts.

(** ** App.tsx: the board bounds *)

Module AppFacts.
Import PCB App.

Local Open Scope Q_scope.

Lemma addCopper_wide (e : GerberToPath.Extent) (l : PCBLayer) :
  finitePCBLayer l -> wide e -> wide (addCopper e l).
Proof.
  unfold finitePCBLayer, finiteLayer, toLayer, addCopper.
  cbn [GerberToPath.bounds].
  destruct (bounds l) as [b|]; [|auto].
  intros [(Hx & Hy & Hw & Hh) _] He.
  destruct b as [bx by_ w h]. cbn [x y width height] in *.
  destruct bx as [| |bx|], by_ as [| |by_|], w as [| |w|], h as [| |h|];
    try contradiction.
  destruct (greaterThan (Fin w) (Fin 0)) eqn:Ew; [|exact He].
  apply lessThan_fin in Ew.
  unfold wide in *. cbn [GerberToPath.eHasAny add].
  destruct (GerberToPath.eHasAny e).
  - destruct He as (mx & my & Mx & My & -> & Hlt).
    cbn [GerberToPath.eMinX GerberToPath.eMinY GerberToPath.eMaxX
         GerberToPath.eMaxY].
    rewrite !Math_min_fin_fin, !Math_max_fin_fin.
    do 4 eexists. split; [reflexivity|].
    pose proof (Qmin_if_le_l mx bx). pose proof (Qmax_if_ge_l Mx (bx + w)).
    lra.
  - subst e. exists bx, by_, (bx + w), (by_ + h). split; [reflexivity|lra].
Qed.

Lemma fold_addCopper_wide (layers : list PCBLayer) (e : GerberToPath.Extent) :
  Forall finitePCBLayer layers -> wide e ->
  wide (fold_left addCopper layers e).
Proof.
  intros H. revert e. induction H as [|l ls Hl Hls IH]; intros e He;
    [exact He|].
  cbn [fold_left]. apply IH, addCopper_wide; assumption.
Qed.

Lemma copperUnion_positive (layers : list PCBLayer) (b : Bounds) :
  Forall finitePCBLayer layers -> copperUnion layers = Some b ->
  finiteBounds b /\ greaterThan (width b) (Fin 0) = true.
Proof.
  intros H. unfold copperUnion.
  assert (Hc : Forall finitePCBLayer (List.filter isCopper layers)).
  { induction H as [|l ls Hl Hls IH]; [constructor|].
    cbn [List.filter]. destruct (isCopper l); [constructor|]; assumption. }
  pose proof (fold_addCopper_wide _ GerberToPath.emptyExtent Hc eq_refl) as Hw.
  destruct (List.filter isCopper layers) as [|c cs]; [discriminate|].
  unfold wide in Hw.
  destruct (GerberToPath.eHasAny _); [|discriminate].
  destruct Hw as (mx & my & Mx & My & -> & Hlt).
  intros [= <-].
  cbn [GerberToPath.eMinX GerberToPath.eMinY GerberToPath.eMaxX
       GerberToPath.eMaxY sub neg add].
  split; [repeat split; exact I|].
  apply lessThan_fin. cbn [width]. lra.
Qed.

Lemma boardOutline_positive (layers : list PCBLayer) (b : Bounds) :
  Forall finitePCBLayer layers -> boardOutline layers = Some b ->
  finiteBounds b /\ greaterThan (width b) (Fin 0) = true.
Proof.
  intros H. unfold boardOutline.
  destruct (List.find _ layers) as [bl|] eqn:E; [|discriminate].
  apply List.find_some in E as [Hin _].
  pose proof (proj1 (List.Forall_forall _ _) H bl Hin) as Hbl.
  unfold finitePCBLayer, finiteLayer, toLayer in Hbl.
  cbn [GerberToPath.bounds] in Hbl.
  destruct Hbl as [Hbl _].
  destruct (bounds bl) as [b'|]; [|discriminate].
  destruct (greaterThan (width b') (Fin 0)) eqn:Ew; [|discriminate].
  intros [= <-]. split; assumption.
Qed.

Lemma getBounds_positive (layers : list GerberToPath.Layer) :
  Forall finiteLayer layers ->
  finiteBounds (GerberToPath.getBounds layers)
  /\ greaterThan (width (GerberToPath.getBounds layers)) (Fin 0) = true.
Proof.
  intros H. unfold GerberToPath.getBounds.
  pose proof (GetBoundsFacts.fold_addLayer_good layers
                GerberToPath.emptyExtent eq_refl H) as G.
  unfold goodExtent in G.
  destruct (GerberToPath.eHasAny _); cbn [negb orb].
  - destruct G as (H1 & H2 & H3 & H4).
    destruct (GerberToPath.eMinX _) as [| |mx|]; try contradiction.
    destruct (GerberToPath.eMinY _) as [| |my|]; try contradiction.
    destruct (GerberToPath.eMaxX _) as [| |Mx|]; try contradiction.
    destruct (GerberToPath.eMaxY _) as [| |My|]; try contradiction.
    cbn [strictEq sub neg add]. rewrite !Math_max_fin_fin.
    split; [repeat split; exact I|].
    cbn [width]. apply lessThan_fin.
    pose proof (Qmax_if_ge_l (1 # 10) (Mx + - mx)). lra.
  - split; [repeat split; exact I|reflexivity].
Qed.

Lemma safe_finitePCBLayers (layers : list PCBLayer) :
  forallb safePCBLayer layers = true -> Forall finitePCBLayer layers.
Proof.
  intros H. apply forallb_Forall in H. eapply Forall_impl; [exact H|].
  intros l. apply GetBoundsFacts.safe_finiteLayer.
Qed.

(** X10. When the bounds that the layers carry and the numerals of their
    contents are in the safe range, the board bounds (the bounds of the
    first board layer, else the union of the copper layers, else the
    bounds of all layers) are finite and of positive width. *)
Theorem boardBounds_positive_width (layers : list PCBLayer) :
  forallb safePCBLayer layers = true ->
  finiteBounds (boardBounds layers)
  /\ greaterThan (width (boardBounds layers)) (Fin 0) = true.
Proof.
  intros H. apply safe_finitePCBLayers in H. unfold boardBounds.
  destruct (boardOutline layers) as [b|] eqn:E1;
    [exact (boardOutline_positive layers b H E1)|].
  destruct (copperUnion layers) as [b|] eqn:E2;
    [exact (copperUnion_positive layers b H E2)|].
  apply getBounds_positive.
  clear E1 E2. induction H as [|l ls Hl Hls IH]; [constructor|].
  cbn [map]. constructor; assumption.
Qed.

Lemma boardBounds_positive_width_witness :
  forallb safePCBLayer
          [layerOf "B.Mask" Back false "M0 0 L5 5" None;
           layerOf "F.Cu" Front false ""
                   (Some (mkBounds (Fin 1) (Fin 2) (Fin 30) (Fin 20)))]
  = true
  /\ boundsEq
       (boardBounds
          [layerOf "B.Mask" Back false "M0 0 L5 5" None;
           layerOf "F.Cu" Front false ""
                   (Some (mkBounds (Fin 1) (Fin 2) (Fin 30) (Fin 20)))])
       (mkBounds (Fin 1) (Fin 2) (Fin 30) (Fin 20))
  /\ greaterThan
       (width (boardBounds
                 [layerOf "B.Mask" Back false "M0 0 L5 5" None;
                  layerOf "F.Cu" Front false ""
                          (Some (mkBounds (Fin 1) (Fin 2) (Fin 30) (Fin 20)))]))
       (Fin 0) = true.
Proof.
  assert (H : forallb safePCBLayer
                [layerOf "B.Mask" Back false "M0 0 L5 5" None;
                 layerOf "F.Cu" Front false ""
                         (Some (mkBounds (Fin 1) (Fin 2) (Fin 30) (Fin 20)))]
              = true) by (vm_compute; reflexivity).
  split; [exact H|]. split; [vm_compute; repeat split|].
  exact (proj2 (boardBounds_positive_width _ H)).
Defined.

(** Without the bound on the numerals the fallback gives a box whose
    width is not a number. *)
Example boardBounds_overflow :
  width (boardBounds [layerOf "B.Mask" Back false overflowingPath None])
  = NaN.
Proof. vm_compute. reflexivity. Qed.

End AppFacts.

(** ** XCSGenerator: tightening a path *)

Module XCSFacts.
Import XCSGenerator.

Local Open Scope Q_scope.

Lemma commandLetter_isLetter (c : ascii) :
  VectorProcessor.isCommandLetter c = true -> isLetter c = true.
Proof.
  unfold VectorProcessor.isCommandLetter, isLetter. intros H.
  apply andb_true_iff in H as [H _]. apply andb_true_iff in H as [H _].
  exact H.
Qed.

Lemma numeralChar_not_letter (c : ascii) :
  isNumeralChar c = true -> isLetter c = false.
Proof.
  destruct c as [[] [] [] [] [] [] [] []]; vm_compute; congruence.
Qed.

Lemma numeral_no_letter (t : string) :
  all isNumeralChar t = true -> hasLetter t = false.
Proof.
  induction t as [|c t IH]; [reflexivity|].
  cbn [all hasLetter]. intros H. apply andb_true_iff in H as [H1 H2].
  rewrite (numeralChar_not_letter c H1), (IH H2). reflexivity.
Qed.

(** The tokens are words and numerals. *)
Lemma tokens_shape (s : string) :
  forall k : nat,
    Forall (fun t => wordToken t \/ hasLetter t = false) (tokens_aux k s).
Proof.
  induction s as [|c r IH]; intros k; [constructor|].
  cbn [tokens_aux]. destruct k as [|k]; [|apply IH].
  destruct (span VectorProcessor.isCommandLetter (String c r))
    as [run rest] eqn:Es.
  cbn [fst]. destruct (isEmpty run) eqn:Er; cbn [negb].
  - destruct (matchNumber (String c r)) as [m|] eqn:Em; [|apply IH].
    constructor; [|apply IH]. right.
    destruct (matchNumber_inv _ _ Em) as (sg & ip & fp & Hwf & ->).
    apply numeral_no_letter, numeral_chars, Hwf.
  - constructor; [|apply IH]. left.
    apply span_spec in Es as (_ & Hall & _).
    split; [|exact Hall].
    destruct run as [|a run]; [discriminate|].
    cbn [all] in Hall. apply andb_true_iff in Hall as [Ha _].
    cbn [hasLetter]. rewrite (commandLetter_isLetter a Ha). reflexivity.
Qed.

(** The tokens of a path with safe numbers are words and numbers. *)
Lemma tokens_plain (path : string) :
  safeTokens path = true -> Forall plainToken (tokens path).
Proof.
  unfold safeTokens, tokens. intros H.
  pose proof (tokens_shape path 0) as Hs.
  induction Hs as [|t ts Ht Hts IH]; [constructor|].
  cbn [forallb] in H. apply andb_true_iff in H as [H1 H2].
  constructor; [|apply IH, H2].
  destruct Ht as [Hw|Hn]; [left; exact Hw|].
  right. split; [exact Hn|].
  rewrite Hn in H1. cbn [orb] in H1.
  destruct (safe_fin _ H1) as (q & Eq & _). exists q. exact Eq.
Qed.

(** Words leave the first loop where it was. *)
Lemma measure_words (ts : list string) (r : Range) :
  forallb hasLetter ts = true -> fold_left measure ts r = r.
Proof.
  revert r. induction ts as [|t ts IH]; intros r H; [reflexivity|].
  cbn [forallb] in H. apply andb_true_iff in H as [Ht Hts].
  cbn [fold_left]. unfold measure at 2. rewrite Ht. apply IH, Hts.
Qed.

Lemma measure_started (r : Range) (t : string) :
  plainToken t -> started r -> started (measure r t).
Proof.
  intros [[Hw _]|[Hn (q & Eq)]] Hr; unfold measure.
  - rewrite Hw. exact Hr.
  - rewrite Hn, Eq. cbn [isNaN].
    destruct Hr as ((m & M & Em & EM & Hle) & Hy).
    destruct (isX r).
    + split; [|exact Hy]. cbn [minX maxX]. rewrite Em, EM.
      rewrite Math_min_fin_fin, Math_max_fin_fin.
      do 2 eexists. split; [reflexivity|]. split; [reflexivity|].
      pose proof (Qmin_if_le_l m q). pose proof (Qmax_if_ge_l M q). lra.
    + split; [exists m, M; auto|]. cbn [minY maxY]. right.
      destruct Hy as [[-> ->]|(m' & M' & -> & -> & Hle')].
      * exists q, q. repeat split; try reflexivity. apply Qle_refl.
      * rewrite Math_min_fin_fin, Math_max_fin_fin.
        do 2 eexists. split; [reflexivity|]. split; [reflexivity|].
        pose proof (Qmin_if_le_l m' q). pose proof (Qmax_if_ge_l M' q). lra.
Qed.

Lemma fold_measure_started (ts : list string) (r : Range) :
  Forall plainToken ts -> started r -> started (fold_left measure ts r).
Proof.
  intros H. revert r. induction H as [|t ts Ht Hts IH]; intros r Hr;
    [exact Hr|].
  cbn [fold_left]. apply IH, measure_started; assumption.
Qed.

(** The first number of a path starts the range. *)
Lemma fold_measure_number (ts : list string) :
  Forall plainToken ts -> forallb hasLetter ts = false ->
  started (fold_left measure ts emptyRange).
Proof.
  induction 1 as [|t ts Ht Hts IH]; [discriminate|].
  cbn [forallb fold_left]. intros H.
  destruct (hasLetter t) eqn:El.
  - unfold measure at 2. rewrite El. apply IH. exact H.
  - destruct Ht as [[Hw _]|[_ (q & Eq)]]; [congruence|].
    apply fold_measure_started; [exact Hts|].
    unfold measure. rewrite El, Eq. cbn [isNaN emptyRange isX minX maxX
      minY maxY].
    split.
    + exists q, q. repeat split; try reflexivity. apply Qle_refl.
    + left. split; reflexivity.
Qed.

Lemma tighten_bounds_none (path : string) :
  safeTokens path = true ->
  bounds (calculateBoundsAndTighten path) = None
  <-> forallb hasLetter (tokens path) = true.
Proof.
  intros Hsafe. unfold calculateBoundsAndTighten. split.
  - destruct (forallb hasLetter (tokens path)) eqn:E; [reflexivity|].
    pose proof (tokens_plain path Hsafe) as Hp.
    destruct (fold_measure_number _ Hp E) as ((m & M & -> & _) & _).
    cbn [strictEq]. discriminate.
  - intros E. rewrite (measure_words _ emptyRange E). reflexivity.
Qed.

(** X11. A path that holds no number gets no bounds from
    [calculateBoundsAndTighten], and when the numbers of a path are in
    the safe range these are the only paths without bounds; a path
    without bounds is returned as it is, and [createPathDisplay] makes no
    display of it. *)
Theorem tighten_needs_a_number (path : string) :
  (forallb hasLetter (tokens path) = true ->
   bounds (calculateBoundsAndTighten path) = None)
  /\ (safeTokens path = true ->
      bounds (calculateBoundsAndTighten path) = None ->
      forallb hasLetter (tokens path) = true)
  /\ (bounds (calculateBoundsAndTighten path) = None ->
      dPath (calculateBoundsAndTighten path) = path
      /\ forall (id : string) (index : nat) (name color : string),
           createPathDisplay id index name path color = None).
Proof.
  split; [|split].
  - intros E. unfold calculateBoundsAndTighten.
    rewrite (measure_words _ emptyRange E). reflexivity.
  - intros Hsafe. apply tighten_bounds_none, Hsafe.
  - intros Hn. split.
    + unfold calculateBoundsAndTighten in *.
      destruct (strictEq _ _); [reflexivity|discriminate Hn].
    + intros id index name color. unfold createPathDisplay. rewrite Hn.
      reflexivity.
Qed.

Lemma tighten_needs_a_number_witness :
  forallb hasLetter (tokens "M Z") = true
  /\ safeTokens "M Z" = true
  /\ bounds (calculateBoundsAndTighten "M Z") = None
  /\ dPath (calculateBoundsAndTighten "M Z") = "M Z"
  /\ forallb hasLetter (tokens "M Z") = true.
Proof.
  assert (Hw : forallb hasLetter (tokens "M Z") = true)
    by (vm_compute; reflexivity).
  assert (Hs : safeTokens "M Z" = true) by (vm_compute; reflexivity).
  destruct (tighten_needs_a_number "M Z") as (T1 & T2 & T3).
  split; [exact Hw|]. split; [exact Hs|].
  split; [exact (T1 Hw)|].
  split; [exact (proj1 (T3 (T1 Hw)))|exact (T2 Hs (T1 Hw))].
Defined.

(** Without the bound on the numbers a path can hold numbers and get no
    bounds: an X numeral beyond the range of the host's numbers reads as
    an infinity, and the least X stays the sentinel. *)
Example tighten_overflow :
  forallb hasLetter (tokens overflowingX) = false
  /\ bounds (calculateBoundsAndTighten overflowingX) = None.
Proof. split; vm_compute; reflexivity. Qed.

(** *** The tightened path *)

Lemma digit_not_minus (c : ascii) : isDigit c = true -> isMinus c = false.
Proof.
  destruct c as [[] [] [] [] [] [] [] []]; vm_compute; congruence.
Qed.

Lemma commandLetter_not_minus (c : ascii) :
  VectorProcessor.isCommandLetter c = true -> isMinus c = false.
Proof.
  destruct c as [[] [] [] [] [] [] [] []]; vm_compute; congruence.
Qed.

Lemma all_no_minus (p : ascii -> bool) (s : string) :
  (forall c, p c = true -> isMinus c = false) ->
  all p s = true -> any isMinus s = false.
Proof.
  intros Hp H. apply any_false_all.
  eapply all_impl; [|exact H]. intros c Hc. rewrite (Hp c Hc). reflexivity.
Qed.

Lemma toFixed3_no_minus (q : Q) :
  0 <= q -> any isMinus (toFixed 3 (Fin q)) = false.
Proof.
  intros Hq. destruct (DigitFacts.toFixed3_numeral q) as (E & Hwf & _).
  cbv zeta in E, Hwf. rewrite E.
  assert (Es : Qltb q 0 = false) by (apply Qltb_ge; exact Hq).
  rewrite Es in *.
  apply wellFormedNumeral_parts in Hwf as (_ & Hi & Hf & _).
  unfold numeralText. rewrite !any_app.
  rewrite (all_no_minus isDigit _ digit_not_minus Hi).
  destruct (isEmpty _); [reflexivity|].
  rewrite any_app, (all_no_minus isDigit _ digit_not_minus Hf). reflexivity.
Qed.

Lemma any_trimStart (p : ascii -> bool) (s : string) :
  any p s = false -> any p (trimStart s) = false.
Proof.
  induction s as [|c s IH]; [reflexivity|].
  cbn [trimStart]. destruct (isWhiteSpace c); [|auto].
  cbn [any]. intros H. apply orb_false_iff in H as [_ H]. apply IH, H.
Qed.

Lemma any_trimEnd (p : ascii -> bool) (s : string) :
  any p s = false -> any p (trimEnd s) = false.
Proof.
  induction s as [|c s IH]; [reflexivity|].
  cbn [trimEnd any]. intros H. apply orb_false_iff in H as [H1 H2].
  destruct (isWhiteSpace c && isEmpty (trimEnd s)); [reflexivity|].
  cbn [any]. rewrite H1, (IH H2). reflexivity.
Qed.

Lemma any_trim (p : ascii -> bool) (s : string) :
  any p s = false -> any p (trim s) = false.
Proof. intros H. apply any_trimEnd, any_trimStart, H. Qed.

Lemma Math_min_lower (a : number) (v : Q) :
  isNaN a = false ->
  isNaN (Math_min a (Fin v)) = false
  /\ lessEq (Math_min a (Fin v)) a = true
  /\ lessEq (Math_min a (Fin v)) (Fin v) = true.
Proof.
  destruct a as [| |m|]; [discriminate| | |]; intros _.
  - repeat split; reflexivity.
  - rewrite Math_min_fin_fin. split; [reflexivity|].
    rewrite !lessEq_fin. split; [apply Qmin_if_le_l|apply Qmin_if_le_r].
  - cbn [Math_min lessThan]. split; [reflexivity|].
    split; [reflexivity|apply le_refl_fin].
Qed.

(** The origin that the first loop finds is at most every number of its
    turn. *)
Lemma measure_notBelow (ts : list string) :
  Forall plainToken ts ->
  forall r : Range,
    isNaN (minX r) = false -> isNaN (minY r) = false ->
    let r' := fold_left measure ts r in
    lessEq (minX r') (minX r) = true /\ lessEq (minY r') (minY r) = true
    /\ notBelow (minX r') (minY r') (isX r) ts.
Proof.
  induction 1 as [|t ts Ht Hts IH]; intros r Hx Hy; cbv zeta.
  - cbn [fold_left notBelow].
    split; [apply lessEq_refl, Hx|]. split; [apply lessEq_refl, Hy|exact I].
  - cbn [fold_left notBelow].
    destruct Ht as [[Hw _]|[Hn (q & Eq)]].
    + assert (Em : measure r t = r)
        by (unfold measure; rewrite Hw; reflexivity).
      rewrite Em, Hw. apply IH; assumption.
    + rewrite Hn, Eq.
      assert (Em : measure r t
                   = if isX r then
                       mkRange (Math_min (minX r) (Fin q)) (minY r)
                               (Math_max (maxX r) (Fin q)) (maxY r) false
                     else
                       mkRange (minX r) (Math_min (minY r) (Fin q))
                               (maxX r) (Math_max (maxY r) (Fin q)) true).
      { unfold measure. rewrite Hn, Eq. reflexivity. }
      rewrite Em. clear Em.
      destruct (isX r).
      * destruct (Math_min_lower (minX r) q Hx) as (N1 & L1 & L2).
        destruct (IH (mkRange (Math_min (minX r) (Fin q)) (minY r)
                              (Math_max (maxX r) (Fin q)) (maxY r) false)
                     N1 Hy) as (I1 & I2 & I3).
        cbv zeta in I1, I2, I3. cbn [minX minY isX] in I1, I2, I3.
        split; [eapply lessEq_trans; eassumption|].
        split; [exact I2|].
        split; [eapply lessEq_trans; eassumption|exact I3].
      * destruct (Math_min_lower (minY r) q Hy) as (N1 & L1 & L2).
        destruct (IH (mkRange (minX r) (Math_min (minY r) (Fin q))
                              (maxX r) (Math_max (maxY r) (Fin q)) true)
                     Hx N1) as (I1 & I2 & I3).
        cbv zeta in I1, I2, I3. cbn [minX minY isX] in I1, I2, I3.
        split; [exact I1|].
        split; [eapply lessEq_trans; eassumption|].
        split; [eapply lessEq_trans; eassumption|exact I3].
Qed.

Lemma shifted_no_minus (origin : number) (v : Q) :
  lessEq origin (Fin v) = true ->
  any isMinus (toFixed 3 (sub (Fin v) origin)) = false.
Proof.
  destruct origin as [| |m|]; try discriminate; intros H.
  - reflexivity.
  - apply lessEq_fin in H. cbn [sub neg add].
    apply toFixed3_no_minus. lra.
Qed.

(** The second loop writes no minus sign. *)
Lemma shift_no_minus (originX originY : number) (ts : list string) :
  Forall plainToken ts ->
  forall s0 : Shift,
    any isMinus (shiftedPath s0) = false ->
    notBelow originX originY (shiftIsX s0) ts ->
    any isMinus
        (shiftedPath (fold_left (shiftToken originX originY) ts s0))
    = false.
Proof.
  induction 1 as [|t ts Ht Hts IH]; intros s0 H0 Hb; [exact H0|].
  cbn [fold_left]. cbn [notBelow] in Hb.
  destruct Ht as [[Hw Hall]|[Hn (q & Eq)]].
  - rewrite Hw in Hb. apply IH.
    + unfold shiftToken. rewrite Hw. cbn [shiftedPath].
      rewrite !any_app, H0.
      rewrite (all_no_minus _ _ commandLetter_not_minus Hall).
      destruct (isEmpty (shiftedPath s0)); reflexivity.
    + unfold shiftToken. rewrite Hw. exact Hb.
  - rewrite Hn, Eq in Hb. destruct Hb as [Hle Hb]. apply IH.
    + unfold shiftToken. rewrite Hn, Eq. cbn [isNaN shiftedPath].
      rewrite !any_app, H0.
      assert (Hs : any isMinus
                     (toFixed 3 (if shiftIsX s0 then sub (Fin q) originX
                                 else sub (Fin q) originY)) = false).
      { destruct (shiftIsX s0); apply shifted_no_minus, Hle. }
      rewrite Hs. destruct (lastWasCommand s0); reflexivity.
    + unfold shiftToken. rewrite Hn, Eq. exact Hb.
Qed.

(** X12. A path with numbers of the safe range that
    [calculateBoundsAndTighten] tightens comes out without a minus sign:
    every number of the result, shifted by the origin of its turn and
    printed with three decimals, is zero or more; and the bounds have a
    finite origin in X and a width that is not negative. *)
Theorem tightened_path_is_not_negative (path : string) (b : Bounds) :
  safeTokens path = true ->
  bounds (calculateBoundsAndTighten path) = Some b ->
  any isMinus (dPath (calculateBoundsAndTighten path)) = false
  /\ finite (x b) /\ finite (width b)
  /\ lessEq (Fin 0) (width b) = true.
Proof.
  intros Hsafe.
  pose proof (tokens_plain path Hsafe) as Hp.
  destruct (forallb hasLetter (tokens path)) eqn:E.
  { unfold calculateBoundsAndTighten.
    rewrite (measure_words _ emptyRange E). discriminate. }
  destruct (fold_measure_number _ Hp E) as ((m & M & Em & EM & Hle) & _).
  destruct (measure_notBelow _ Hp emptyRange eq_refl eq_refl)
    as (_ & _ & Hb).
  cbv zeta in Hb. cbn [emptyRange isX] in Hb.
  unfold calculateBoundsAndTighten.
  set (r := fold_left measure (tokens path) emptyRange) in *.
  rewrite Em. cbn [strictEq bounds dPath]. intros [= <-].
  split.
  - apply any_trim. rewrite <- Em.
    apply (shift_no_minus _ _ _ Hp (mkShift "" true false) eq_refl Hb).
  - cbn [x width]. rewrite EM. cbn [sub neg add].
    split; [exact I|]. split; [exact I|]. apply lessEq_fin. lra.
Qed.

Lemma tightened_path_is_not_negative_witness :
  safeTokens "M2.500 4.000 L-3.5 6 Z" = true
  /\ bounds (calculateBoundsAndTighten "M2.500 4.000 L-3.5 6 Z")
     = Some (mkBounds (parseFloat "-3.5") (parseFloat "4.000")
                      (sub (parseFloat "2.500") (parseFloat "-3.5"))
                      (sub (parseFloat "6") (parseFloat "4.000")))
  /\ dPath (calculateBoundsAndTighten "M2.500 4.000 L-3.5 6 Z")
     = "M6.000 0.000 L0.000 2.000 Z"
  /\ any isMinus (dPath (calculateBoundsAndTighten "M2.500 4.000 L-3.5 6 Z"))
     = false.
Proof.
  assert (Hs : safeTokens "M2.500 4.000 L-3.5 6 Z" = true)
    by (vm_compute; reflexivity).
  assert (H : bounds (calculateBoundsAndTighten "M2.500 4.000 L-3.5 6 Z")
              = Some (mkBounds (parseFloat "-3.5") (parseFloat "4.000")
                               (sub (parseFloat "2.500") (parseFloat "-3.5"))
                               (sub (parseFloat "6") (parseFloat "4.000")))).
  { vm_compute. reflexivity. }
  split; [exact Hs|]. split; [exact H|]. split; [vm_compute; reflexivity|].
  exact (proj1 (tightened_path_is_not_negative _ _ Hs H)).
Defined.

(** *** The layer data and the displays *)

Lemma Forall_imap {A B : Type} (P : B -> Prop) (Q : A -> Prop)
    (l : list A) :
  forall f : nat -> A -> B,
    (forall i a, Q a -> P (f i a)) -> Forall Q l -> Forall P (imap f l).
Proof.
  induction l as [|a l IH]; intros f Hf H; [constructor|].
  inversion H as [|? ? Ha Hl]; subst. cbn [imap]. constructor.
  - apply Hf, Ha.
  - apply IH; [|exact Hl]. intros i b. apply Hf.
Qed.

Lemma fold_layerData_miss (c : string) (es : list (nat * XCSLayer)) :
  Forall (fun e => color (snd e) <> c) es ->
  forall m : gmap string LayerDatum,
    fold_left (fun data entry =>
                 <[color (snd entry)
                   := mkLayerDatum (name (snd entry)) (S (fst entry)) true]>
                   data) es m !! c
    = m !! c.
Proof.
  induction 1 as [|e es He Hes IH]; intros m; [reflexivity|].
  cbn [fold_left]. rewrite IH. apply lookup_insert_ne, He.
Qed.

(** X13. [generateLayerData] keeps one entry per colour: the entry of a
    colour is the one of the last layer of that colour, with its name and
    its place in the list, and it is marked visible whether the layer is
    or not; a colour that no layer has has no entry. *)
Theorem layerData_last_colour_wins :
  (forall (before after : list XCSLayer) (l : XCSLayer),
      Forall (fun l' => color l' <> color l) after ->
      generateLayerData (before ++ l :: after) !! color l
      = Some (mkLayerDatum (name l) (S (List.length before)) true))
  /\ (forall (layers : list XCSLayer) (c : string),
        Forall (fun l' => color l' <> c) layers ->
        generateLayerData layers !! c = None).
Proof.
  split.
  - intros before after l H. unfold generateLayerData.
    rewrite imap_app, fold_left_app. cbn [imap fold_left].
    rewrite fold_layerData_miss.
    + rewrite Nat.add_0_r. cbn [fst snd]. apply lookup_insert_eq.
    + apply (Forall_imap _ (fun l' => color l' <> color l));
        [|exact H]. intros i a Ha. exact Ha.
  - intros layers c H. unfold generateLayerData.
    rewrite fold_layerData_miss; [reflexivity|].
    apply (Forall_imap _ (fun l' => color l' <> c)); [|exact H].
    intros i a Ha. exact Ha.
Qed.

Lemma layerData_last_colour_wins_witness :
  Forall (fun l' => color l' <> "#b87333") []
  /\ generateLayerData sampleXCSLayers !! "#b87333"
     = Some (mkLayerDatum "B.Cu" 3 true).
Proof.
  assert (H : Forall (fun l' : XCSLayer => color l' <> "#b87333") [])
    by constructor.
  split; [exact H|].
  exact (proj1 layerData_last_colour_wins
           [ mkXCSLayer "F.Cu" ["M1 1 L2 2"] false "#b87333"
               None None None None None;
             mkXCSLayer "Empty" ["M Z"] true "#ffffff"
               None None None None None ]
           []
           (mkXCSLayer "B.Cu" ["M1 1"; "L3 2"] true "#b87333"
              (Some (Fin 0)) None None None None) H).
Defined.

Section Identifiers.

Variable generateUUID : nat -> string.

Let addDisplay := addDisplay generateUUID.
Let collectDisplays := collectDisplays generateUUID.

(** One layer of the loop: a display with its settings, or nothing. *)
Lemma addDisplay_step (st : Collected) (index : nat) (l : XCSLayer) :
  safeTokens (join " " (paths l)) = true ->
  settled st ->
  let st' := addDisplay st (index, l) in
  settled st'
  /\ map displaySummary (displays st')
     = (map displaySummary (displays st)
        ++ (if exportable l then
              [(name l, S index,
                dPath (calculateBoundsAndTighten (join " " (paths l))))]
            else []))%list.
Proof.
  intros Hsafe Hs. cbv zeta.
  unfold addDisplay, XCSGenerator.addDisplay, exportable.
  assert (Hnil : forall st0 : Collected,
             map displaySummary (displays st0)
             = (map displaySummary (displays st0) ++ [])%list)
    by (intros; rewrite app_nil_r; reflexivity).
  destruct (visible l); cbn [negb orb andb]; [|split; [exact Hs|apply Hnil]].
  destruct (paths l) as [|p ps] eqn:Ep;
    [split; [exact Hs|apply Hnil]|].
  rewrite <- Ep in *. clear Ep p ps.
  destruct (isEmpty (join " " (paths l))); cbn [negb andb];
    [split; [exact Hs|apply Hnil]|].
  unfold createPathDisplay.
  destruct (bounds (calculateBoundsAndTighten (join " " (paths l))))
    as [b|] eqn:Eb.
  - assert (Ef : forallb hasLetter (tokens (join " " (paths l))) = false).
    { destruct (forallb _ _) eqn:E; [|reflexivity].
      apply (tighten_bounds_none _ Hsafe) in E. congruence. }
    rewrite Ef. cbn [negb displays displaySettingsMap]. split.
    + unfold settled, push. cbn [displays displaySettingsMap].
      apply Forall_app. split.
      * eapply Forall_impl; [exact Hs|]. intros d Hd. cbn beta in *.
        destruct (decide (generateUUID (drawn st) = displayId d)) as [->|Hne].
        -- rewrite lookup_insert_eq. eexists. reflexivity.
        -- rewrite lookup_insert_ne by exact Hne. exact Hd.
      * constructor; [|constructor]. cbn [displayId].
        rewrite lookup_insert_eq. eexists. reflexivity.
    + unfold push. rewrite map_app. reflexivity.
  - apply (tighten_bounds_none _ Hsafe) in Eb. rewrite Eb.
    cbn [negb displays displaySettingsMap].
    split; [exact Hs|apply Hnil].
Qed.

Lemma fold_addDisplay (layers : list XCSLayer) :
  forallb (fun l => safeTokens (join " " (paths l))) layers = true ->
  forall (k : nat) (st : Collected),
    settled st ->
    let st' := fold_left addDisplay
                         (imap (fun i l => (k + i, l)%nat) layers) st in
    settled st'
    /\ map displaySummary (displays st')
       = (map displaySummary (displays st)
          ++ expectedDisplays k layers)%list.
Proof.
  induction layers as [|l ls IH]; intros Hsafe k st Hs; cbv zeta.
  - cbn [imap fold_left expectedDisplays]. rewrite app_nil_r. auto.
  - cbn [forallb] in Hsafe. apply andb_true_iff in Hsafe as [Hl Hls].
    cbn [imap fold_left expectedDisplays]. rewrite Nat.add_0_r.
    destruct (addDisplay_step st k l Hl Hs) as [Hs1 E1].
    cbv zeta in Hs1, E1.
    assert (Ei : imap ((fun i l0 => ((k + i)%nat, l0)) ∘ S) ls
                 = imap (fun i l0 => ((S k + i)%nat, l0)) ls).
    { apply imap_ext. intros i x _. cbn. f_equal. lia. }
    rewrite Ei.
    destruct (IH Hls (S k) _ Hs1) as [Hs2 E2]. cbv zeta in Hs2, E2.
    split; [exact Hs2|]. rewrite E2, E1, <- app_assoc. reflexivity.
Qed.

(** X14. For layers whose paths have numbers of the safe range, the
    loop of [generate] makes a display of every layer that is visible and
    whose joined paths are not empty and hold a number, and of no other
    layer; the displays come in the order of the layers, each with the
    name of its layer, its place among all the layers as Z order and the
    tightened path; and every display has an entry in the settings map,
    whatever identifiers were drawn. *)
Theorem displays_of_exportable_layers (layers : list XCSLayer) :
  forallb (fun l => safeTokens (join " " (paths l))) layers = true ->
  map displaySummary (displays (collectDisplays layers))
  = expectedDisplays 0 layers
  /\ settled (collectDisplays layers).
Proof.
  intros Hsafe.
  assert (H0 : settled (mkCollected 1 [] ∅)) by constructor.
  destruct (fold_addDisplay layers Hsafe 0 _ H0) as [Hs E].
  cbv zeta in Hs, E.
  split; [exact E|exact Hs].
Qed.

End Identifiers.

Lemma displays_of_exportable_layers_witness :
  forallb (fun l => safeTokens (join " " (paths l))) sampleXCSLayers = true
  /\ expectedDisplays 0 sampleXCSLayers
     = [("B.Cu", 3%nat, "M0.000 0.000 L2.000 1.000")]
  /\ map displaySummary
         (displays (collectDisplays countingUUID sampleXCSLayers))
     = expectedDisplays 0 sampleXCSLayers.
Proof.
  assert (H : forallb (fun l => safeTokens (join " " (paths l)))
                      sampleXCSLayers = true) by (vm_compute; reflexivity).
  split; [exact H|]. split; [vm_compute; reflexivity|].
  exact (proj1 (displays_of_exportable_layers countingUUID
                  sampleXCSLayers H)).
Defined.

End XCSFacts.

(** ** The parsers of uploads *)

Module UploadFacts.
Import PCB.

Lemma startsWith_refl (s : string) : startsWith s s = true.
Proof.
  induction s as [|c s IH]; [reflexivity|].
  rewrite startsWith_cons, Ascii.eqb_refl. exact IH.
Qed.

Lemma endsWith_includes (p s : string) :
  endsWith p s = true -> includes p s = true.
Proof.
  induction s as [|c s IH]; cbn [endsWith includes]; intros H.
  - rewrite orb_false_r in H. apply String.eqb_eq in H. subst p. reflexivity.
  - apply orb_true_iff in H as [H|H].
    + apply String.eqb_eq in H. subst p. rewrite startsWith_refl. reflexivity.
    + rewrite (IH H). apply orb_true_r.
Qed.

Lemma startsWith_tail (c : ascii) (p s : string) :
  startsWith (String c p) s = true ->
  exists r, s = String c r /\ startsWith p r = true.
Proof.
  destruct s as [|b s]; [discriminate|].
  rewrite startsWith_cons. intros H. apply andb_true_iff in H as [H1 H2].
  apply Ascii.eqb_eq in H1. subst b. exists s. auto.
Qed.

Lemma includes_tail (c : ascii) (p s : string) :
  includes (String c p) s = true -> includes p s = true.
Proof.
  induction s as [|b s IH]; intros H.
  - cbn [includes] in H. rewrite orb_false_r in H. discriminate H.
  - change (includes (String c p) (String b s))
      with (startsWith (String c p) (String b s) || includes (String c p) s)
      in H.
    change (includes p (String b s))
      with (startsWith p (String b s) || includes p s).
    apply orb_true_iff in H as [H|H].
    + apply startsWith_tail in H as (r & [= <- <-] & Hr).
      apply orb_true_iff. right.
      destruct b; destruct s; cbn [includes]; rewrite Hr; reflexivity.
    + rewrite (IH H). apply orb_true_r.
Qed.

(** The loop over the table finds an entry of the table, or nothing. *)
Lemma detectIn_table (table : list (string * (string * Side)))
    (lowerName : string) :
  (existsb (fun e => includes (fst e) lowerName) table = false ->
   GerberZip.detectIn table lowerName = ("Unknown", Internal))
  /\ (existsb (fun e => includes (fst e) lowerName) table = true ->
      In (GerberZip.detectIn table lowerName) (map snd table)).
Proof.
  induction table as [|[pattern info] table [IH1 IH2]].
  - split; [reflexivity|discriminate].
  - cbn [existsb GerberZip.detectIn map fst snd].
    destruct (includes pattern lowerName); cbn [orb].
    + split; [discriminate|]. intros _. left. reflexivity.
    + split; [exact IH1|]. intros H. right. apply IH2, H.
Qed.

(** X15. The layer that [parseGerberZip] makes of a file is classified by
    the table of heuristics: when the lower-cased name holds a pattern of
    the table, the type and the side are those of an entry and the layer
    is visible; when it holds none, the layer is Unknown, internal, grey
    and hidden.  A name that ends in one of the extensions gtl, gbl, gts,
    gbs, gto, gbo, gko or gm1 passes the file filter and is never
    Unknown. *)
Theorem zip_layers_follow_the_table (filename layerId path : string)
    (sourceFormat : SourceFormat) (layerBounds : option Bounds)
    (outline : string) (simplifiedContent : option string) :
  let l := GerberZip.makeLayer layerId filename path sourceFormat
                               layerBounds outline simplifiedContent in
  visible l = knownName filename
  /\ (knownName filename = true ->
      In (type l, side l) (map snd GerberZip.LAYER_HEURISTICS))
  /\ (knownName filename = false ->
      type l = "Unknown" /\ side l = Internal /\ color l = "#cccccc")
  /\ (forall e : string,
        In e layerExtensions ->
        endsWith ("." ++ e) (toLowerCase filename) = true ->
        GerberZip.acceptsFile filename = true /\ knownName filename = true).
Proof.
  cbv zeta. unfold GerberZip.makeLayer.
  cbn [visible type side color].
  destruct (detectIn_table GerberZip.LAYER_HEURISTICS (toLowerCase filename))
    as [H1 H2].
  fold (knownName filename) in H1, H2.
  fold (GerberZip.detect filename) in H1, H2.
  assert (Hk : knownName filename = true ->
               In (fst (GerberZip.detect filename),
                   snd (GerberZip.detect filename))
                  (map snd GerberZip.LAYER_HEURISTICS)).
  { intros H. specialize (H2 H).
    destruct (GerberZip.detect filename). exact H2. }
  split; [|split; [exact Hk|split]].
  - destruct (knownName filename) eqn:E.
    + specialize (Hk eq_refl).
      destruct (GerberZip.detect filename) as [t s]. cbn [fst snd] in *.
      cbn [map GerberZip.LAYER_HEURISTICS snd In] in Hk.
      repeat (destruct Hk as [Hk|Hk];
              [injection Hk as <- <-; reflexivity|]).
      contradiction.
    + rewrite (H1 eq_refl). reflexivity.
  - intros E. rewrite (H1 E). repeat split; reflexivity.
  - intros e He Hend.
    assert (Hi : includes e (toLowerCase filename) = true)
      by (apply (includes_tail "."), endsWith_includes, Hend).
    unfold GerberZip.acceptsFile, knownName, layerExtensions in *.
    cbn [In] in He.
    repeat (destruct He as [<-|He];
            [split;
             [cbn [existsb GerberZip.extensions GerberZip.digitStrings];
              try change ("." ++ "gm1") with (".gm" ++ "1") in Hend;
              rewrite Hend; rewrite ?orb_true_r; reflexivity
             |cbn [existsb GerberZip.LAYER_HEURISTICS fst];
              rewrite Hi; rewrite ?orb_true_r; reflexivity]|]).
    contradiction.
Qed.

Lemma zip_layers_follow_the_table_witness :
  knownName "Board-B_Cu.GBL" = true
  /\ In (type (GerberZip.makeLayer "id" "Board-B_Cu.GBL" "" FormatSvg None ""
                                   None),
         side (GerberZip.makeLayer "id" "Board-B_Cu.GBL" "" FormatSvg None ""
                                   None))
        (map snd GerberZip.LAYER_HEURISTICS).
Proof.
  assert (H : knownName "Board-B_Cu.GBL" = true) by (vm_compute; reflexivity).
  split; [exact H|].
  exact (proj1 (proj2 (zip_layers_follow_the_table "Board-B_Cu.GBL" "id" ""
                         FormatSvg None "" None)) H).
Defined.

Section Kernel.

Variable Item : Type.
Variable PathItem : Type.
Variable importSVG : string -> result (option Item).
Variable getItems : Item -> result (list Item).
Variable toPathItem : Item -> result (option PathItem).
Variable subtract : Bounds -> list PathItem -> result PathItem.
Variable simplify : number -> PathItem -> result PathItem.
Variable exportSVG : PathItem -> result string.

Let processLayer :=
  Processor.processLayer Item PathItem importSVG getItems toPathItem
                         subtract simplify exportSVG.

Lemma ipcLayer_copper (layerId layerName : string) :
  inverted (IPC.ipcLayer layerId layerName) = true
  <-> type (IPC.ipcLayer layerId layerName) = "Copper".
Proof.
  cbn [IPC.ipcLayer inverted type]. unfold IPC.detectTypeFromName.
  destruct (includes "Cu" layerName); [tauto|].
  destruct (includes "Silk" layerName);
    [split; discriminate|].
  destruct (includes "Mask" layerName); split; discriminate.
Qed.

Lemma ipcLayer_processed (b : Bounds) (layerId layerName : string) :
  let l := IPC.ipcLayer layerId layerName in
  content (processLayer b l) = EmptyString
  /\ inverted (processLayer b l) = false
  /\ (inverted l = true -> bounds (processLayer b l) = Some zeroBounds).
Proof.
  cbv zeta. unfold processLayer, Processor.processLayer.
  cbn [IPC.ipcLayer inverted].
  destruct (includes "Cu" layerName).
  - repeat split; reflexivity.
  - repeat split; try reflexivity. discriminate.
Qed.

(** X16. Every layer that [parseIPC2581] makes has no content; it is
    marked inverted exactly when its type is Copper; and [processLayers]
    leaves it without content and with the flag cleared, the inverted ones
    with the zero box as bounds, whatever the kernel and the board
    bounds. *)
Theorem ipc_layers_have_no_geometry (randomUUID : nat -> string)
    (names : list (option string)) (b : Bounds) :
  Forall (fun l =>
            content l = EmptyString
            /\ (inverted l = true <-> type l = "Copper")
            /\ content (processLayer b l) = EmptyString
            /\ inverted (processLayer b l) = false
            /\ (inverted l = true ->
                bounds (processLayer b l) = Some zeroBounds))
         (IPC.ipcLayers randomUUID 0 names).
Proof.
  generalize 0%nat as made.
  induction names as [|[layerName|] names IH]; intros made;
    cbn [IPC.ipcLayers]; [constructor| |apply IH].
  destruct (isEmpty layerName); [apply IH|].
  constructor; [|apply IH].
  split; [reflexivity|]. split; [apply ipcLayer_copper|].
  apply ipcLayer_processed.
Qed.

End Kernel.

Lemma ipc_layers_have_no_geometry_witness :
  inverted (IPC.ipcLayer (countingUUID 0) "F.Cu") = true
  /\ bounds (Processor.processLayer unit unit VectorProcessor.nullImport
               VectorProcessor.noItems VectorProcessor.noPath
               VectorProcessor.noSubtract VectorProcessor.noSimplify
               VectorProcessor.noExport
               (mkBounds (Fin 0) (Fin 0) (Fin 10) (Fin 10))
               (IPC.ipcLayer (countingUUID 0) "F.Cu"))
     = Some zeroBounds.
Proof.
  assert (H : inverted (IPC.ipcLayer (countingUUID 0) "F.Cu") = true)
    by reflexivity.
  split; [exact H|].
  exact (proj2 (proj2 (proj2 (proj2
           (Forall_inv
              (ipc_layers_have_no_geometry unit unit
                 VectorProcessor.nullImport VectorProcessor.noItems
                 VectorProcessor.noPath VectorProcessor.noSubtract
                 VectorProcessor.noSimplify VectorProcessor.noExport
                 countingUUID [Some "F.Cu"]
                 (mkBounds (Fin 0) (Fin 0) (Fin 10) (Fin 10))))))) H).
Defined.

End UploadFacts.

(** ** App.tsx: the order of the layers *)

Module SortFacts.
Import PCB App.

Section Sorting.

Context {A : Type}.
Variable key : A -> Z.

Lemma insertBy_perm (a : A) (l : list A) :
  Permutation (insertBy key a l) (a :: l).
Proof.
  induction l as [|b r IH]; [reflexivity|].
  cbn [insertBy]. destruct (key a <=? key b)%Z; [reflexivity|].
  rewrite IH. apply perm_swap.
Qed.

Lemma insertBy_Forall (P : A -> Prop) (a : A) (l : list A) :
  P a -> Forall P l -> Forall P (insertBy key a l).
Proof.
  intros Ha H. induction H as [|b r Hb Hr IH]; cbn [insertBy].
  - constructor; [exact Ha|constructor].
  - destruct (key a <=? key b)%Z.
    + constructor; [exact Ha|]. constructor; assumption.
    + constructor; assumption.
Qed.

Lemma insertBy_ascending (a : A) (l : list A) :
  ascending key l -> ascending key (insertBy key a l).
Proof.
  induction l as [|b r IH]; cbn [insertBy ascending].
  - intros _. split; [constructor|exact I].
  - intros [Hb Hr]. destruct (key a <=? key b)%Z eqn:E.
    + apply Z.leb_le in E. cbn [ascending]. split.
      * constructor; [exact E|].
        eapply Forall_impl; [exact Hb|]. intros c Hc. cbn beta in *. lia.
      * split; assumption.
    + apply Z.leb_gt in E. cbn [ascending]. split.
      * apply insertBy_Forall; [lia|exact Hb].
      * apply IH, Hr.
Qed.

Lemma insertBy_ofKey (k : Z) (a : A) (l : list A) :
  ofKey key k (insertBy key a l) = ofKey key k (a :: l).
Proof.
  unfold ofKey. induction l as [|b r IH]; [reflexivity|].
  cbn [insertBy]. destruct (key a <=? key b)%Z eqn:E; [reflexivity|].
  apply Z.leb_gt in E.
  cbn [List.filter] in *. rewrite IH.
  destruct (key a =? k)%Z eqn:Ea, (key b =? k)%Z eqn:Eb; try reflexivity.
  apply Z.eqb_eq in Ea, Eb. lia.
Qed.

Lemma sortBy_sorts (l : list A) :
  Permutation (sortBy key l) l
  /\ ascending key (sortBy key l)
  /\ forall k, ofKey key k (sortBy key l) = ofKey key k l.
Proof.
  induction l as [|a r (IH1 & IH2 & IH3)]; cbn [sortBy].
  - split; [reflexivity|]. split; [exact I|reflexivity].
  - split; [|split].
    + rewrite insertBy_perm, IH1. reflexivity.
    + apply insertBy_ascending, IH2.
    + intros k. rewrite insertBy_ofKey. unfold ofKey in *.
      cbn [List.filter]. rewrite IH3. reflexivity.
Qed.

End Sorting.

(** X17. After an upload the layers are the uploaded ones in another
    order: ascending by the key of the comparator, and within a key in
    the order of the upload.  The key goes by the letters of the type: 1
    when the lower-cased type holds [cu], else 2 when it holds [mask],
    else 3 when it holds [silk], else 4.  So the type [Edge.Cuts] has
    key 1 and sorts with [F.Cu], and the type [Copper], which holds no
    [cu], has key 4 and sorts last. *)
Theorem layers_sorted_by_priority (layers : list PCBLayer) :
  let key := fun l => priority (type l) in
  Permutation (sortLayers layers) layers
  /\ ascending key (sortLayers layers)
  /\ (forall k : Z, ofKey key k (sortLayers layers) = ofKey key k layers)
  /\ Forall (fun l => (1 <= key l <= 4)%Z) layers
  /\ (forall t : string,
        (priority t = 1%Z <-> includes "cu" (toLowerCase t) = true)
        /\ (priority t = 2%Z <->
            includes "cu" (toLowerCase t) = false
            /\ includes "mask" (toLowerCase t) = true)
        /\ (priority t = 3%Z <->
            includes "cu" (toLowerCase t) = false
            /\ includes "mask" (toLowerCase t) = false
            /\ includes "silk" (toLowerCase t) = true))
  /\ priority "F.Cu" = 1%Z /\ priority "Edge.Cuts" = 1%Z
  /\ priority "Copper" = 4%Z.
Proof.
  cbv zeta. unfold sortLayers.
  destruct (sortBy_sorts (fun l => priority (type l)) layers)
    as (H1 & H2 & H3).
  split; [exact H1|]. split; [exact H2|]. split; [exact H3|].
  split.
  { clear. induction layers as [|l ls IH]; constructor; [|exact IH].
    unfold priority. cbv zeta.
    destruct (includes "cu" _); [lia|].
    destruct (includes "mask" _); [lia|].
    destruct (includes "silk" _); lia. }
  split; [|repeat split; reflexivity].
  intros t. unfold priority. cbv zeta.
  destruct (includes "cu" (toLowerCase t));
    [repeat split; intros; try discriminate; try tauto; try reflexivity;
     intuition discriminate|].
  destruct (includes "mask" (toLowerCase t));
    [repeat split; intros; try discriminate; try tauto; try reflexivity;
     intuition discriminate|].
  destruct (includes "silk" (toLowerCase t));
    repeat split; intros; try discriminate; try tauto; try reflexivity;
    intuition discriminate.
Qed.

(** An upload in the format IPC-2581 names its copper layers [Copper]:
    they come after the mask and the silk. *)
Example copper_of_ipc_sorts_last :
  map type (sortLayers [IPC.ipcLayer "1" "F.Cu"; IPC.ipcLayer "2" "F.Mask";
                        IPC.ipcLayer "3" "F.Silk"])
  = ["Solder Mask"; "Silkscreen"; "Copper"].
Proof. vm_compute. reflexivity. Qed.

End SortFacts.

(** ** PCBPreview.tsx: the view box and the zoom *)

Module PreviewFacts.
Import PCB Preview.

Local Open Scope Q_scope.

(** The bounds of a content alone are finite, with a width and a height
    of a tenth at least. *)
Lemma content_box (c : string) :
  finiteNumerals c ->
  exists bx by_ w h : Q,
    GerberToPath.getBounds [GerberToPath.mkLayer c None]
    = mkBounds (Fin bx) (Fin by_) (Fin w) (Fin h)
    /\ 0 <= w /\ 0 <= h.
Proof.
  intros Hc. unfold GerberToPath.getBounds.
  assert (Hf : Forall finiteLayer [GerberToPath.mkLayer c None])
    by (constructor; [split; [exact I|exact Hc]|constructor]).
  pose proof (GetBoundsFacts.fold_addLayer_good _ GerberToPath.emptyExtent
                eq_refl Hf) as G.
  unfold goodExtent in G.
  destruct (GerberToPath.eHasAny _); cbn [negb orb].
  - destruct G as (H1 & H2 & H3 & H4).
    destruct (GerberToPath.eMinX _) as [| |mx|]; try contradiction.
    destruct (GerberToPath.eMinY _) as [| |my|]; try contradiction.
    destruct (GerberToPath.eMaxX _) as [| |Mx|]; try contradiction.
    destruct (GerberToPath.eMaxY _) as [| |My|]; try contradiction.
    cbn [strictEq sub neg add]. rewrite !Math_max_fin_fin.
    do 4 eexists. split; [reflexivity|].
    pose proof (Qmax_if_ge_l (1 # 10) (Mx + - mx)).
    pose proof (Qmax_if_ge_l (1 # 10) (My + - my)).
    split; lra.
  - exists 0, 0, 100, 100. repeat split; discriminate.
Qed.

Lemma regular_proper (l : PCBLayer) : regularLayer l = true -> properLayer l.
Proof.
  unfold regularLayer, properLayer.
  destruct (bounds l) as [b|]; [|apply GetBoundsFacts.safe_finiteNumerals].
  intros H. apply andb_true_iff in H as [H Hh].
  apply andb_true_iff in H as [Hs Hw].
  apply GetBoundsFacts.safe_finiteBounds in Hs.
  destruct Hs as (Fx & Fy & Fw & Fh).
  destruct b as [bx by_ w h]. cbn [x y width height] in *.
  destruct bx as [| |bx|], by_ as [| |by_|], w as [| |w|], h as [| |h|];
    try contradiction.
  apply lessEq_fin in Hw. apply lessEq_fin in Hh.
  exists bx, by_, w, h. auto.
Qed.

Lemma addBox_ordered (e : GerberToPath.Extent) (l : PCBLayer) :
  properLayer l -> ordered e -> ordered (addBox e l).
Proof.
  intros Hl He. unfold addBox.
  destruct (negb (visible l)); [exact He|].
  assert (Hb : match layerBox l with
               | Some b =>
                   exists bx by_ w h : Q,
                     b = mkBounds (Fin bx) (Fin by_) (Fin w) (Fin h)
                     /\ 0 <= w /\ 0 <= h
               | None => True
               end).
  { unfold layerBox, properLayer in *.
    destruct (bounds l); [exact Hl|].
    destruct (isEmpty (content l)); [exact I|apply content_box, Hl]. }
  destruct (layerBox l) as [b|]; [|exact He].
  destruct Hb as (bx & by_ & w & h & -> & Hw & Hh).
  cbn [x y width height add].
  unfold ordered in *. cbn [GerberToPath.eHasAny].
  destruct (GerberToPath.eHasAny e).
  - destruct He as (mx & my & Mx & My & -> & Hx & Hy).
    cbn [GerberToPath.eMinX GerberToPath.eMinY GerberToPath.eMaxX
         GerberToPath.eMaxY].
    rewrite !Math_min_fin_fin, !Math_max_fin_fin.
    do 4 eexists. split; [reflexivity|].
    pose proof (Qmin_if_le_l mx bx). pose proof (Qmax_if_ge_l Mx (bx + w)).
    pose proof (Qmin_if_le_l my by_). pose proof (Qmax_if_ge_l My (by_ + h)).
    split; lra.
  - subst e. exists bx, by_, (bx + w), (by_ + h).
    split; [reflexivity|]. split; lra.
Qed.

Lemma previewBounds_proper (layers : list PCBLayer) :
  Forall properLayer layers ->
  exists bx by_ w h : Q,
    previewBounds layers = mkBounds (Fin bx) (Fin by_) (Fin w) (Fin h)
    /\ 0 <= w /\ 0 <= h.
Proof.
  intros H. unfold previewBounds.
  assert (Ho : ordered (fold_left addBox layers GerberToPath.emptyExtent)).
  { generalize GerberToPath.emptyExtent
      (eq_refl : ordered GerberToPath.emptyExtent).
    induction H as [|l ls Hl Hls IH]; intros e He; [exact He|].
    cbn [fold_left]. apply IH, addBox_ordered; assumption. }
  unfold ordered in Ho.
  destruct (GerberToPath.eHasAny _); cbn [negb].
  - destruct Ho as (mx & my & Mx & My & -> & Hx & Hy).
    cbn [GerberToPath.eMinX GerberToPath.eMinY GerberToPath.eMaxX
         GerberToPath.eMaxY sub neg add].
    do 4 eexists. split; [reflexivity|]. split; lra.
  - exists 0, 0, 100, 100. repeat split; discriminate.
Qed.

Lemma padding_positive (bx by_ w h : Q) :
  0 <= w -> 0 <= h ->
  exists p : Q,
    padding (mkBounds (Fin bx) (Fin by_) (Fin w) (Fin h)) = Fin p /\ 0 < p.
Proof.
  intros Hw Hh. unfold padding. cbn [width height].
  rewrite Math_max_fin_fin. cbn [mul orDefault truthy].
  set (m := if Qltb w h then h else w).
  assert (Hm : 0 <= m) by (unfold m; destruct (Qltb w h); assumption).
  destruct (Qeq_bool (m * (1 # 10)) 0) eqn:E; cbn [negb].
  - exists 10. split; [reflexivity|reflexivity].
  - exists (m * (1 # 10)). split; [reflexivity|].
    apply Qeq_bool_neq in E. lra.
Qed.

(** X18. When the bounds that the layers carry are in the safe range
    with a width and a height that are not negative, and the numerals of
    the contents of the layers without bounds are in the safe range, the
    base view box of the preview is finite and has a positive width and a
    positive height, whichever layers are visible and also when none
    is. *)
Theorem preview_view_box_is_positive (layers : list PCBLayer) :
  forallb regularLayer layers = true ->
  finiteBounds (baseViewBox layers)
  /\ greaterThan (width (baseViewBox layers)) (Fin 0) = true
  /\ greaterThan (height (baseViewBox layers)) (Fin 0) = true.
Proof.
  intros H.
  assert (Hp : Forall properLayer layers).
  { apply forallb_Forall in H. eapply Forall_impl; [exact H|].
    intros l. apply regular_proper. }
  unfold baseViewBox.
  destruct (previewBounds_proper layers Hp)
    as (bx & by_ & w & h & -> & Hw & Hh).
  destruct (padding_positive bx by_ w h Hw Hh) as (p & -> & Hpos).
  cbn [x y width height sub neg add mul].
  split; [repeat split; exact I|].
  split; apply lessThan_fin; lra.
Qed.

Lemma preview_view_box_is_positive_witness :
  forallb regularLayer
          [layerOf "F.Cu" Front false "M0 0 L5 5" None;
           layerOf "Edge.Cuts" Board false ""
                   (Some (mkBounds (Fin 1) (Fin 2) (Fin 0) (Fin 0)))]
  = true
  /\ boundsEq
       (baseViewBox
          [layerOf "F.Cu" Front false "M0 0 L5 5" None;
           layerOf "Edge.Cuts" Board false ""
                   (Some (mkBounds (Fin 1) (Fin 2) (Fin 0) (Fin 0)))])
       (mkBounds (Fin (- (1 # 2))) (Fin (- (1 # 2))) (Fin 6) (Fin 6))
  /\ greaterThan
       (width (baseViewBox
                 [layerOf "F.Cu" Front false "M0 0 L5 5" None;
                  layerOf "Edge.Cuts" Board false ""
                          (Some (mkBounds (Fin 1) (Fin 2) (Fin 0) (Fin 0)))]))
       (Fin 0) = true.
Proof.
  assert (H : forallb regularLayer
                [layerOf "F.Cu" Front false "M0 0 L5 5" None;
                 layerOf "Edge.Cuts" Board false ""
                         (Some (mkBounds (Fin 1) (Fin 2) (Fin 0) (Fin 0)))]
              = true) by (vm_compute; reflexivity).
  split; [exact H|]. split; [vm_compute; repeat split|].
  exact (proj1 (proj2 (preview_view_box_is_positive _ H))).
Defined.

(** X19. A wheel event leaves the zoom between a half and twenty,
    whatever the zoom was before (the buttons may have taken it further)
    and whatever the event, as long as the zoom was a number. *)
Theorem wheel_zoom_is_clamped (prev deltaY : number) :
  isNaN prev = false ->
  lessEq (Fin (1 # 2)) (wheelZoom prev deltaY) = true
  /\ lessEq (wheelZoom prev deltaY) (Fin 20) = true.
Proof.
  intros Hp. unfold wheelZoom.
  set (delta := if greaterThan deltaY (Fin 0) then Fin (9 # 10)
                else Fin (11 # 10)).
  assert (Hd : exists d, delta = Fin d /\ 0 < d).
  { unfold delta. destruct (greaterThan deltaY (Fin 0));
      eexists; (split; [reflexivity|reflexivity]). }
  destruct Hd as (d & -> & Hd).
  assert (Hm : mul prev (Fin d) = Infinity \/ mul prev (Fin d) = NegInfinity
               \/ exists q, mul prev (Fin d) = Fin q).
  { destruct prev as [| |q|]; [discriminate| | |].
    - right. left. cbn [mul]. unfold signedInfinity.
      assert (E : Qeq_bool d 0 = false).
      { destruct (Qeq_bool d 0) eqn:E'; [|reflexivity].
        apply Qeq_bool_iff in E'. lra. }
      rewrite E. assert (E2 : Qltb 0 d = true) by (apply Qltb_lt; exact Hd).
      rewrite E2. reflexivity.
    - right. right. eexists. reflexivity.
    - left. cbn [mul]. unfold signedInfinity.
      assert (E : Qeq_bool d 0 = false).
      { destruct (Qeq_bool d 0) eqn:E'; [|reflexivity].
        apply Qeq_bool_iff in E'. lra. }
      rewrite E. assert (E2 : Qltb 0 d = true) by (apply Qltb_lt; exact Hd).
      rewrite E2. reflexivity. }
  destruct Hm as [->|[->|(q & ->)]].
  - split; reflexivity.
  - split; reflexivity.
  - rewrite Math_max_fin_fin, Math_min_fin_fin, !lessEq_fin.
    pose proof (Qmax_if_ge_r q (1 # 2)) as H1.
    set (m := if Qltb q (1 # 2) then 1 # 2 else q) in *.
    pose proof (Qmin_if_le_r m 20) as H2.
    pose proof (Qmin_if_le_l m 20) as H3.
    destruct (Qltb_reflect 20 m) as [L|L]; split; lra.
Qed.

Lemma wheel_zoom_is_clamped_witness :
  isNaN (Fin 24) = false
  /\ lessEq (wheelZoom (Fin 24) (Fin (-100))) (Fin 20) = true.
Proof.
  split; [reflexivity|].
  exact (proj2 (wheel_zoom_is_clamped (Fin 24) (Fin (-100)) eq_refl)).
Defined.

End PreviewFacts.

(** ** [GerberToPath.getBounds]: the union holds every layer *)

Module UnionFacts.
Import GerberToPath.

Local Open Scope Q_scope.

(** A finite extent. *)
Lemma good_fin (e : Extent) :
  goodExtent e -> eHasAny e = true ->
  exists mx my Mx My : Q, e = mkExtent (Fin mx) (Fin my) (Fin Mx) (Fin My) true.
Proof.
  unfold goodExtent. intros G H. rewrite H in G.
  destruct e as [a b c d h]. cbn in *. subst h.
  destruct G as (H1 & H2 & H3 & H4).
  destruct a, b, c, d; try contradiction. do 4 eexists. reflexivity.
Qed.

Lemma addLayer_contribution (e : Extent) (l : Layer) :
  addLayer e l = match contribution l with
                 | Some b => extend e b
                 | None => e
                 end.
Proof.
  unfold addLayer, contribution.
  destruct (bounds l) as [b|]; cbn [default from_option id].
  - destruct (greaterThan (width b) (Fin 0)); [reflexivity|].
    destruct (isEmpty (content l)); [reflexivity|].
    destruct (_ || _); reflexivity.
  - destruct (isEmpty (content l)); [reflexivity|].
    destruct (_ || _); reflexivity.
Qed.

Lemma contribution_finite (l : Layer) (b : Bounds) :
  finiteLayer l -> contribution l = Some b -> finiteBounds b.
Proof.
  unfold finiteLayer, contribution. intros [Hl Hn].
  assert (Hc : forall c,
             (if isEmpty (content l) then None
              else if greaterThan (width (calculatePathBounds (content l)))
                                  (Fin 0)
                      || greaterThan (height (calculatePathBounds (content l)))
                                     (Fin 0)
                   then Some (calculatePathBounds (content l)) else None)
             = Some c -> finiteBounds c).
  { intros c. destruct (isEmpty (content l)); [discriminate|].
    destruct (_ || _); [|discriminate]. intros [= <-].
    apply GetBoundsFacts.calculatePathBounds_finite, Hn. }
  destruct (bounds l) as [b'|]; [|apply Hc].
  destruct (greaterThan (width b') (Fin 0)); [|apply Hc].
  intros [= <-]. exact Hl.
Qed.

(** Adding a finite box to a finite or empty extent: the new extent holds
    the box and whatever the old one held. *)
Lemma extend_covers (e : Extent) (b : Bounds) :
  goodExtent e -> finiteBounds b ->
  covers (extend e b) b
  /\ (forall c : Bounds, finiteBounds c -> covers e c -> covers (extend e b) c).
Proof.
  intros He (Hx & Hy & Hw & Hh).
  destruct b as [bx by_ w h]. cbn [x y width height] in *.
  destruct bx as [| |bx|], by_ as [| |by_|], w as [| |w|], h as [| |h|];
    try contradiction.
  unfold extend. cbn [x y width height add].
  destruct (eHasAny e) eqn:Eh.
  - destruct (good_fin e He Eh) as (mx & my & Mx & My & ->).
    cbn [eMinX eMinY eMaxX eMaxY].
    rewrite !Math_min_fin_fin, !Math_max_fin_fin.
    pose proof (Qmin_if_le_l mx bx). pose proof (Qmin_if_le_r mx bx).
    pose proof (Qmin_if_le_l my by_). pose proof (Qmin_if_le_r my by_).
    pose proof (Qmax_if_ge_l Mx (bx + w)). pose proof (Qmax_if_ge_r Mx (bx + w)).
    pose proof (Qmax_if_ge_l My (by_ + h)).
    pose proof (Qmax_if_ge_r My (by_ + h)).
    split.
    + unfold covers. cbn [eMinX eMinY eMaxX eMaxY x y width height add].
      rewrite !lessEq_fin. repeat split; assumption.
    + intros [cx cy cw ch] (F1 & F2 & F3 & F4). cbn [x y width height] in *.
      destruct cx as [| |cx|], cy as [| |cy|], cw as [| |cw|],
               ch as [| |ch|]; try contradiction.
      unfold covers. cbn [eMinX eMinY eMaxX eMaxY x y width height add].
      rewrite !lessEq_fin. intros (C1 & C2 & C3 & C4). repeat split; lra.
  - unfold goodExtent in He. rewrite Eh in He. subst e.
    cbn [eMinX eMinY eMaxX eMaxY emptyExtent].
    change (Math_min Infinity (Fin bx)) with (Fin bx).
    change (Math_min Infinity (Fin by_)) with (Fin by_).
    change (Math_max NegInfinity (Fin (bx + w))) with (Fin (bx + w)).
    change (Math_max NegInfinity (Fin (by_ + h))) with (Fin (by_ + h)).
    split.
    + unfold covers. cbn [eMinX eMinY eMaxX eMaxY x y width height add].
      rewrite !lessEq_fin. repeat split; apply Qle_refl.
    + intros [cx cy cw ch] (F1 & F2 & F3 & F4). cbn [x y width height] in *.
      destruct cx as [| |cx|], cy as [| |cy|], cw as [| |cw|],
               ch as [| |ch|]; try contradiction.
      unfold covers. cbn [eMinX x]. intros (C1 & _). discriminate C1.
Qed.

Lemma addLayer_keeps (e : Extent) (l : Layer) (c : Bounds) :
  goodExtent e -> finiteLayer l -> finiteBounds c ->
  covers e c -> covers (addLayer e l) c.
Proof.
  intros He Hl Hc Hcov. rewrite addLayer_contribution.
  destruct (contribution l) as [b|] eqn:E; [|exact Hcov].
  exact (proj2 (extend_covers e b He (contribution_finite l b Hl E))
           c Hc Hcov).
Qed.

Lemma fold_addLayer_keeps (layers : list Layer) (c : Bounds) :
  Forall finiteLayer layers -> finiteBounds c ->
  forall e, goodExtent e -> covers e c ->
            covers (fold_left addLayer layers e) c.
Proof.
  intros H Hc. induction H as [|l ls Hl Hls IH]; intros e He Hcov;
    [exact Hcov|].
  cbn [fold_left]. apply IH.
  - apply GetBoundsFacts.addLayer_good; assumption.
  - apply addLayer_keeps; assumption.
Qed.

Lemma fold_addLayer_covers (layers : list Layer) :
  Forall finiteLayer layers ->
  forall e, goodExtent e ->
    Forall (fun l => match contribution l with
                     | Some b => covers (fold_left addLayer layers e) b
                     | None => True
                     end) layers.
Proof.
  induction 1 as [|l ls Hl Hls IH]; intros e He; [constructor|].
  cbn [fold_left].
  assert (Hg : goodExtent (addLayer e l))
    by (apply GetBoundsFacts.addLayer_good; assumption).
  constructor; [|apply IH, Hg].
  destruct (contribution l) as [b|] eqn:E; [|exact I].
  pose proof (contribution_finite l b Hl E) as Hb.
  apply fold_addLayer_keeps; [exact Hls|exact Hb|exact Hg|].
  rewrite addLayer_contribution, E.
  exact (proj1 (extend_covers e b He Hb)).
Qed.

Lemma fold_addLayer_hasAny (layers : list Layer) (e : Extent) :
  eHasAny e = true -> eHasAny (fold_left addLayer layers e) = true.
Proof.
  revert e. induction layers as [|l ls IH]; intros e H; [exact H|].
  cbn [fold_left]. apply IH. rewrite addLayer_contribution.
  destruct (contribution l); [reflexivity|exact H].
Qed.

(** X21. For layers whose bounds and whose numerals of the content are
    in the safe range, the box of [getBounds] holds the box of every
    layer that enters it: the bounds of a layer when their width is
    positive, else the box of its content when that is more than a
    point. *)
Theorem getBounds_holds_every_layer (layers : list Layer) :
  forallb safeLayer layers = true ->
  Forall (fun l => match contribution l with
                   | Some b => encloses (getBounds layers) b
                   | None => True
                   end) layers.
Proof.
  intros H. apply GetBoundsFacts.safe_finiteLayers in H.
  pose proof (fold_addLayer_covers layers H emptyExtent eq_refl) as Hc.
  pose proof (GetBoundsFacts.fold_addLayer_good layers emptyExtent eq_refl H)
    as Hg.
  unfold getBounds.
  set (e := fold_left addLayer layers emptyExtent) in *.
  clearbody e.
  induction H as [|l ls Hfin Hls IH]; [constructor|].
  inversion Hc as [|? ? Hl Hc']; subst.
  constructor; [|apply IH, Hc'].
  destruct (contribution l) as [b|] eqn:Eb; [|exact I].
  pose proof (contribution_finite l b Hfin Eb) as (F1 & F2 & F3 & F4).
  destruct (eHasAny e) eqn:Eh.
  - destruct (good_fin e Hg Eh) as (mx & my & Mx & My & Ee).
    rewrite Ee in *. cbn [negb orb eMinX eMinY eMaxX eMaxY strictEq].
    cbn [sub neg add]. rewrite !Math_max_fin_fin.
    destruct b as [bx by_ w h]. unfold covers, encloses in *.
    cbn [eMinX eMinY eMaxX eMaxY x y width height] in *.
    destruct Hl as (C1 & C2 & C3 & C4).
    destruct bx as [| |bx|]; try contradiction.
    destruct by_ as [| |by_|]; try contradiction.
    destruct w as [| |w|]; try contradiction.
    destruct h as [| |h|]; try contradiction.
    cbn [add] in *. rewrite !lessEq_fin in *.
    pose proof (Qmax_if_ge_r (1 # 10) (Mx + - mx)).
    pose proof (Qmax_if_ge_r (1 # 10) (My + - my)).
    repeat split; lra.
  - exfalso. unfold goodExtent in Hg. rewrite Eh in Hg.
    destruct Hl as (C1 & _). rewrite Hg in C1. cbn [eMinX emptyExtent] in C1.
    destruct (x b); try contradiction; discriminate C1.
Qed.

Lemma getBounds_holds_every_layer_witness :
  forallb safeLayer
          [mkLayer "" (Some (mkBounds (Fin 1) (Fin 2) (Fin 30) (Fin 20)));
           mkLayer "M0 0 L5 50" None]
  = true
  /\ boundsEq
       (getBounds
          [mkLayer "" (Some (mkBounds (Fin 1) (Fin 2) (Fin 30) (Fin 20)));
           mkLayer "M0 0 L5 50" None])
       (mkBounds (Fin 0) (Fin 0) (Fin 31) (Fin 50))
  /\ encloses
       (getBounds
          [mkLayer "" (Some (mkBounds (Fin 1) (Fin 2) (Fin 30) (Fin 20)));
           mkLayer "M0 0 L5 50" None])
       (mkBounds (Fin 1) (Fin 2) (Fin 30) (Fin 20)).
Proof.
  assert (H : forallb safeLayer
                [mkLayer "" (Some (mkBounds (Fin 1) (Fin 2) (Fin 30) (Fin 20)));
                 mkLayer "M0 0 L5 50" None] = true)
    by (vm_compute; reflexivity).
  split; [exact H|]. split; [vm_compute; repeat split|].
  exact (Forall_inv (getBounds_holds_every_layer _ H)).
Defined.

End UnionFacts.
